(** * cyrag: the retrieval pipeline, embedded and verified

    A shallow embedding of the retrieval core of the repository:

    - [src/utils/metadata.py]      (module [Metadata]),
    - [src/data/text_splitter.py]  (module [TextSplitter]),
    - [src/qdrant/client.py] and [src/qdrant/collection.py]
                                   (module [Collection]),
    - [src/rag/query.py]           (module [Query]),

    followed by the theorems that settle the specification's claims
    against these definitions.

    Conventions.  A Python [str] is a [string]; its characters are the 256
    code points of [ascii], classified as Python classifies the code points
    U+0000..U+00FF.  A Python [int] is a [Z], a [float] a primitive binary64
    [float].  A [dict] is an association list kept in insertion order.  A
    raised exception is the left injection of a sum and tells whether its
    class derives from [Exception], and the calls a
    function makes to its collaborators (embedding model, Qdrant client,
    language model) are recorded in an event log that is threaded through
    the computation together with the collaborators' own state. *)

From Stdlib Require Import ZArith List String Ascii Bool Arith Lia.
From Stdlib Require Import Sorting.Sorted Sorting.Permutation.
From Stdlib Require Import Numbers.DecimalString.
From Stdlib Require Import Floats.PrimFloat.
Import ListNotations.

Set Warnings "-inexact-float,-register-all".
Set Implicit Arguments.
Local Open Scope nat_scope.
Local Open Scope bool_scope.
Local Open Scope list_scope.
Local Open Scope string_scope.

(* ================================================================== *)
(** * Python runtime: the builtins the sources rely on *)
(* ================================================================== *)

Module Py.

(** ** Strings *)

(** [s[n:]] for [0 <= n]. *)
Fixpoint drop (n : nat) (s : string) : string :=
  match n, s with
  | O, _ => s
  | S _, EmptyString => EmptyString
  | S k, String _ s' => drop k s'
  end.

(** [s[:n]] for [0 <= n]. *)
Fixpoint take (n : nat) (s : string) : string :=
  match n, s with
  | O, _ => EmptyString
  | S _, EmptyString => EmptyString
  | S k, String c s' => String c (take k s')
  end.

(** [s.startswith(p)]. *)
Fixpoint startswith (p s : string) : bool :=
  match p, s with
  | EmptyString, _ => true
  | String _ _, EmptyString => false
  | String a p', String b s' => Ascii.eqb a b && startswith p' s'
  end.

(** Offset of the leftmost occurrence of [sub] in [s]. *)
Fixpoint find0 (sub s : string) : option nat :=
  if startswith sub s then Some O
  else match s with
       | EmptyString => None
       | String _ s' => option_map S (find0 sub s')
       end.

(** [sub in s]. *)
Definition contains (sub s : string) : bool :=
  match find0 sub s with Some _ => true | None => false end.

(** [s.find(sub, start)]: a negative [start] counts from the end and is
    clamped at 0; the answer is [-1] when there is no occurrence at or
    after [start] (in particular when [start] is past the end). *)
Definition find (s sub : string) (start : Z) : Z :=
  let n := Z.of_nat (String.length s) in
  let st := if (start <? 0)%Z then Z.max 0 (n + start) else start in
  if (n <? st)%Z then (-1)%Z
  else match find0 sub (drop (Z.to_nat st) s) with
       | Some k => (st + Z.of_nat k)%Z
       | None => (-1)%Z
       end.

(** Slice bounds: negative indices count from the end, then both ends are
    clamped to [0, len]. *)
Definition clamp (len i : Z) : Z :=
  if (i <? 0)%Z then Z.max 0 (len + i) else Z.min i len.

(** [s[a:b]]. *)
Definition slice (s : string) (a b : Z) : string :=
  let n := Z.of_nat (String.length s) in
  let lo := clamp n a in
  let hi := clamp n b in
  take (Z.to_nat (hi - lo)) (drop (Z.to_nat lo) s).

(** [s[a:]]. *)
Definition slice_from (s : string) (a : Z) : string :=
  slice s a (Z.of_nat (String.length s)).

(** [s.split(sep)[-1]] for a one-character separator: what follows the
    last separator, or all of [s] when there is none. *)
Fixpoint last_field (sep : ascii) (s : string) : string :=
  match s with
  | EmptyString => EmptyString
  | String c s' =>
      if Ascii.eqb c sep then last_field sep s'
      else if contains (String sep EmptyString) s' then last_field sep s'
           else s
  end.

Definition code (c : ascii) : nat := nat_of_ascii c.

Definition between (lo hi n : nat) : bool :=
  ((lo <=? n)%nat && (n <=? hi)%nat)%bool.

(** [c.lower()] on U+0000..U+00FF. *)
Definition lower_char (c : ascii) : ascii :=
  let n := code c in
  if between 65 90 n || (between 192 222 n && negb (n =? 215)%nat)
  then ascii_of_nat (n + 32) else c.

Fixpoint lower (s : string) : string :=
  match s with
  | EmptyString => EmptyString
  | String c s' => String (lower_char c) (lower s')
  end.

(** The line feed, written [\n] in the sources. *)
Definition nl : string := String (ascii_of_nat 10) EmptyString.

(** [str(n)] for a natural number. *)
Definition str_of_nat (n : nat) : string :=
  NilZero.string_of_uint (Nat.to_uint n).

(** ** Regular-expression character classes ([re], [str] patterns) *)

(** [\w]: alphanumeric code points and the underscore. *)
Definition is_word (c : ascii) : bool :=
  let n := code c in
  between 48 57 n || between 65 90 n || (n =? 95)%nat || between 97 122 n
  || (n =? 170)%nat || (n =? 178)%nat || (n =? 179)%nat || (n =? 181)%nat || (n =? 185)%nat
  || (n =? 186)%nat || between 188 190 n || between 192 214 n
  || between 216 246 n || between 248 255 n.

(** [\s]: white space. *)
Definition is_space (c : ascii) : bool :=
  let n := code c in
  between 9 13 n || between 28 32 n || (n =? 133)%nat || (n =? 160)%nat.

(** [[A-Z]]. *)
Definition is_upper_AZ (c : ascii) : bool := between 65 90 (code c).

(** ** Values held in metadata and payload dictionaries *)

Inductive Value : Type :=
| VNone
| VBool (b : bool)
| VInt (z : Z)
| VStr (s : string)
| VList (l : list Value).

(** [type(v).__name__]. *)
Definition type_name (v : Value) : string :=
  match v with
  | VNone => "NoneType"
  | VBool _ => "bool"
  | VInt _ => "int"
  | VStr _ => "str"
  | VList _ => "list"
  end.

(** Truth value of an object, as tested by [if x] and [x if c else y]. *)
Definition truthy (v : Value) : bool :=
  match v with
  | VNone => false
  | VBool b => b
  | VInt z => negb (z =? 0)%Z
  | VStr s => negb (String.eqb s "")
  | VList l => match l with [] => false | _ => true end
  end.

(** [v == s] for a string literal [s]. *)
Definition eq_str (v : Value) (s : string) : bool :=
  match v with VStr t => String.eqb t s | _ => false end.

(** ** Dictionaries with string keys, in insertion order *)

Definition dict (V : Type) : Type := list (string * V).

Fixpoint get {V} (d : dict V) (k : string) : option V :=
  match d with
  | [] => None
  | (k', v) :: d' => if String.eqb k' k then Some v else get d' k
  end.

(** [d.get(k, default)]. *)
Definition get_default {V} (d : dict V) (k : string) (default : V) : V :=
  match get d k with Some v => v | None => default end.

(** [k in d]. *)
Definition has_key {V} (d : dict V) (k : string) : bool :=
  match get d k with Some _ => true | None => false end.

(** [d[k] = v]: an existing key keeps its place, a new one goes last. *)
Fixpoint set {V} (d : dict V) (k : string) (v : V) : dict V :=
  match d with
  | [] => [(k, v)]
  | (k', v') :: d' =>
      if String.eqb k' k then (k', v) :: d' else (k', v') :: set d' k v
  end.

(** ** Stable sorting: [list.sort(key=..., reverse=True)]

    [list.sort] is stable, also under [reverse=True]: elements with equal
    keys keep their original relative order.  A stable sort has only one
    possible result, so insertion from the right computes it. *)

Section SortDesc.
Variable A : Type.
Variable key : A -> nat.

Fixpoint insert_desc (x : A) (l : list A) : list A :=
  match l with
  | [] => [x]
  | y :: l' => if (key y <=? key x)%nat then x :: l else y :: insert_desc x l'
  end.

Definition sort_desc (l : list A) : list A := fold_right insert_desc [] l.

End SortDesc.

End Py.

(* ================================================================== *)
(** * src/utils/metadata.py *)
(* ================================================================== *)

Module Metadata.
Import Py.

Definition CYANVIEW_PRODUCTS : list string :=
  [ "RCP"; "Remote Control Panel";
    "CI0"; "Camera Interface";
    "RIO"; "Remote I/O";
    "RIO Live"; "RIO-Live";
    "VP4"; "Video Processor";
    "NIO"; "Network I/O";
    "GWY"; "External Gateway";
    "CY-RSBM"; "CY-CI0BM";
    "CY-TALLY-BOX" ].

Definition CYANVIEW_TOPICS : list string :=
  [ "Camera Control"; "Lens Control"; "Tally"; "REMI"; "Remote Production";
    "Color Correction"; "Shading"; "Integration"; "PTZ"; "Gimbal";
    "IP Control"; "Serial Control"; "SDI Control"; "USB Control";
    "Wireless Control"; "API"; "Firmware"; "Configuration" ].

(** ** [re.findall(r'\b' + re.escape(term) + r'\b', content)] *)

Definition word_before (prev : option ascii) : bool :=
  match prev with Some c => is_word c | None => false end.

Definition word_at (s : string) : bool :=
  match s with String c _ => is_word c | EmptyString => false end.

(** [\b] between the character [prev] (if any) and the text [s] that
    follows it: exactly one side is a word character. *)
Definition boundary (prev : option ascii) (s : string) : bool :=
  xorb (word_before prev) (word_at s).

(** The last character passed over after reading [t] from a position whose
    left neighbour is [prev]. *)
Fixpoint last_char (prev : option ascii) (t : string) : option ascii :=
  match t with
  | EmptyString => prev
  | String c t' => last_char (Some c) t'
  end.

(** The pattern [\b term \b] matches at the head of [s], whose left
    neighbour is [prev]. *)
Definition match_here (term : string) (prev : option ascii) (s : string)
  : bool :=
  boundary prev s && startswith term s
  && boundary (last_char prev term) (drop (String.length term) s).

(** The scan of [findall]: matches are taken leftmost first and do not
    overlap; after a match the scan resumes where the match ended (one
    character further on after an empty match).  [skip] counts the
    characters still covered by the last match. *)
Fixpoint count_from (term : string) (prev : option ascii) (s : string)
                    (skip : nat) : nat :=
  match s with
  | EmptyString =>
      match skip with
      | O => if match_here term prev s then 1 else 0
      | S _ => 0
      end
  | String c s' =>
      match skip with
      | S k => count_from term (Some c) s' k
      | O =>
          if match_here term prev s
          then S (count_from term (Some c) s' (String.length term - 1))
          else count_from term (Some c) s' 0
      end
  end.

(** [len(re.findall(r'\b' + re.escape(term) + r'\b', content))]. *)
Definition count_occurrences (term content : string) : nat :=
  count_from term None content 0.

(** The loop shared by [extract_product_references] and [extract_topics]:
    the terms found, each with its count, in reference-list order. *)
Fixpoint found_terms (terms : list string) (content : string)
  : list (string * nat) :=
  match terms with
  | [] => []
  | t :: ts =>
      let count := count_occurrences t content in
      if (0 <? count)%nat then (t, count) :: found_terms ts content
      else found_terms ts content
  end.

Definition extract_references (terms : list string) (content : string)
  : list string :=
  map fst (sort_desc snd (found_terms terms content)).

Definition extract_product_references (content : string) : list string :=
  extract_references CYANVIEW_PRODUCTS content.

Definition extract_topics (content : string) : list string :=
  extract_references CYANVIEW_TOPICS content.

(** [re.search(r'\?\s+[A-Z]', content)]: a question mark, at least one
    white-space character, then a capital letter. *)
Fixpoint spaces_then_upper (s : string) : bool :=
  match s with
  | EmptyString => false
  | String c s' =>
      is_space c
      && (match s' with
          | String d _ => is_upper_AZ d
          | EmptyString => false
          end
          || spaces_then_upper s')
  end.

Fixpoint question_then_answer (s : string) : bool :=
  match s with
  | EmptyString => false
  | String c s' =>
      (Ascii.eqb c "?"%char && spaces_then_upper s')
      || question_then_answer s'
  end.

(** [re.search(r'Q:.*?A:', content, re.DOTALL)]: some ["Q:"] with an
    ["A:"] anywhere after it. *)
Definition q_then_a (s : string) : bool :=
  match find0 "Q:" s with
  | Some i => contains "A:" (drop (i + 2) s)
  | None => false
  end.

Definition is_qa_content (content : string) : bool :=
  if q_then_a content then true
  else if question_then_answer content then true
  else false.

Definition VStrs (l : list string) : Value := VList (map VStr l).

Definition extract_metadata_from_content (content : string) : dict Value :=
  let metadata : dict Value := [] in
  let products := extract_product_references content in
  let metadata :=
    match products with
    | p :: _ => set (set metadata "product" (VStr p))
                    "all_products" (VStrs products)
    | [] => metadata
    end in
  let topics := extract_topics content in
  let metadata :=
    match topics with
    | t :: _ => set (set metadata "topic" (VStr t))
                    "all_topics" (VStrs topics)
    | [] => metadata
    end in
  let metadata :=
    if is_qa_content content then set metadata "type" (VStr "qa")
    else metadata in
  metadata.

End Metadata.

(* ================================================================== *)
(** * src/data/text_splitter.py *)
(* ================================================================== *)

Module TextSplitter.
Import Py.

(** [langchain.schema.Document]. *)
Record Document : Type := mkDocument {
  page_content : string;
  metadata : dict Value
}.

Definition separators : list string :=
  [ nl ++ "## "; nl ++ "### "; nl ++ "#### ";
    nl ++ "- "; nl ++ "* "; nl ++ "1. ";
    nl ++ nl; nl;
    ". "; "? "; "! ";
    ";"; ":"; " "; "" ].

Section Splitting.

(** [RecursiveCharacterTextSplitter(chunk_size, chunk_overlap, separators,
    length_function=len).split_text] belongs to the langchain library, not
    to this repository: the segmentation itself is a parameter of the
    embedding, and what follows is the repository's own treatment of the
    pieces it returns. *)
Variable RecursiveCharacterTextSplitter :
  Z -> Z -> list string -> string -> list string.

(** The body of the inner loop that may rewrite [chunk_text]. *)
Definition repair_qa (doc : Document) (chunk_text : string) : string :=
  if match get (metadata doc) "type" with
     | Some v => eq_str v "qa"
     | None => false
     end
     && contains "Q: " chunk_text && negb (contains "A: " chunk_text)
  then
    let question := slice_from chunk_text (find chunk_text "Q: " 0) in
    let full_text := page_content doc in
    let answer_start := find full_text "A: " (find full_text question 0) in
    if negb (answer_start =? -1)%Z then
      let answer_text :=
        slice full_text answer_start
          (answer_start
           + Z.min 200 (Z.of_nat (String.length full_text) - answer_start))
      in
      question ++ nl ++ answer_text ++ "..."
    else chunk_text
  else chunk_text.

(** [for i, chunk_text in enumerate(doc_chunks)], from index [i] on;
    [total] is [len(doc_chunks)]. *)
Fixpoint emit_chunks (doc : Document) (total : nat) (i : nat)
                     (doc_chunks : list string) : list Document :=
  match doc_chunks with
  | [] => []
  | chunk_text :: rest =>
      let chunk_metadata := metadata doc in
      let chunk_metadata :=
        set chunk_metadata "chunk" (VInt (Z.of_nat i)) in
      let chunk_metadata :=
        set chunk_metadata "chunk_total" (VInt (Z.of_nat total)) in
      mkDocument (repair_qa doc chunk_text) chunk_metadata
      :: emit_chunks doc total (S i) rest
  end.

(** The chunks one document contributes. *)
Definition split_document (chunk_size chunk_overlap : Z) (doc : Document)
  : list Document :=
  let doc_chunks :=
    RecursiveCharacterTextSplitter chunk_size chunk_overlap separators
      (page_content doc) in
  emit_chunks doc (List.length doc_chunks) 0 doc_chunks.

Definition split_documents (documents : list Document)
                           (chunk_size chunk_overlap : Z) : list Document :=
  flat_map (split_document chunk_size chunk_overlap) documents.

End Splitting.

End TextSplitter.

(* ================================================================== *)
(** * Exceptions, collaborators and the event log *)
(* ================================================================== *)

(** The data types of the [qdrant_client] library that the sources build
    or read. *)
Module Qdrant.
Import Py.

Inductive Distance : Type := COSINE | EUCLID | DOT.

Record VectorParams : Type := mkVectorParams {
  size : Z;
  distance : Distance
}.

Record OptimizersConfigDiff : Type := mkOptimizersConfigDiff {
  indexing_threshold : Z
}.

Inductive PayloadSchemaType : Type := KEYWORD | INTEGER | FLOAT | TEXT.

(** [FieldCondition(key=..., match=MatchValue(value=...))]. *)
Record FieldCondition : Type := mkFieldCondition {
  key : string;
  match_value : Value
}.

(** [Filter(must=[...])]. *)
Record Filter : Type := mkFilter {
  must : list FieldCondition
}.

(** A hit as the client returns it. *)
Record ScoredPoint : Type := mkScoredPoint {
  id : Z;
  score : float;
  payload : dict Value
}.

(** The keyword arguments of [client.search]; the two optional ones are
    [None] when the key is not in [search_params]. *)
Record SearchParams : Type := mkSearchParams {
  sp_collection_name : string;
  sp_query_vector : list float;
  sp_limit : Z;
  sp_query_filter : option Filter;
  sp_score_threshold : option float
}.

End Qdrant.

Module Effects.
Import Py Qdrant.

(** A raised exception: its class and its message.  [Raise] is an
    instance of a class that derives from [Exception]; [RaiseBase] is an
    instance of a class that derives from [BaseException] only, as
    [KeyboardInterrupt], [SystemExit] and [GeneratorExit] do. *)
Inductive exn : Type :=
| Raise (cls msg : string)
| RaiseBase (cls msg : string).

(** [isinstance(e, Exception)]: what [except Exception] catches. *)
Definition is_Exception (e : exn) : bool :=
  match e with
  | Raise _ _ => true
  | RaiseBase _ _ => false
  end.

Definition outcome (A : Type) : Type := (exn + A)%type.

(** One entry per call made to a collaborator. *)
Inductive Event : Type :=
| EvEmbedQuery (text : string)
| EvGetCollections
| EvDeleteCollection (collection_name : string)
| EvCreateCollection (collection_name : string)
                     (vectors_config : VectorParams)
                     (optimizers_config : OptimizersConfigDiff)
| EvCreatePayloadIndex (collection_name field_name : string)
                       (field_schema : PayloadSchemaType)
| EvSearch (search_params : SearchParams)
| EvBuildChain (is_technical : bool)
| EvRunChain (is_technical : bool) (context query : string).

(** The collaborators, over a state [W] of their own: the embedding model
    ([embedder.embed_query]), the Qdrant client, and the language model
    ([OpenAI(...)] with its prompt wrapped in an [LLMChain], then
    [chain.run]).  Each call may raise and may change [W].  [MatchValue]
    is the constructor of the library's model of that name: it validates
    the value it is given, and either raises or gives the value the model
    holds; it does not touch [W]. *)
Record Collaborators (W : Type) : Type := mkCollaborators {
  MatchValue : Value -> outcome Value;
  embed_query : string -> W -> outcome (list float) * W;
  get_collections : W -> outcome (list string) * W;
  delete_collection : string -> W -> outcome unit * W;
  create_collection_call :
    string -> VectorParams -> OptimizersConfigDiff -> W -> outcome unit * W;
  create_payload_index :
    string -> string -> PayloadSchemaType -> W -> outcome unit * W;
  search : SearchParams -> W -> outcome (list ScoredPoint) * W;
  build_chain : bool -> W -> outcome unit * W;
  run_chain : bool -> string -> string -> W -> outcome string * W
}.

(** Renderings done by the interpreter inside f-strings: [str(v)] of a
    value that is not a string, and the format [:.2f] of a float. *)
Record Formatter : Type := mkFormatter {
  render : Value -> string;
  format_2f : float -> string
}.

(** [config.py]: the settings read from the environment at import. *)
Record Config : Type := mkConfig {
  COLLECTION_NAME : string;
  LLM_PROVIDER : string;
  OPENAI_API_KEY : string
}.

(** The state of the process: the collaborators' state, whether
    [QdrantClientManager._instance] is set, and the log of calls. *)
Record Process (W : Type) : Type := mkProcess {
  world : W;
  manager_instance : bool;
  log : list Event
}.

Definition M (W A : Type) : Type := Process W -> outcome A * Process W.

Definition ret {W A} (a : A) : M W A := fun p => (inr a, p).

Definition raise {W A} (e : exn) : M W A := fun p => (inl e, p).

Definition bind {W A B} (m : M W A) (k : A -> M W B) : M W B :=
  fun p =>
    match m p with
    | (inr a, p') => k a p'
    | (inl e, p') => (inl e, p')
    end.

(** [try: m / except Exception as e: handler e]: an exception that is
    not an instance of [Exception] is not caught. *)
Definition try_except {W A} (m : M W A) (handler : exn -> M W A) : M W A :=
  fun p =>
    match m p with
    | (inr a, p') => (inr a, p')
    | (inl e, p') => if is_Exception e then handler e p' else (inl e, p')
    end.

(** A call to a collaborator, logged whether or not it raises. *)
Definition call {W A} (ev : Event) (op : W -> outcome A * W) : M W A :=
  fun p =>
    let (r, w') := op (world p) in
    (r, mkProcess w' (manager_instance p) (log p ++ [ev])%list).

(** A pure computation that may raise. *)
Definition lift {W A} (r : outcome A) : M W A := fun p => (r, p).

Declare Scope py_scope.
Delimit Scope py_scope with py.
Notation "x <- m ;; k" := (bind m (fun x => k))
  (at level 100, m at next level, right associativity) : py_scope.
Notation "m ;;; k" := (bind m (fun _ => k))
  (at level 100, right associativity) : py_scope.

End Effects.

(* ================================================================== *)
(** * src/qdrant/client.py and src/qdrant/collection.py *)
(* ================================================================== *)

Module Collection.
Import Py Qdrant Effects.
Local Open Scope py_scope.

Section WithCollaborators.
Variable W : Type.
Variable C : Collaborators W.
Variable cfg : Config.

(** [get_qdrant_client()]: [QdrantClientManager()] builds the client on
    first use only.  [__new__] stores the instance before [_init_client]
    tests the connection with [get_collections], so a failed test raises
    and still leaves the instance in place. *)
Definition get_qdrant_client : M W unit :=
  fun p =>
    if manager_instance p then ret tt p
    else
      (call EvGetCollections (get_collections C) ;;; ret tt)
        (mkProcess (world p) true (log p)).

(** [collection_name or COLLECTION_NAME]. *)
Definition or_default (collection_name : option string) : string :=
  match collection_name with
  | Some n => if String.eqb n "" then COLLECTION_NAME cfg else n
  | None => COLLECTION_NAME cfg
  end.

Definition create_collection (vector_size : Z)
                             (collection_name : option string)
                             (recreate : bool) : M W unit :=
  get_qdrant_client ;;;
  let collection_name := or_default collection_name in
  collection_names <- call EvGetCollections (get_collections C) ;;
  let present := existsb (String.eqb collection_name) collection_names in
  if present && negb recreate then ret tt
  else
    (if present
     then call (EvDeleteCollection collection_name)
               (delete_collection C collection_name)
     else ret tt) ;;;
    let vectors_config := mkVectorParams vector_size COSINE in
    let optimizers_config := mkOptimizersConfigDiff 0 in
    call (EvCreateCollection collection_name vectors_config optimizers_config)
         (create_collection_call C collection_name vectors_config
                                 optimizers_config) ;;;
    call (EvCreatePayloadIndex collection_name "product" KEYWORD)
         (create_payload_index C collection_name "product" KEYWORD) ;;;
    call (EvCreatePayloadIndex collection_name "type" KEYWORD)
         (create_payload_index C collection_name "type" KEYWORD) ;;;
    ret tt.

(** One entry of the list [search_vectors] returns: a dictionary with the
    keys ["id"], ["score"] and ["payload"]. *)
Record SearchResult : Type := mkSearchResult {
  r_id : Z;
  r_score : float;
  r_payload : dict Value
}.

Definition result_of (result : ScoredPoint) : SearchResult :=
  mkSearchResult (id result) (score result) (payload result).

(** The list comprehension over [filter_params.items()]: one
    [FieldCondition] per entry, in order; the first value that
    [MatchValue] refuses ends it with the library's exception. *)
Fixpoint field_conditions (items : list (string * Value))
  : outcome (list FieldCondition) :=
  match items with
  | [] => inr []
  | (key, value) :: rest =>
      match MatchValue C value with
      | inl e => inl e
      | inr held =>
          match field_conditions rest with
          | inl e => inl e
          | inr conditions => inr (mkFieldCondition key held :: conditions)
          end
      end
  end.

(** [if filter_params:] holds for a non-empty dictionary; without it
    [search_params] gets no ["query_filter"]. *)
Definition query_filter_of (filter_params : option (dict Value))
  : outcome (option Filter) :=
  match filter_params with
  | Some ((_ :: _) as items) =>
      match field_conditions items with
      | inl e => inl e
      | inr conditions => inr (Some (mkFilter conditions))
      end
  | _ => inr None
  end.

Definition search_vectors (query_vector : list float)
                          (collection_name : option string)
                          (filter_params : option (dict Value))
                          (top_k : Z)
                          (score_threshold : option float)
  : M W (list SearchResult) :=
  get_qdrant_client ;;;
  let collection_name := or_default collection_name in
  query_filter <- lift (query_filter_of filter_params) ;;
  let search_params :=
    mkSearchParams collection_name query_vector top_k query_filter
                   score_threshold in
  search_results <- call (EvSearch search_params) (search C search_params) ;;
  ret (map result_of search_results).

End WithCollaborators.

End Collection.

(* ================================================================== *)
(** * src/rag/query.py *)
(* ================================================================== *)

Module Query.
Import Py Qdrant Effects Collection.
Local Open Scope py_scope.

(** One entry of the list [query_qdrant] returns: a dictionary with the
    keys ["text"], ["source"], ["product"], ["score"] and ["id"]. *)
Record Context : Type := mkContext {
  c_text : Value;
  c_source : Value;
  c_product : Value;
  c_score : float;
  c_id : Z
}.

(** The dictionary [rag_query] returns; ["answer"] may be missing. *)
Record Response : Type := mkResponse {
  query : string;
  context : string;
  sources : list Value;
  answer : option string
}.

Definition NO_RESULTS_ANSWER : string :=
  "I couldn't find any relevant information to answer your question about Cyanview systems.".

Definition ANSWER_ERROR : string :=
  "Error generating answer based on the retrieved context.".

(** [sep.join(parts)]. *)
Fixpoint join (sep : string) (parts : list string) : string :=
  match parts with
  | [] => ""
  | [x] => x
  | x :: rest => x ++ sep ++ join sep rest
  end.

Section WithCollaborators.
Variable W : Type.
Variable C : Collaborators W.
Variable F : Formatter.
Variable cfg : Config.

(** [f"{v}"]. *)
Definition str (v : Value) : string :=
  match v with VStr s => s | _ => render F v end.

(** What the interpreter raises for [v.split] when [v] is not a
    string. *)
Definition no_split (v : Value) : exn :=
  Raise "AttributeError"
        ("'" ++ type_name v ++ "' object has no attribute 'split'").

(** The block of one result; [.split] exists on strings only. *)
Definition context_part (i : nat) (result : Context) : outcome string :=
  match
    (if truthy (c_source result) then
       match c_source result with
       | VStr s => inr (last_field "/" s)
       | v => inl (no_split v)
       end
     else inr ("Document " ++ str_of_nat (i + 1)))
  with
  | inl e => inl e
  | inr source =>
      let product :=
        if truthy (c_product result)
        then " [" ++ str (c_product result) ++ "]" else "" in
      inr ("[Source: " ++ source ++ product ++ ", Score: "
           ++ format_2f F (c_score result) ++ "]" ++ nl
           ++ str (c_text result) ++ nl ++ nl)
  end.

(** [for i, result in enumerate(results)], from index [i] on. *)
Fixpoint context_parts (i : nat) (results : list Context)
  : outcome (list string) :=
  match results with
  | [] => inr []
  | result :: rest =>
      match context_part i result with
      | inl e => inl e
      | inr part =>
          match context_parts (S i) rest with
          | inl e => inl e
          | inr parts => inr (part :: parts)
          end
      end
  end.

Definition format_context (results : list Context) : outcome string :=
  match context_parts 0 results with
  | inl e => inl e
  | inr parts => inr (join nl parts)
  end.

(** The loop of [query_qdrant] over the hits. *)
Fixpoint contexts_of (search_results : list SearchResult) : list Context :=
  match search_results with
  | [] => []
  | result :: rest =>
      if has_key (r_payload result) "text"
      then mkContext (get_default (r_payload result) "text" VNone)
                     (get_default (r_payload result) "source" (VStr ""))
                     (get_default (r_payload result) "product" (VStr ""))
                     (r_score result) (r_id result)
           :: contexts_of rest
      else contexts_of rest
  end.

Definition query_qdrant (query_text : string) (top_k : Z)
                        (filter_params : option (dict Value))
                        (score_threshold : option float)
  : M W (list Context) :=
  query_vector <- call (EvEmbedQuery query_text)
                       (embed_query C query_text) ;;
  search_results <- search_vectors C cfg query_vector
                      (Some (COLLECTION_NAME cfg)) filter_params top_k
                      score_threshold ;;
  ret (contexts_of search_results).

(** The chain [get_llm_chain] returns is identified by its prompt. *)
Record LLMChain : Type := mkLLMChain {
  technical_prompt : bool
}.

Definition get_llm_chain (is_technical : bool) : M W (option LLMChain) :=
  if String.eqb (lower (LLM_PROVIDER cfg)) "openai" then
    if String.eqb (OPENAI_API_KEY cfg) "" then ret None
    else
      call (EvBuildChain is_technical) (build_chain C is_technical) ;;;
      ret (Some (mkLLMChain is_technical))
  else ret None.

Definition rag_query (query_text : string) (top_k : Z)
                     (filter_params : option (dict Value))
                     (score_threshold : option float)
                     (is_technical : bool) : M W Response :=
  search_results <- query_qdrant query_text top_k filter_params
                                 score_threshold ;;
  match search_results with
  | [] => ret (mkResponse query_text "" [] (Some NO_RESULTS_ANSWER))
  | _ :: _ =>
      context <- lift (format_context search_results) ;;
      let sources := map c_source search_results in
      llm_chain <- get_llm_chain is_technical ;;
      match llm_chain with
      | Some chain =>
          try_except
            (answer <- call (EvRunChain (technical_prompt chain) context
                                        query_text)
                            (run_chain C (technical_prompt chain) context
                                       query_text) ;;
             ret (mkResponse query_text context sources (Some answer)))
            (fun _ =>
               ret (mkResponse query_text context sources
                               (Some ANSWER_ERROR)))
      | None => ret (mkResponse query_text context sources None)
      end
  end.

End WithCollaborators.

End Query.

(* ================================================================== *)
(** * The specification's notions, written from its words *)
(* ================================================================== *)

Module Stated.
Import Py.

(** A whole-word occurrence of [term] at the head of [s], whose left
    neighbour is [prev]: the text starts with [term] exactly (case
    included), and neither the character before nor the character after
    the occurrence is a word character. *)
Definition occurs_here (term : string) (prev : option ascii) (s : string)
  : bool :=
  negb (Metadata.word_before prev) && startswith term s
  && negb (Metadata.word_at (drop (String.length term) s)).

(** The number of positions of [s] at which [term] occurs as a whole
    word. *)
Fixpoint occurrences_from (term : string) (prev : option ascii) (s : string)
  : nat :=
  (if occurs_here term prev s then 1 else 0)
  + match s with
    | EmptyString => 0
    | String c s' => occurrences_from term (Some c) s'
    end.

Definition whole_word_occurrences (term content : string) : nat :=
  occurrences_from term None content.

(** [ranked] is a ranking of the terms of [terms] by a count [occ]: the
    terms with a positive count, by descending count, terms of equal count
    in the order of [terms]. *)
Definition ranking (occ : string -> nat) (terms ranked : list string)
  : Prop :=
  Permutation ranked (filter (fun t => (0 <? occ t)%nat) terms)
  /\ StronglySorted (fun a b => occ b <= occ a) ranked
  /\ forall n : nat,
       filter (fun t => (occ t =? n)%nat) ranked
       = filter (fun t => (occ t =? n)%nat)
                (filter (fun t => (0 <? occ t)%nat) terms).

(** The two keys [extract] emits for a ranked list: both present, with the
    top term and the whole list, when the list is not empty; both missing
    otherwise. *)
Definition emitted (top_key all_key : string) (ranked : list string)
                   (metadata : dict Value) : Prop :=
  match ranked with
  | [] => get metadata top_key = None /\ get metadata all_key = None
  | t :: _ =>
      get metadata top_key = Some (VStr t)
      /\ get metadata all_key = Some (VList (map VStr ranked))
  end.

(** A term that begins and ends with a word character and that no proper
    shift of itself overlaps: every term of the two reference lists is of
    this kind. *)
Definition plain_term (term : string) : bool :=
  Metadata.word_at term
  && Metadata.word_before (Metadata.last_char None term)
  && forallb (fun j => negb (startswith (drop j term) term))
             (seq 1 (String.length term - 1)).

(** ** The chunker *)

(** [emitted] carries an excerpt of the answer: a non-empty piece of text
    of at most 200 characters that starts with the answer marker, followed
    by the ellipsis. *)
Definition carries_answer_excerpt (emitted : string) : Prop :=
  exists before excerpt after : string,
    emitted = before ++ excerpt ++ "..." ++ after
    /\ startswith "A: " excerpt = true
    /\ String.length excerpt <= 200.

(** What the repair does to a chunk [chunk_text] of a document whose text
    is [full_text]: with [question] the chunk from its first question
    marker on, and the answer marker looked for in [full_text] from the
    first occurrence of [question] on, either there is no such marker and
    the chunk is emitted as it is, or the chunk becomes [question], a line
    feed, the text that starts at the marker cut to 200 characters, and
    the ellipsis. *)
Definition repaired (full_text chunk_text emitted : string) : Prop :=
  let question := slice_from chunk_text (find chunk_text "Q: " 0) in
  let answer_start := find full_text "A: " (find full_text question 0) in
  startswith "Q: " question = true
  /\ ((answer_start = (-1)%Z /\ emitted = chunk_text)
      \/ ((0 <= answer_start)%Z
          /\ exists excerpt : string,
               emitted = question ++ nl ++ excerpt ++ "..."
               /\ excerpt = take 200 (drop (Z.to_nat answer_start) full_text)
               /\ startswith "A: " excerpt = true
               /\ 3 <= String.length excerpt <= 200)).

(** The value stored under an integer metadata key. *)
Definition int_at (metadata : dict Value) (k : string) : option Z :=
  match get metadata k with
  | Some (VInt z) => Some z
  | _ => None
  end.

(** ** The vector index *)







(** An exception that a call to the Qdrant client raises. *)
Definition client_raises {W} (C : Effects.Collaborators W) (e : Effects.exn)
  : Prop :=
  (exists w, fst (Effects.get_collections C w) = inl e)
  \/ (exists n w, fst (Effects.delete_collection C n w) = inl e)
  \/ (exists n vc oc w,
        fst (Effects.create_collection_call C n vc oc w) = inl e)
  \/ (exists n f sc w, fst (Effects.create_payload_index C n f sc w) = inl e)
  \/ (exists sp w, fst (Effects.search C sp w) = inl e).

(** An exception that the library raises while the filter is built from
    [filter_params]: [MatchValue] refuses one of its values. *)
Definition filter_raises {W} (C : Effects.Collaborators W)
           (filter_params : option (dict Value)) (e : Effects.exn) : Prop :=
  exists (k : string) (v : Value) (items : dict Value),
    filter_params = Some items
    /\ In (k, v) items
    /\ Effects.MatchValue C v = inl e.

(** The filter that goes to the client for [filter_params]: none without
    entries, and otherwise one condition per entry, in order, under the
    entry's key, on the value [MatchValue] holds for the entry's value. *)
Definition filter_for {W} (C : Effects.Collaborators W)
           (filter_params : option (dict Value))
           (query_filter : option Qdrant.Filter) : Prop :=
  match filter_params with
  | None | Some [] => query_filter = None
  | Some items =>
      exists conditions,
        query_filter = Some (Qdrant.mkFilter conditions)
        /\ map Qdrant.key conditions = map fst items
        /\ map (fun c => inr (Qdrant.match_value c)) conditions
           = map (fun kv => Effects.MatchValue C (snd kv)) items
  end.


(** ** The orchestrator *)

(** The calls that belong to answer generation. *)
Definition is_llm_event (ev : Effects.Event) : bool :=
  match ev with
  | Effects.EvBuildChain _ | Effects.EvRunChain _ _ _ => true
  | _ => false
  end.

(** The log of [p'] is the log of [p] followed by events that are all
    [allowed]. *)
Definition extends {W} (allowed : Effects.Event -> bool)
           (p p' : Effects.Process W) : Prop :=
  exists evs, Effects.log p' = (Effects.log p ++ evs)%list
              /\ Forall (fun ev => allowed ev = true) evs.

(** [m] raises nothing but what the client raises. *)
Definition client_only {W A} (C : Effects.Collaborators W)
           (m : Effects.M W A) : Prop :=
  forall p e p', m p = (inl e, p') -> client_raises C e.

(** A creation event, if [ev] is one, is for [name], with vectors of size
    [vector_size] under the cosine distance. *)
Definition creates_as (name : string) (vector_size : Z) (ev : Effects.Event)
  : bool :=
  match ev with
  | Effects.EvCreateCollection n vc _ =>
      String.eqb n name && (Qdrant.size vc =? vector_size)%Z
      && match Qdrant.distance vc with Qdrant.COSINE => true | _ => false end
  | _ => true
  end.

(** Answer generation yields no answer from the state [p2]: there is no
    chain, or the chain's [run] raises an exception that is an instance of
    [Exception] and leaves the state [p3]. *)
Definition answer_generation_fails {W} (C : Effects.Collaborators W)
           (chain : option Query.LLMChain) (context query : string)
           (p2 p3 : Effects.Process W) : Prop :=
  match chain with
  | None => p3 = p2
  | Some ch =>
      exists e,
        Effects.is_Exception e = true
        /\ Effects.call
          (Effects.EvRunChain (Query.technical_prompt ch) context query)
          (Effects.run_chain C (Query.technical_prompt ch) context query) p2
        = (inl e, p3)
  end.

(** The entry [query_qdrant] builds from a hit. *)
Definition context_of (result : Collection.SearchResult) : Query.Context :=
  Query.mkContext (get_default (Collection.r_payload result) "text" VNone)
                  (get_default (Collection.r_payload result) "source"
                               (VStr ""))
                  (get_default (Collection.r_payload result) "product"
                               (VStr ""))
                  (Collection.r_score result) (Collection.r_id result).

Definition has_text (result : Collection.SearchResult) : bool :=
  has_key (Collection.r_payload result) "text".

Definition no_llm (ev : Effects.Event) : bool := negb (is_llm_event ev).

(** The calls to the client's [search]. *)
Definition is_search_event (ev : Effects.Event) : bool :=
  match ev with
  | Effects.EvSearch _ => true
  | _ => false
  end.

End Stated.

(* ================================================================== *)
(** * Test doubles for the collaborators *)
(* ================================================================== *)

Module Doubles.
Import Py Qdrant Effects.

(** The state of the doubles: the collections of the store, the ranked
    matches the index holds for the query (or the failure of the search),
    and what the language model does. *)
Record Stub : Type := mkStub {
  stub_collections : list string;
  stub_matches : outcome (list ScoredPoint);
  stub_answer : outcome string
}.

(** A search that applies the request's threshold and limit to the stored
    matches and keeps their order. *)
Definition stub_search (sp : SearchParams) (w : Stub)
  : outcome (list ScoredPoint) * Stub :=
  match stub_matches w with
  | inl e => (inl e, w)
  | inr points =>
      let kept :=
        match sp_score_threshold sp with
        | Some t => filter (fun p => PrimFloat.leb t (score p)) points
        | None => points
        end in
      (inr (firstn (Z.to_nat (sp_limit sp)) kept), w)
  end.

(** A [MatchValue] that holds a boolean, an integer or a string, and
    refuses anything else. *)
Definition strict_match (v : Value) : outcome Value :=
  match v with
  | VBool _ | VInt _ | VStr _ => inr v
  | _ => inl (Raise "ValidationError" "1 validation error for MatchValue")
  end.

Definition stub : Collaborators Stub :=
  mkCollaborators
    strict_match
    (fun _ w => (inr [0.1%float; 0.2%float; 0.3%float], w))
    (fun w => (inr (stub_collections w), w))
    (fun name w =>
       (inr tt,
        mkStub (filter (fun n => negb (String.eqb n name))
                       (stub_collections w))
               (stub_matches w) (stub_answer w)))
    (fun name _ _ w =>
       (inr tt,
        mkStub (stub_collections w ++ [name])%list
               (stub_matches w) (stub_answer w)))
    (fun _ _ _ w => (inr tt, w))
    stub_search
    (fun _ w => (inr tt, w))
    (fun _ _ _ w => (stub_answer w, w)).

Definition stub_formatter : Formatter :=
  mkFormatter (fun _ => "?") (fun _ => "0.00").

Definition stub_config : Config :=
  mkConfig "cyanview_docs" "openai" "sk-test".

(** The default configuration of [config.py]: no API key. *)
Definition default_config : Config :=
  mkConfig "cyanview_docs" "openai" "".

Definition start (w : Stub) : Process Stub := mkProcess w false [].

Definition text_payload (text source : string) : dict Value :=
  [("text", VStr text); ("source", VStr source)].

(** A splitter double that returns the pieces it is given, whatever the
    text. *)
Definition pieces_splitter (pieces : list string)
  : Z -> Z -> list string -> string -> list string :=
  fun _ _ _ _ => pieces.

(** A text shorter than [chunk_size] comes back as one piece. *)
Definition whole_splitter : Z -> Z -> list string -> string -> list string :=
  fun _ _ _ text => [text].

Definition qa_document (text : string) : TextSplitter.Document :=
  TextSplitter.mkDocument text [("source", VStr "faq.json");
                                ("type", VStr "qa")].

Definition point (i : Z) (s : float) (text : string) : ScoredPoint :=
  mkScoredPoint i s (text_payload text "manual.pdf").

(** The index of the specification's example: matches at 0.95, 0.72 and
    0.65. *)
Definition three_matches : list ScoredPoint :=
  [ point 0 0.95%float "a"; point 1 0.72%float "b";
    point 2 0.65%float "c" ].

Definition five_matches : list ScoredPoint :=
  [ point 3 0.99%float "a"; point 0 0.95%float "b";
    point 4 0.9%float "c"; point 1 0.85%float "d";
    point 2 0.8%float "e" ].


Definition index_of (matches : list ScoredPoint) : Stub :=
  mkStub ["cyanview_docs"] (inr matches) (inr "An answer.").

Definition query_vector : list float := [0.1%float; 0.2%float; 0.3%float].

(** An index whose search fails. *)
Definition unreachable_index : Stub :=
  mkStub ["cyanview_docs"]
         (inl (Raise "ResponseHandlingException" "connection refused"))
         (inr "An answer.").

(** A language model whose call fails. *)
Definition failing_llm (matches : list ScoredPoint) : Stub :=
  mkStub ["cyanview_docs"] (inr matches)
         (inl (Raise "RateLimitError" "quota exceeded")).

(** A language model whose call is interrupted from the keyboard. *)
Definition interrupted_llm (matches : list ScoredPoint) : Stub :=
  mkStub ["cyanview_docs"] (inr matches)
         (inl (RaiseBase "KeyboardInterrupt" "")).

(** A hit whose payload has no ["text"]. *)
Definition bare_point (i : Z) (s : float) : ScoredPoint :=
  mkScoredPoint i s [("source", VStr "legacy.pdf")].

Definition mixed_matches : list ScoredPoint :=
  [ point 0 0.95%float "a"; bare_point 7 0.9%float;
    point 1 0.72%float "b" ].

Definition bare_matches : list ScoredPoint :=
  [ bare_point 7 0.9%float; bare_point 8 0.8%float ].

Definition question : string := "What is the RCP?".

End Doubles.

(* ================================================================== *)
(** * Facts about the runtime functions *)
(* ================================================================== *)

(* ================================================================== *)
(** * Python runtime: loops, ranges and list slices *)
(* ================================================================== *)

Module PyMore.
Import Py Effects.

(** [s.endswith(suffix)]. *)
Definition endswith (suffix s : string) : bool :=
  let n := String.length s in
  let m := String.length suffix in
  (m <=? n)%nat && String.eqb (drop (n - m) s) suffix.

(** The values [i], [i + step], ... below [stop], for [0 < step]; at most
    [fuel] of them. *)
Fixpoint range_up (fuel i stop step : nat) : list nat :=
  match fuel with
  | O => []
  | S fuel' =>
      if (i <? stop)%nat then i :: range_up fuel' (i + step) stop step
      else []
  end.

(** [range(0, stop, step)] for [0 <= stop]: a zero step is an error, a
    negative step gives the empty range.  With a positive step the range
    has at most [stop] elements. *)
Definition range0 (stop : nat) (step : Z) : outcome (list nat) :=
  if (step =? 0)%Z
  then inl (Raise "ValueError" "range() arg 3 must not be zero")
  else if (step <? 0)%Z then inr []
       else inr (range_up stop 0 stop (Z.to_nat step)).

(** [xs[a:b]] on a list. *)
Definition list_slice {A} (xs : list A) (a b : Z) : list A :=
  let n := Z.of_nat (List.length xs) in
  let lo := clamp n a in
  let hi := clamp n b in
  firstn (Z.to_nat (hi - lo)) (skipn (Z.to_nat lo) xs).

(** [for i in range(0, len(xs), batch_size): batch = xs[i:i+batch_size]]:
    the batches the loop goes through. *)
Definition batches_of {A} (xs : list A) (batch_size : Z)
  : outcome (list (list A)) :=
  match range0 (List.length xs) batch_size with
  | inl e => inl e
  | inr starts =>
      inr (map (fun i => list_slice xs (Z.of_nat i)
                                    (Z.of_nat i + batch_size)) starts)
  end.

(** [d.update(other)]. *)
Definition update {V} (d other : dict V) : dict V :=
  fold_left (fun acc kv => set acc (fst kv) (snd kv)) other d.

(** A call to a collaborator off the query path; it is not logged. *)
Definition perform {W A} (op : W -> outcome A * W) : M W A :=
  fun p =>
    let (r, w') := op (world p) in
    (r, mkProcess w' (manager_instance p) (log p)).

(** [for x in xs: body(x)]. *)
Fixpoint for_each {W A} (xs : list A) (body : A -> M W unit) : M W unit :=
  match xs with
  | [] => ret tt
  | x :: rest => bind (body x) (fun _ => for_each rest body)
  end.

End PyMore.

(* ================================================================== *)
(** * src/qdrant/collection.py: store_embeddings *)
(* ================================================================== *)

Module Store.
Import Py PyMore Qdrant Effects Collection.
Local Open Scope py_scope.

(** [qdrant_client.http.models.PointStruct]. *)
Record PointStruct : Type := mkPointStruct {
  point_id : Z;
  point_vector : list float;
  point_payload : dict Value
}.

(** The two calls of the write path: [client.upsert] and
    [client.get_collection], which returns the collection's status. *)
Record StoreClient (W : Type) : Type := mkStoreClient {
  upsert : string -> list PointStruct -> W -> outcome unit * W;
  get_collection : string -> W -> outcome string * W
}.

(** [for i, (vector, payload) in enumerate(zip(vectors, payloads))], from
    index [i] on. *)
Fixpoint points_from (i : nat) (pairs : list (list float * dict Value))
  : list PointStruct :=
  match pairs with
  | [] => []
  | (vector, payload) :: rest =>
      mkPointStruct (Z.of_nat i) vector payload :: points_from (S i) rest
  end.

Definition points_of (vectors : list (list float))
                     (payloads : list (dict Value)) : list PointStruct :=
  points_from 0 (combine vectors payloads).

Section WithCollaborators.
Variable W : Type.
Variable C : Collaborators W.
Variable S : StoreClient W.
Variable cfg : Config.

(** The upload loop over the batches. *)
Definition upload (collection_name : string)
                  (batches : list (list PointStruct)) : M W unit :=
  for_each batches (fun batch => perform (upsert S collection_name batch)).

Definition store_embeddings (vectors : list (list float))
                            (payloads : list (dict Value))
                            (collection_name : option string)
                            (batch_size : Z) : M W unit :=
  get_qdrant_client C ;;;
  let collection_name := or_default cfg collection_name in
  let points := points_of vectors payloads in
  batches <- lift (batches_of points batch_size) ;;
  upload collection_name batches ;;;
  collection_info <- perform (get_collection S collection_name) ;;
  ret tt.

End WithCollaborators.

End Store.

(* ================================================================== *)
(** * src/embeddings/embedder.py *)
(* ================================================================== *)

Module Embedder.
Import Py PyMore Effects.
Local Open Scope py_scope.

(** The sentence-transformers model behind [DocumentEmbedder]: building
    it ([SentenceTransformer(name)], moved to the device) gives the
    embedding dimension, and [model.encode(texts).tolist()] gives one
    list of numbers per call. *)
Record Model (W : Type) : Type := mkModel {
  new_model : W -> outcome Z * W;
  encode : list string -> W -> outcome (list (list float)) * W
}.

Section WithModel.
Variable W : Type.
Variable E : Model W.

(** [DocumentEmbedder()]: the embedder is identified by its
    [embedding_dim]. *)
Definition DocumentEmbedder : M W Z := perform (new_model E).

(** The loop of [embed_documents], with the embeddings so far. *)
Fixpoint encode_batches (batches : list (list string))
                        (embeddings : list (list float))
  : M W (list (list float)) :=
  match batches with
  | [] => ret embeddings
  | batch_texts :: rest =>
      batch_embeddings <- perform (encode E batch_texts) ;;
      encode_batches rest (embeddings ++ batch_embeddings)%list
  end.

Definition embed_documents (documents : list string) (batch_size : Z)
  : M W (list (list float)) :=
  batches <- lift (batches_of documents batch_size) ;;
  encode_batches batches [].

End WithModel.

End Embedder.

(* ================================================================== *)
(** * src/data/document_loader.py *)
(* ================================================================== *)

Module DocumentLoader.
Import Py PyMore Effects TextSplitter Metadata.
Local Open Scope py_scope.

(** The loaders [load_documents] chooses from: four langchain loaders, and
    [load_json_qa], which reads and parses a JSON file of questions and
    answers and is taken here as one more loader. *)
Inductive Loader : Type :=
| PyPDFLoader
| Docx2txtLoader
| TextLoader
| UnstructuredMarkdownLoader
| load_json_qa.

(** The generator [os.walk] returns, as it is each time the [for]
    statement resumes it: it is exhausted, it raises, or it yields a
    directory with its files and waits to be resumed.  [w] is the state
    in which the step leaves the collaborators; [resume] takes the state
    in which the generator is resumed. *)
Inductive Walk (W : Type) : Type :=
| WalkEnd (w : W)
| WalkRaise (e : exn) (w : W)
| WalkYield (root : string) (files : list string) (w : W)
            (resume : W -> Walk W).

(** The file system and the loaders: [os.walk] (the first step of the
    generator), [os.path.join], and the load of one file by one
    loader. *)
Record Files (W : Type) : Type := mkFiles {
  walk : string -> W -> Walk W;
  join : string -> string -> string;
  load : Loader -> string -> W -> outcome (list Document) * W
}.

(** The chain of [filename.endswith(...)] tests; [None] is the final
    [else: continue]. *)
Definition loader_for (filename : string) : option Loader :=
  if endswith ".pdf" filename then Some PyPDFLoader
  else if endswith ".docx" filename then Some Docx2txtLoader
  else if endswith ".txt" filename then Some TextLoader
  else if endswith ".md" filename then Some UnstructuredMarkdownLoader
  else if endswith ".json" filename then Some load_json_qa
  else None.

(** The body of [for doc in docs]. *)
Definition add_metadata (filepath : string) (doc : Document) : Document :=
  let metadata :=
    if has_key (metadata doc) "source" then metadata doc
    else set (metadata doc) "source" (VStr filepath) in
  let additional_metadata :=
    extract_metadata_from_content (page_content doc) in
  mkDocument (page_content doc) (update metadata additional_metadata).

Section WithFiles.
Variable W : Type.
Variable FS : Files W.

(** The body of [for filename in files]: the documents the file adds. *)
Definition load_file (root filename : string) : M W (list Document) :=
  let filepath := join FS root filename in
  match loader_for filename with
  | None => ret []
  | Some loader =>
      try_except
        (docs <- perform (load FS loader filepath) ;;
         ret (map (add_metadata filepath) docs))
        (fun _ => ret [])
  end.

Fixpoint load_files (root : string) (files : list string)
  : M W (list Document) :=
  match files with
  | [] => ret []
  | filename :: rest =>
      docs <- load_file root filename ;;
      more <- load_files root rest ;;
      ret (docs ++ more)%list
  end.

(** The state of the process once the collaborators are in state [w]. *)
Definition at_world (p : Process W) (w : W) : Process W :=
  mkProcess w (manager_instance p) (log p).

(** [for root, _, files in os.walk(directory_path)], from the step [g] of
    the generator on: the generator is resumed once the files of the
    directory it yielded have been gone through. *)
Fixpoint load_walk (g : Walk W) : M W (list Document) :=
  match g with
  | WalkEnd w => fun p => (inr [], at_world p w)
  | WalkRaise e w => fun p => (inl e, at_world p w)
  | WalkYield root files w resume =>
      fun p =>
        match load_files root files (at_world p w) with
        | (inl e, p') => (inl e, p')
        | (inr docs, p') =>
            match load_walk (resume (world p')) p' with
            | (inl e, p'') => (inl e, p'')
            | (inr more, p'') => (inr (docs ++ more)%list, p'')
            end
        end
  end.

Definition load_documents (directory_path : string) : M W (list Document) :=
  fun p => load_walk (walk FS directory_path (world p)) p.

End WithFiles.

End DocumentLoader.

(* ================================================================== *)
(** * scripts/ingest.py *)
(* ================================================================== *)

Module Ingest.
Import Py PyMore Qdrant Effects TextSplitter Collection Store Embedder
       DocumentLoader.
Local Open Scope py_scope.

(** [config.py]: the chunking settings. *)
Record ChunkConfig : Type := mkChunkConfig {
  CHUNK_SIZE : Z;
  CHUNK_OVERLAP : Z
}.

(** The dictionary literal of step 6. *)
Definition base_payload (i : nat) (chunk : Document) : dict Value :=
  [ ("text", VStr (page_content chunk));
    ("source", get_default (metadata chunk) "source"
                           (VStr ("chunk_" ++ str_of_nat i)));
    ("chunk", get_default (metadata chunk) "chunk" (VInt 0));
    ("chunk_total", get_default (metadata chunk) "chunk_total" (VInt 1)) ].

(** [for key, value in chunk.metadata.items()]. *)
Definition add_items (items payload : dict Value) : dict Value :=
  fold_left
    (fun payload kv =>
       if negb (has_key payload (fst kv))
          && negb (String.eqb (fst kv) "page_content")
       then set payload (fst kv) (snd kv)
       else payload)
    items payload.

Definition build_payload (i : nat) (chunk : Document) : dict Value :=
  add_items (metadata chunk) (base_payload i chunk).

(** [for i, chunk in enumerate(chunks)], from index [i] on. *)
Fixpoint payloads_from (i : nat) (chunks : list Document)
  : list (dict Value) :=
  match chunks with
  | [] => []
  | chunk :: rest => build_payload i chunk :: payloads_from (S i) rest
  end.

Section WithCollaborators.
Variable W : Type.
Variable C : Collaborators W.
Variable S : StoreClient W.
Variable E : Model W.
Variable FS : Files W.
Variable RecursiveCharacterTextSplitter :
  Z -> Z -> list string -> string -> list string.
Variable cfg : Config.
Variable chunking : ChunkConfig.

Definition process_documents (docs_dir : string) (recreate : bool)
  : M W unit :=
  documents <- load_documents FS docs_dir ;;
  let chunks :=
    split_documents RecursiveCharacterTextSplitter documents
                    (CHUNK_SIZE chunking) (CHUNK_OVERLAP chunking) in
  embedding_dim <- DocumentEmbedder E ;;
  create_collection C cfg embedding_dim None recreate ;;;
  let texts := map page_content chunks in
  embeddings <- embed_documents E texts 32 ;;
  let payloads := payloads_from 0 chunks in
  store_embeddings C S cfg embeddings payloads None 100.

End WithCollaborators.

End Ingest.

(* ================================================================== *)
(** * api/routes.py *)
(* ================================================================== *)

Module Routes.
Import Py Effects Query.

(** [QueryRequest], with [top_k] an integer. *)
Record QueryRequest : Type := mkQueryRequest {
  rq_query : string;
  rq_top_k : Z;
  rq_filter_params : option (dict string);
  rq_score_threshold : option float;
  rq_is_technical : option bool
}.

(** [fastapi.HTTPException]. *)
Record HTTPException : Type := mkHTTPException {
  status_code : Z;
  detail : string
}.

(** [str(e)]. *)
Definition message (e : exn) : string :=
  match e with Raise _ msg | RaiseBase _ msg => msg end.

(** What leaves the handler when it does not return: the [HTTPException]
    it raises, or an exception that it does not catch. *)
Inductive Raised : Type :=
| RaisedHTTP (h : HTTPException)
| Uncaught (e : exn).

Section WithCollaborators.
Variable W : Type.
Variable C : Collaborators W.
Variable F : Formatter.
Variable cfg : Config.

(** The handler of [POST /query]: what it returns, or what it raises.
    [except Exception] turns an instance of [Exception] into an
    [HTTPException] and lets any other exception through. *)
Definition query (request : QueryRequest)
  : Process W -> (Raised + Response) * Process W :=
  fun p =>
    match
      rag_query C F cfg (rq_query request) (rq_top_k request)
        (option_map (map (fun kv => (fst kv, VStr (snd kv))))
                    (rq_filter_params request))
        (rq_score_threshold request)
        (match rq_is_technical request with
         | Some b => b
         | None => false
         end) p
    with
    | (inr result, p') => (inr result, p')
    | (inl e, p') =>
        if is_Exception e
        then (inl (RaisedHTTP
                     (mkHTTPException 500
                        ("Error processing query: " ++ message e))), p')
        else (inl (Uncaught e), p')
    end.

End WithCollaborators.

End Routes.

(* ================================================================== *)
(** * Test doubles for the write path *)
(* ================================================================== *)

Module Plant.
Import Py PyMore Qdrant Effects TextSplitter Store Embedder DocumentLoader
       Doubles.

(** The state of the doubles of the write path: the doubles of the query
    path, the batches uploaded so far (oldest first), the number of points
    the store accepts in all, and whether the model is out of order. *)
Record Site : Type := mkSite {
  site_stub : Stub;
  site_uploads : list (string * list PointStruct);
  site_capacity : nat;
  site_model_down : bool
}.

Definition stored (w : Site) : nat :=
  List.length (flat_map snd (site_uploads w)).

(** The doubles of the query path, acting on their part of the state. *)
Definition on_stub {A} (op : Stub -> outcome A * Stub) (w : Site)
  : outcome A * Site :=
  let (r, s) := op (site_stub w) in
  (r, mkSite s (site_uploads w) (site_capacity w) (site_model_down w)).

Definition site : Collaborators Site :=
  mkCollaborators
    (MatchValue stub)
    (fun text => on_stub (embed_query stub text))
    (on_stub (get_collections stub))
    (fun name => on_stub (delete_collection stub name))
    (fun name vc oc => on_stub (create_collection_call stub name vc oc))
    (fun name field sc => on_stub (create_payload_index stub name field sc))
    (fun sp => on_stub (search stub sp))
    (fun t => on_stub (build_chain stub t))
    (fun t c q => on_stub (run_chain stub t c q)).

(** A store that records the batches it accepts and refuses a batch that
    would take it over its capacity. *)
Definition site_store : StoreClient Site :=
  mkStoreClient
    (fun name batch w =>
       if (stored w + List.length batch <=? site_capacity w)%nat
       then (inr tt,
             mkSite (site_stub w) (site_uploads w ++ [(name, batch)])%list
                    (site_capacity w) (site_model_down w))
       else (inl (Raise "UnexpectedResponse" "storage full"), w))
    (fun _ w => (inr "green", w)).

(** A model of dimension 3 that tells short texts from long ones. *)
Definition embedding (text : string) : list float :=
  [if (String.length text <=? 20)%nat then 0.25%float else 0.75%float;
   0%float; 1%float].

(** A model that loads, and whose [encode] fails when it is down. *)
Definition site_model : Model Site :=
  mkModel
    (fun w => (inr 3%Z, w))
    (fun texts w =>
       if site_model_down w
       then (inl (Raise "RuntimeError" "out of memory"), w)
       else (inr (map embedding texts), w)).

(** A model that never fails. *)
Definition steady_model : Model Site :=
  mkModel (fun w => (inr 3%Z, w))
          (fun texts w => (inr (map embedding texts), w)).

(** A directory with a text file, a file no loader reads, a PDF that
    cannot be parsed and a JSON file of one question; a path with a NUL
    character cannot be walked. *)
Definition site_files : Files Site :=
  mkFiles
    (fun path w =>
       if contains (String (ascii_of_nat 0) "") path
       then WalkRaise (Raise "ValueError" "embedded null byte") w
       else WalkYield "docs"
                      ["guide.txt"; "logo.png"; "broken.pdf"; "faq.json"]
                      w (fun w' => WalkEnd w'))
    (fun root filename => root ++ "/" ++ filename)
    (fun loader filepath w =>
       match loader with
       | TextLoader =>
           (inr [mkDocument "The RCP controls the RIO." []], w)
       | load_json_qa =>
           (inr [mkDocument ("Q: What is the RCP?" ++ nl
                             ++ "A: The RCP is a Remote Control Panel.")
                            [("source", VStr filepath);
                             ("type", VStr "qa");
                             ("index", VInt 0);
                             ("product", VStr "Panel")]], w)
       | _ => (inl (Raise "PdfReadError" "EOF marker not found"), w)
       end).

(** The same files, with a user at the keyboard who interrupts the load
    of the PDF. *)
Definition interrupted_files : Files Site :=
  mkFiles
    (walk site_files) (join site_files)
    (fun loader filepath w =>
       match loader with
       | PyPDFLoader => (inl (RaiseBase "KeyboardInterrupt" ""), w)
       | _ => load site_files loader filepath w
       end).

Definition new_site (capacity : nat) (model_down : bool) : Site :=
  mkSite (index_of []) [] capacity model_down.

Definition vectors3 : list (list float) :=
  [[1%float]; [2%float]; [3%float]].

Definition payloads3 : list (dict Value) :=
  [text_payload "a" "a.txt"; text_payload "b" "b.txt";
   text_payload "c" "c.txt"].

(** The doubles of the query path with a language model that cannot be
    built. *)
Definition no_chain : Collaborators Stub :=
  mkCollaborators
    (MatchValue stub)
    (embed_query stub) (get_collections stub) (delete_collection stub)
    (create_collection_call stub) (create_payload_index stub) (search stub)
    (fun _ w => (inl (Raise "ImportError" "openai is not installed"), w))
    (run_chain stub).

(** A hit whose source is a number. *)
Definition numbered_source : ScoredPoint :=
  mkScoredPoint 5 0.9%float [("text", VStr "a"); ("source", VInt 7)].

(** The results of the repository's test of [format_context], with a
    path for the first source. *)
Definition test_results : list Query.Context :=
  [ Query.mkContext (VStr "The RCP is Cyanview's Remote Control Panel.")
                    (VStr "docs/doc1.txt") (VStr "RCP") 0.95%float 1;
    Query.mkContext
      (VStr "The RIO enables remote production over the internet.")
      (VStr "doc2.txt") (VStr "RIO") 0.85%float 2 ].

Definition plain_request : Routes.QueryRequest :=
  Routes.mkQueryRequest question 5 None (Some 0.7%float) None.

Definition default_chunking : Ingest.ChunkConfig :=
  Ingest.mkChunkConfig 1000 200.

End Plant.

(* ================================================================== *)
(** * Notions used to state what the code does *)
(* ================================================================== *)

Module Notions.
Import Py.




(** A source [format_context] can label: one that counts as false (the
    label is then the position of the result) or a string (the label is
    then its last path component). *)
Definition labelled (source : Value) : bool :=
  negb (truthy source)
  || match source with VStr _ => true | _ => false end.

(** Every character of [s] is white space. *)
Fixpoint all_space (s : string) : bool :=
  match s with
  | EmptyString => true
  | String c s' => is_space c && all_space s'
  end.

End Notions.

Unset Implicit Arguments.

Module PyFacts.
Import Py.

Lemma startswith_refl (s r : string) : startswith s (s ++ r) = true.
Proof.
  induction s as [|c s IH]; simpl; [reflexivity|].
  now rewrite Ascii.eqb_refl.
Qed.

Lemma startswith_split (t s : string) :
  startswith t s = true -> s = t ++ drop (String.length t) s.
Proof.
  revert s; induction t as [|a t IH]; intros s H; simpl in *.
  - reflexivity.
  - destruct s as [|b s]; [discriminate|].
    apply andb_prop in H as [Hab Hts].
    apply Ascii.eqb_eq in Hab; subst b.
    simpl. f_equal. now apply IH.
Qed.

(** A word that starts [x ++ r] and is at least as long as [x] starts
    with [x]. *)
Lemma startswith_app_inv (t x r : string) :
  startswith t (x ++ r) = true -> String.length x <= String.length t ->
  startswith x t = true.
Proof.
  revert t; induction x as [|c x IH]; intros t H Hlen; simpl in *.
  - reflexivity.
  - destruct t as [|a t]; simpl in *; [lia|].
    apply andb_prop in H as [Hac Hrest].
    apply Ascii.eqb_eq in Hac; subst a.
    rewrite Ascii.eqb_refl; simpl.
    apply IH; [assumption | lia].
Qed.

Lemma drop_app (j : nat) (t r : string) :
  j <= String.length t -> drop j (t ++ r) = drop j t ++ r.
Proof.
  revert t; induction j as [|j IH]; intros t H; simpl.
  - reflexivity.
  - destruct t as [|a t]; simpl in *; [lia|].
    apply IH; lia.
Qed.

Lemma length_drop (j : nat) (t : string) :
  String.length (drop j t) = String.length t - j.
Proof.
  revert t; induction j as [|j IH]; intros t; simpl.
  - lia.
  - destruct t as [|a t]; simpl; [reflexivity | apply IH].
Qed.

Lemma drop_S (j : nat) (c : ascii) (s : string) :
  drop (S j) (String c s) = drop j s.
Proof. reflexivity. Qed.

Lemma drop_drop (j k : nat) (s : string) :
  drop k (drop j s) = drop (j + k) s.
Proof.
  revert s; induction j as [|j IH]; intros s; simpl; [reflexivity|].
  destruct s as [|c s]; [now destruct k | apply IH].
Qed.

Lemma take_all (m : nat) (s : string) :
  String.length s <= m -> take m s = s.
Proof.
  revert s; induction m as [|m IH]; intros s H.
  - destruct s; simpl in *; [reflexivity | lia].
  - destruct s as [|c s]; simpl in *; [reflexivity|].
    f_equal. apply IH. lia.
Qed.

Lemma take_min (m : nat) (s : string) :
  take (Nat.min m (String.length s)) s = take m s.
Proof.
  revert s; induction m as [|m IH]; intros s; [reflexivity|].
  destruct s as [|c s]; [reflexivity|].
  cbn [String.length Nat.min take]. f_equal. apply IH.
Qed.

Lemma length_take (m : nat) (s : string) :
  String.length (take m s) = Nat.min m (String.length s).
Proof.
  revert s; induction m as [|m IH]; intros s; [reflexivity|].
  destruct s as [|c s]; [reflexivity|].
  cbn [String.length Nat.min take]. f_equal. apply IH.
Qed.

Lemma startswith_length (p s : string) :
  startswith p s = true -> String.length p <= String.length s.
Proof.
  revert s; induction p as [|a p IH]; intros s H; simpl in *; [lia|].
  destruct s as [|b s]; [discriminate|].
  apply andb_prop in H as [_ H]. apply IH in H. simpl. lia.
Qed.

Lemma startswith_take (p s : string) (m : nat) :
  startswith p s = true -> String.length p <= m ->
  startswith p (take m s) = true.
Proof.
  revert s m; induction p as [|a p IH]; intros s m H Hm; [reflexivity|].
  destruct s as [|b s]; [discriminate|].
  destruct m as [|m]; simpl in *; [lia|].
  apply andb_prop in H as [Hab H]. rewrite Hab. simpl.
  apply IH; [assumption | lia].
Qed.

Lemma startswith_app_l (p s r : string) :
  startswith p s = true -> startswith p (s ++ r) = true.
Proof.
  revert s; induction p as [|a p IH]; intros s H; [reflexivity|].
  destruct s as [|b s]; [discriminate|].
  simpl in *. apply andb_prop in H as [Hab H]. rewrite Hab. simpl.
  now apply IH.
Qed.

(** ** [find] and [in] *)

Lemma find0_some (sub s : string) (k : nat) :
  find0 sub s = Some k ->
  k <= String.length s /\ startswith sub (drop k s) = true.
Proof.
  revert k; induction s as [|c s IH]; intros k; cbn [find0].
  - destruct (startswith sub "") eqn:E; [|discriminate].
    intros [= <-]. split; [lia | exact E].
  - destruct (startswith sub (String c s)) eqn:E.
    + intros [= <-]. split; [lia | exact E].
    + destruct (find0 sub s) as [k'|]; [|discriminate].
      intros [= <-]. destruct (IH k' eq_refl) as [Hle Hs].
      split; [simpl; lia | exact Hs].
Qed.

Lemma contains_app (sub x y : string) :
  startswith sub y = true -> contains sub (x ++ y) = true.
Proof.
  intros Hy. unfold contains.
  induction x as [|c x IH]; cbn [append find0].
  - destruct y; cbn [find0]; rewrite Hy; reflexivity.
  - destruct (startswith sub (String c (x ++ y))); [reflexivity|].
    destruct (find0 sub (x ++ y)); [reflexivity | discriminate].
Qed.

Lemma find_found (s sub : string) (start : Z) :
  find s sub start <> (-1)%Z ->
  (0 <= find s sub start <= Z.of_nat (String.length s))%Z
  /\ startswith sub (drop (Z.to_nat (find s sub start)) s) = true.
Proof.
  unfold find.
  set (n := Z.of_nat (String.length s)).
  set (st := if (start <? 0)%Z then Z.max 0 (n + start) else start).
  assert (Hst : (0 <= st)%Z).
  { unfold st. destruct (start <? 0)%Z eqn:E; [lia|].
    apply Z.ltb_ge in E. exact E. }
  destruct (n <? st)%Z eqn:En; [congruence|].
  apply Z.ltb_ge in En.
  destruct (find0 sub (drop (Z.to_nat st) s)) as [k|] eqn:Ek; [|congruence].
  intros _. apply find0_some in Ek as [Hk Hs].
  rewrite length_drop in Hk. rewrite drop_drop in Hs.
  split; [unfold n in *; lia|].
  replace (Z.to_nat (st + Z.of_nat k)) with (Z.to_nat st + k) by lia.
  exact Hs.
Qed.

Lemma find_of_contains (s sub : string) :
  contains sub s = true -> find s sub 0 <> (-1)%Z.
Proof.
  unfold contains, find. cbn [Z.ltb Z.compare Z.to_nat drop].
  destruct (Z.of_nat (String.length s) <? 0)%Z eqn:E;
    [apply Z.ltb_lt in E; lia|].
  destruct (find0 sub s); [lia | discriminate].
Qed.

Lemma slice_from_drop (s : string) (a : Z) :
  (0 <= a <= Z.of_nat (String.length s))%Z ->
  slice_from s a = drop (Z.to_nat a) s.
Proof.
  intros Ha. unfold slice_from, slice, clamp.
  destruct (a <? 0)%Z eqn:E1; [apply Z.ltb_lt in E1; lia|].
  destruct (Z.of_nat (String.length s) <? 0)%Z eqn:E2;
    [apply Z.ltb_lt in E2; lia|].
  rewrite !Z.min_l by lia.
  apply take_all. rewrite length_drop. lia.
Qed.

Lemma slice_take_200 (s : string) (a : Z) :
  (0 <= a <= Z.of_nat (String.length s))%Z ->
  slice s a (a + Z.min 200 (Z.of_nat (String.length s) - a))
  = take 200 (drop (Z.to_nat a) s).
Proof.
  intros Ha. unfold slice, clamp.
  destruct (a <? 0)%Z eqn:E1; [apply Z.ltb_lt in E1; lia|].
  destruct (a + Z.min 200 (Z.of_nat (String.length s) - a) <? 0)%Z eqn:E2;
    [apply Z.ltb_lt in E2; lia|].
  rewrite (Z.min_l a) by lia.
  rewrite (Z.min_l (a + _)) by lia.
  rewrite <- (take_min 200). f_equal.
  rewrite length_drop. lia.
Qed.

(** ** Dictionaries *)

Lemma get_set_same {V} (d : dict V) (k : string) (v : V) :
  get (set d k v) k = Some v.
Proof.
  induction d as [|[k' v'] d IH]; simpl.
  - now rewrite String.eqb_refl.
  - destruct (String.eqb k' k) eqn:E; simpl; rewrite E; auto.
Qed.

Lemma get_set_other {V} (d : dict V) (k k' : string) (v : V) :
  k <> k' -> get (set d k v) k' = get d k'.
Proof.
  intros Hne.
  induction d as [|[k0 v0] d IH]; simpl.
  - destruct (String.eqb k k') eqn:E; [apply String.eqb_eq in E; easy | easy].
  - destruct (String.eqb k0 k) eqn:E; simpl.
    + apply String.eqb_eq in E; subst k0.
      destruct (String.eqb k k') eqn:E'; [apply String.eqb_eq in E'; easy | easy].
    + destruct (String.eqb k0 k'); auto.
Qed.

(** ** The stable descending sort *)

Section SortFacts.
Variable A : Type.
Variable key : A -> nat.

Lemma insert_desc_perm (x : A) (l : list A) :
  Permutation (insert_desc key x l) (x :: l).
Proof.
  induction l as [|y l IH]; simpl.
  - apply Permutation_refl.
  - destruct (key y <=? key x)%nat.
    + apply Permutation_refl.
    + eapply Permutation_trans; [apply perm_skip, IH | apply perm_swap].
Qed.

Lemma sort_desc_perm (l : list A) : Permutation (sort_desc key l) l.
Proof.
  induction l as [|x l IH]; simpl.
  - apply Permutation_refl.
  - eapply Permutation_trans; [apply insert_desc_perm | now apply perm_skip].
Qed.

Lemma insert_desc_sorted (x : A) (l : list A) :
  StronglySorted (fun a b => key b <= key a) l ->
  StronglySorted (fun a b => key b <= key a) (insert_desc key x l).
Proof.
  induction 1 as [|y l Hs IH Hall]; simpl.
  - constructor; [constructor | constructor].
  - destruct (key y <=? key x)%nat eqn:E.
    + apply Nat.leb_le in E.
      constructor; [now constructor|].
      constructor; [assumption|].
      eapply Forall_impl; [|exact Hall]. simpl; intros; lia.
    + apply Nat.leb_gt in E.
      constructor; [assumption|].
      eapply Permutation_Forall;
        [apply Permutation_sym, insert_desc_perm|].
      constructor; [lia | assumption].
Qed.

Lemma sort_desc_sorted (l : list A) :
  StronglySorted (fun a b => key b <= key a) (sort_desc key l).
Proof.
  induction l as [|x l IH]; simpl.
  - constructor.
  - now apply insert_desc_sorted.
Qed.

Lemma insert_desc_stable (n : nat) (x : A) (l : list A) :
  filter (fun a => (key a =? n)%nat) (insert_desc key x l)
  = filter (fun a => (key a =? n)%nat) (x :: l).
Proof.
  induction l as [|y l IH]; [reflexivity|].
  cbn [insert_desc].
  destruct (key y <=? key x)%nat eqn:E; [reflexivity|].
  apply Nat.leb_gt in E.
  cbn [filter] in *. rewrite IH.
  destruct (key y =? n)%nat eqn:Ey; destruct (key x =? n)%nat eqn:Ex;
    try reflexivity.
  apply Nat.eqb_eq in Ey, Ex. lia.
Qed.

Lemma sort_desc_stable (n : nat) (l : list A) :
  filter (fun a => (key a =? n)%nat) (sort_desc key l)
  = filter (fun a => (key a =? n)%nat) l.
Proof.
  induction l as [|x l IH]; [reflexivity|].
  cbn [sort_desc fold_right].
  change (fold_right (insert_desc key) [] l) with (sort_desc key l).
  rewrite insert_desc_stable. cbn [filter]. now rewrite IH.
Qed.

End SortFacts.

Lemma insert_desc_ext {A} (f g : A -> nat) (x : A) (l : list A) :
  f x = g x -> Forall (fun a => f a = g a) l ->
  insert_desc f x l = insert_desc g x l.
Proof.
  intros Hx Hl. induction Hl as [|y l Hy Hl IH]; simpl; [reflexivity|].
  rewrite Hx, Hy, IH. reflexivity.
Qed.

Lemma sort_desc_ext {A} (f g : A -> nat) (l : list A) :
  Forall (fun a => f a = g a) l -> sort_desc f l = sort_desc g l.
Proof.
  induction 1 as [|x l Hx Hl IH]; [reflexivity|].
  change (insert_desc f x (sort_desc f l) = insert_desc g x (sort_desc g l)).
  rewrite <- IH.
  apply insert_desc_ext; [assumption|].
  eapply Permutation_Forall; [apply Permutation_sym, sort_desc_perm|].
  exact Hl.
Qed.

Lemma insert_desc_map {A B} (f : A -> B) (key : B -> nat) (x : A)
      (l : list A) :
  insert_desc key (f x) (map f l)
  = map f (insert_desc (fun a => key (f a)) x l).
Proof.
  induction l as [|y l IH]; simpl; [reflexivity|].
  destruct (key (f y) <=? key (f x))%nat; simpl; [reflexivity|].
  now rewrite IH.
Qed.

Lemma sort_desc_map {A B} (f : A -> B) (key : B -> nat) (l : list A) :
  sort_desc key (map f l) = map f (sort_desc (fun a => key (f a)) l).
Proof.
  induction l as [|x l IH]; [reflexivity|].
  change (insert_desc key (f x) (sort_desc key (map f l))
          = map f (insert_desc (fun a => key (f a)) x
                               (sort_desc (fun a => key (f a)) l))).
  rewrite IH. apply insert_desc_map.
Qed.

End PyFacts.

(* ================================================================== *)
(** * The Metadata Extractor *)
(* ================================================================== *)

Module MetadataFacts.
Import Py PyFacts Metadata Stated.

Lemma last_char_nonempty (p q : option ascii) (c : ascii) (t : string) :
  last_char p (String c t) = last_char q (String c t).
Proof. reflexivity. Qed.

Lemma word_at_startswith (term s : string) :
  word_at term = true -> startswith term s = true -> word_at s = true.
Proof.
  destruct term as [|a t]; simpl; [discriminate|].
  destruct s as [|b s]; simpl; [discriminate|].
  intros Hw H. apply andb_prop in H as [Hab _].
  apply Ascii.eqb_eq in Hab. now subst b.
Qed.

(** For a plain term the pattern [\b term \b] matches exactly at the
    whole-word occurrences. *)
Lemma match_is_occurrence (term : string) (prev : option ascii)
      (s : string) :
  plain_term term = true ->
  match_here term prev s = occurs_here term prev s.
Proof.
  unfold plain_term, match_here, occurs_here, boundary.
  intros H. apply andb_prop in H as [H _].
  apply andb_prop in H as [Hfirst Hlast].
  destruct (startswith term s) eqn:Hs.
  - rewrite (word_at_startswith _ _ Hfirst Hs).
    destruct term as [|c t]; [discriminate|].
    rewrite (last_char_nonempty prev None), Hlast.
    now rewrite !xorb_true_r.
  - now rewrite !andb_false_r.
Qed.

(** A plain term does not start again inside one of its occurrences. *)
Lemma no_overlap (term s : string) (j : nat) :
  plain_term term = true -> startswith term s = true ->
  1 <= j < String.length term ->
  startswith term (drop j s) = false.
Proof.
  intros Hp Hs Hj.
  destruct (startswith term (drop j s)) eqn:E; [|reflexivity].
  exfalso.
  unfold plain_term in Hp. apply andb_prop in Hp as [_ Hb].
  rewrite forallb_forall in Hb.
  specialize (Hb j). rewrite in_seq in Hb.
  assert (Hin : 1 <= j < 1 + (String.length term - 1)) by lia.
  specialize (Hb Hin). apply negb_true_iff in Hb.
  rewrite (startswith_split _ _ Hs) in E.
  rewrite drop_app in E by lia.
  apply startswith_app_inv in E; [congruence|].
  rewrite length_drop. lia.
Qed.

Lemma occurs_needs_start (term : string) (prev : option ascii)
      (s : string) :
  startswith term s = false -> occurs_here term prev s = false.
Proof.
  unfold occurs_here. intros ->. now rewrite andb_false_r.
Qed.

(** The scan of [findall] counts every whole-word occurrence of a plain
    term: the characters it skips after a match hold no occurrence. *)
Lemma count_from_occurrences (term : string) :
  plain_term term = true ->
  forall (s : string) (prev : option ascii) (skip : nat),
    (forall j, j < skip -> startswith term (drop j s) = false) ->
    count_from term prev s skip = occurrences_from term prev s.
Proof.
  intros Hp. induction s as [|c s IH]; intros prev skip Hskip.
  - cbn [count_from occurrences_from]. destruct skip as [|k].
    + rewrite (match_is_occurrence _ _ _ Hp). lia.
    + rewrite occurs_needs_start; [reflexivity|].
      apply (Hskip 0). lia.
  - cbn [count_from occurrences_from]. destruct skip as [|k].
    + rewrite (match_is_occurrence _ _ _ Hp).
      destruct (occurs_here term prev (String c s)) eqn:Hocc.
      * rewrite IH; [reflexivity|].
        intros j Hj. rewrite <- drop_S with (c := c).
        apply no_overlap; [assumption| |lia].
        unfold occurs_here in Hocc.
        apply andb_prop in Hocc as [Hocc _].
        now apply andb_prop in Hocc as [_ Hocc].
      * rewrite IH; [reflexivity|]. intros j Hj; lia.
    + rewrite occurs_needs_start by (apply (Hskip 0); lia).
      rewrite IH; [reflexivity|].
      intros j Hj. rewrite <- drop_S with (c := c). apply Hskip. lia.
Qed.

Lemma reference_terms_plain :
  forallb plain_term (CYANVIEW_PRODUCTS ++ CYANVIEW_TOPICS)%list = true.
Proof. vm_compute. reflexivity. Qed.

Lemma count_is_occurrences (content : string) :
  Forall (fun t => count_occurrences t content
                   = whole_word_occurrences t content)
         (CYANVIEW_PRODUCTS ++ CYANVIEW_TOPICS)%list.
Proof.
  apply Forall_forall. intros t Hin.
  pose proof reference_terms_plain as H.
  rewrite forallb_forall in H. specialize (H t Hin).
  unfold count_occurrences, whole_word_occurrences.
  apply count_from_occurrences; [assumption|].
  intros j Hj; lia.
Qed.

(** The loop of the two extractors keeps the terms with a positive count,
    in reference-list order. *)
Lemma found_terms_filter (terms : list string) (content : string) :
  found_terms terms content
  = map (fun t => (t, count_occurrences t content))
        (filter (fun t => (0 <? count_occurrences t content)%nat) terms).
Proof.
  induction terms as [|t ts IH]; simpl; [reflexivity|].
  destruct (0 <? count_occurrences t content)%nat; simpl; now rewrite IH.
Qed.

Lemma extract_references_sort (terms : list string) (content : string) :
  extract_references terms content
  = sort_desc (fun t => count_occurrences t content)
      (filter (fun t => (0 <? count_occurrences t content)%nat) terms).
Proof.
  unfold extract_references. rewrite found_terms_filter, sort_desc_map.
  cbn [snd]. rewrite map_map. cbn [fst]. apply map_id.
Qed.

(** [extract_references] ranks any list of terms whose counts are the
    whole-word occurrences. *)
Lemma extract_references_ranking (terms : list string) (content : string) :
  Forall (fun t => count_occurrences t content
                   = whole_word_occurrences t content) terms ->
  ranking (fun t => whole_word_occurrences t content) terms
          (extract_references terms content).
Proof.
  intros Hcount.
  set (occ := fun t => whole_word_occurrences t content).
  assert (Hfilter :
    filter (fun t => (0 <? count_occurrences t content)%nat) terms
    = filter (fun t => (0 <? occ t)%nat) terms).
  { apply filter_ext_in. intros t Hin.
    rewrite Forall_forall in Hcount. now rewrite (Hcount t Hin). }
  assert (Hsort : extract_references terms content
                  = sort_desc occ (filter (fun t => (0 <? occ t)%nat) terms)).
  { rewrite extract_references_sort, Hfilter.
    apply sort_desc_ext. apply Forall_forall. intros t Hin.
    apply filter_In in Hin as [Hin _].
    rewrite Forall_forall in Hcount. now apply Hcount. }
  rewrite Hsort. repeat split.
  - apply sort_desc_perm.
  - apply sort_desc_sorted.
  - intros n. apply sort_desc_stable.
Qed.

Lemma emitted_products (content : string) :
  emitted "product" "all_products" (extract_product_references content)
          (extract_metadata_from_content content).
Proof.
  unfold emitted, extract_metadata_from_content, VStrs.
  destruct (extract_product_references content) as [|p ps];
    destruct (extract_topics content) as [|t ts];
    destruct (is_qa_content content); split; reflexivity.
Qed.

Lemma emitted_topics (content : string) :
  emitted "topic" "all_topics" (extract_topics content)
          (extract_metadata_from_content content).
Proof.
  unfold emitted, extract_metadata_from_content, VStrs.
  destruct (extract_product_references content) as [|p ps];
    destruct (extract_topics content) as [|t ts];
    destruct (is_qa_content content); split; reflexivity.
Qed.

(** Claim C8.  For every input string, the extractor's count of each term
    of the product and topic reference lists is the number of whole-word,
    case-sensitive occurrences of the term; [extract_product_references]
    and [extract_topics] return the terms with a positive count, sorted by
    descending count, terms of equal count in reference-list order; and
    [extract_metadata_from_content] emits [product] = the top product and
    [all_products] = the whole sorted list exactly when a product was
    found, omitting both keys otherwise, and [topic]/[all_topics]
    likewise. *)
Theorem metadata_extractor_ranks_and_emits (content : string) :
  Forall (fun t => count_occurrences t content
                   = whole_word_occurrences t content)
         (CYANVIEW_PRODUCTS ++ CYANVIEW_TOPICS)%list
  /\ ranking (fun t => whole_word_occurrences t content) CYANVIEW_PRODUCTS
             (extract_product_references content)
  /\ ranking (fun t => whole_word_occurrences t content) CYANVIEW_TOPICS
             (extract_topics content)
  /\ emitted "product" "all_products" (extract_product_references content)
             (extract_metadata_from_content content)
  /\ emitted "topic" "all_topics" (extract_topics content)
             (extract_metadata_from_content content).
Proof.
  pose proof (count_is_occurrences content) as Hcount.
  apply Forall_app in Hcount as Hboth. destruct Hboth as [Hp Ht].
  split; [exact Hcount|].
  split; [now apply extract_references_ranking|].
  split; [now apply extract_references_ranking|].
  split; [apply emitted_products | apply emitted_topics].
Qed.

End MetadataFacts.

(* ================================================================== *)
(** * The Chunker *)
(* ================================================================== *)

Module TextSplitterFacts.
Import Py PyFacts TextSplitter Stated Doubles.

Section AnySplitter.
Variable splitter : Z -> Z -> list string -> string -> list string.

Lemma emit_chunks_length (doc : Document) (total i : nat)
      (pieces : list string) :
  List.length (emit_chunks doc total i pieces) = List.length pieces.
Proof.
  revert i; induction pieces as [|c rest IH]; intros i; simpl;
    [reflexivity | now rewrite IH].
Qed.

Lemma emit_chunks_ordinals (doc : Document) (total i : nat)
      (pieces : list string) :
  map (fun c => int_at (metadata c) "chunk") (emit_chunks doc total i pieces)
  = map (fun k => Some (Z.of_nat k)) (seq i (List.length pieces)).
Proof.
  revert i; induction pieces as [|c rest IH]; intros i; [reflexivity|].
  cbn [emit_chunks map List.length seq metadata]. rewrite IH. f_equal.
  unfold int_at.
  rewrite get_set_other by discriminate.
  now rewrite get_set_same.
Qed.

Lemma emit_chunks_total (doc : Document) (total i : nat)
      (pieces : list string) :
  Forall (fun c => int_at (metadata c) "chunk_total" = Some (Z.of_nat total))
         (emit_chunks doc total i pieces).
Proof.
  revert i; induction pieces as [|c rest IH]; intros i; constructor.
  - cbn [metadata]. unfold int_at. now rewrite get_set_same.
  - apply IH.
Qed.

Lemma emit_chunks_texts (doc : Document) (total i : nat)
      (pieces : list string) :
  map page_content (emit_chunks doc total i pieces)
  = map (repair_qa doc) pieces.
Proof.
  revert i; induction pieces as [|c rest IH]; intros i; [reflexivity|].
  cbn [emit_chunks map page_content]. now rewrite IH.
Qed.

Lemma emit_chunks_bounded (doc : Document) (total i : nat)
      (pieces : list string) :
  i + List.length pieces <= total ->
  Forall (fun c => exists k n : Z,
              int_at (metadata c) "chunk" = Some k
              /\ int_at (metadata c) "chunk_total" = Some n
              /\ (0 <= k < n)%Z)
         (emit_chunks doc total i pieces).
Proof.
  revert i; induction pieces as [|c rest IH]; intros i Hi; constructor.
  - exists (Z.of_nat i), (Z.of_nat total). cbn [metadata List.length] in *.
    unfold int_at.
    rewrite get_set_same.
    rewrite get_set_other by discriminate. rewrite get_set_same.
    repeat split; lia.
  - apply IH. cbn [List.length] in Hi. lia.
Qed.

(** Claim C9.  For every document, whatever the pieces the splitter
    returns: the document contributes one chunk per piece, in order, and
    the chunks of all documents are emitted document after document; every
    chunk's [chunk_total] is the number of chunks produced for its
    document; the [chunk] ordinals are 0, 1, ..., [chunk_total] - 1 in
    emission order, without gap or duplicate; and [chunk < chunk_total]
    for every emitted chunk. *)
Theorem chunk_ordinals_contiguous (chunk_size chunk_overlap : Z) :
  (forall documents : list Document,
     split_documents splitter documents chunk_size chunk_overlap
     = List.concat (map (split_document splitter chunk_size chunk_overlap)
                   documents))
  /\ forall doc : Document,
       let chunks := split_document splitter chunk_size chunk_overlap doc in
       let chunk_total := List.length chunks in
       chunk_total
       = List.length (splitter chunk_size chunk_overlap separators
                               (page_content doc))
       /\ Forall (fun c => int_at (metadata c) "chunk_total"
                           = Some (Z.of_nat chunk_total)) chunks
       /\ map (fun c => int_at (metadata c) "chunk") chunks
          = map (fun k => Some (Z.of_nat k)) (seq 0 chunk_total)
       /\ Forall (fun c => exists k n : Z,
                      int_at (metadata c) "chunk" = Some k
                      /\ int_at (metadata c) "chunk_total" = Some n
                      /\ (0 <= k < n)%Z) chunks.
Proof.
  split.
  - intros documents. unfold split_documents. apply flat_map_concat_map.
  - intros doc. cbv zeta. unfold split_document.
    rewrite emit_chunks_length.
    split; [reflexivity|].
    split; [apply emit_chunks_total|].
    split; [apply emit_chunks_ordinals|].
    apply emit_chunks_bounded. lia.
Qed.

(** The texts of a document's chunks are the splitter's pieces, each
    passed through the repair; outside type ["qa"] they are the pieces
    themselves. *)
Lemma split_document_texts (chunk_size chunk_overlap : Z) (doc : Document) :
  map page_content (split_document splitter chunk_size chunk_overlap doc)
  = map (repair_qa doc)
        (splitter chunk_size chunk_overlap separators (page_content doc)).
Proof. unfold split_document. apply emit_chunks_texts. Qed.

Lemma split_document_relays_pieces (chunk_size chunk_overlap : Z)
      (doc : Document) :
  get (metadata doc) "type" <> Some (VStr "qa") ->
  map page_content (split_document splitter chunk_size chunk_overlap doc)
  = splitter chunk_size chunk_overlap separators (page_content doc).
Proof.
  intros Htype. rewrite split_document_texts.
  rewrite <- (map_id (splitter _ _ _ _)) at 2.
  apply map_ext. intros chunk_text. unfold repair_qa.
  destruct (get (metadata doc) "type") as [[| | |t|]|] eqn:E;
    try reflexivity.
  cbn [eq_str]. destruct (String.eqb t "qa") eqn:Et; [|reflexivity].
  apply String.eqb_eq in Et. subst t. congruence.
Qed.

(** The repair, chunk by chunk. *)
Lemma repair_qa_repaired (doc : Document) (chunk_text : string) :
  get (metadata doc) "type" = Some (VStr "qa") ->
  contains "Q: " chunk_text = true ->
  contains "A: " chunk_text = false ->
  repaired (page_content doc) chunk_text (repair_qa doc chunk_text).
Proof.
  intros Htype Hq Ha. unfold repaired, repair_qa.
  rewrite Htype, Hq, Ha. cbn [eq_str String.eqb Ascii.eqb Bool.eqb andb negb].
  pose proof (find_found chunk_text "Q: " 0 (find_of_contains _ _ Hq))
    as [Hk Hquestion].
  rewrite (slice_from_drop _ _ Hk).
  set (question := drop (Z.to_nat (find chunk_text "Q: " 0)) chunk_text) in *.
  split; [exact Hquestion|].
  set (answer_start :=
         find (page_content doc) "A: " (find (page_content doc) question 0)).
  destruct (answer_start =? -1)%Z eqn:E.
  - apply Z.eqb_eq in E. left. split; [exact E | reflexivity].
  - apply Z.eqb_neq in E. right. cbn [negb].
    destruct (find_found _ _ _ E) as [Hrange Hanswer].
    fold answer_start in Hrange, Hanswer.
    split; [lia|].
    exists (take 200 (drop (Z.to_nat answer_start) (page_content doc))).
    rewrite (slice_take_200 _ _ Hrange).
    split; [reflexivity|]. split; [reflexivity|].
    split; [apply startswith_take; [exact Hanswer | simpl; lia]|].
    rewrite length_take.
    apply startswith_length in Hanswer. cbn [String.length] in Hanswer.
    lia.
Qed.

(** Claim C3, as the code has it.  For every document whose metadata
    [type] is ["qa"], every chunk the splitter produces that contains the
    question marker ["Q: "] but not the answer marker ["A: "] is emitted as
    follows.  Let [question] be the chunk from its first ["Q: "] on, and
    look for ["A: "] in the original text from the first occurrence of
    [question] on.  If it is found, the emitted chunk is [question], a
    line feed, the original text from that marker on cut to 200
    characters (so a non-empty excerpt that starts with ["A: "]), and
    ["..."]; if it is not found, the chunk is emitted unchanged. *)
Theorem qa_repair_when_answer_follows (chunk_size chunk_overlap : Z)
        (doc : Document) :
  get (metadata doc) "type" = Some (VStr "qa") ->
  Forall2 (fun chunk_text chunk =>
             contains "Q: " chunk_text && negb (contains "A: " chunk_text)
             = true ->
             repaired (page_content doc) chunk_text (page_content chunk))
          (splitter chunk_size chunk_overlap separators (page_content doc))
          (split_document splitter chunk_size chunk_overlap doc).
Proof.
  intros Htype. unfold split_document.
  generalize (List.length (splitter chunk_size chunk_overlap separators
                                    (page_content doc))) as total.
  generalize 0 as i.
  induction (splitter chunk_size chunk_overlap separators (page_content doc))
    as [|chunk_text rest IH]; intros i total; cbn [emit_chunks];
    constructor.
  - cbn [page_content]. intros H. apply andb_prop in H as [Hq Ha].
    apply negb_true_iff in Ha. now apply repair_qa_repaired.
  - apply IH.
Qed.

End AnySplitter.

(** The example of the specification: the question and its answer fall in
    different pieces, and the chunk of the question takes the answer in. *)
Example qa_repair_example :
  let text := "Q: What is X?" ++ nl ++ "A: X is a widget used for..." in
  map page_content
      (split_documents
         (pieces_splitter ["Q: What is X?"; "A: X is a widget used for..."])
         [qa_document text] 16 0)
  = [ "Q: What is X?" ++ nl ++ "A: X is a widget used for......";
      "A: X is a widget used for..." ].
Proof. vm_compute. reflexivity. Qed.

(** The repaired chunk starts at the question marker: what the chunk
    held before it is not emitted. *)
Example qa_repair_starts_at_question :
  let text := "Intro. Q: What is X?" ++ nl ++ "A: X is a widget." in
  map page_content
      (split_documents
         (pieces_splitter ["Intro. Q: What is X?"; "A: X is a widget."])
         [qa_document text] 20 0)
  = [ "Q: What is X?" ++ nl ++ "A: X is a widget....";
      "A: X is a widget." ].
Proof. vm_compute. reflexivity. Qed.

Lemma qa_repair_when_answer_follows_witness :
  let text := "Q: What is X?" ++ nl ++ "A: X is a widget used for..." in
  let pieces := ["Q: What is X?"; "A: X is a widget used for..."] in
  get (metadata (qa_document text)) "type" = Some (VStr "qa")
  /\ Forall2 (fun chunk_text chunk =>
                contains "Q: " chunk_text && negb (contains "A: " chunk_text)
                = true ->
                repaired text chunk_text (page_content chunk))
             pieces
             (split_document (pieces_splitter pieces) 16 0
                             (qa_document text)).
Proof.
  split.
  - reflexivity.
  - apply (qa_repair_when_answer_follows (pieces_splitter
             ["Q: What is X?"; "A: X is a widget used for..."]) 16 0
             (qa_document ("Q: What is X?" ++ nl
                           ++ "A: X is a widget used for..."))).
    reflexivity.
Defined.

Lemma carries_contains (emitted : string) :
  carries_answer_excerpt emitted -> contains "A: " emitted = true.
Proof.
  intros (before & excerpt & after & -> & Hstart & _).
  apply contains_app. now apply startswith_app_l.
Qed.

(** Claim C3 as stated fails: a document of type ["qa"] whose text has no
    answer marker after the question.  Its only chunk contains ["Q: "] and
    not ["A: "], and it is emitted as it is, without any excerpt. *)
Lemma qa_repair_without_answer_marker :
  let text := "Q: What is X? Nobody knows." in
  let doc := qa_document text in
  get (metadata doc) "type" = Some (VStr "qa")
  /\ whole_splitter 1000 200 separators text = [text]
  /\ contains "Q: " text = true
  /\ contains "A: " text = false
  /\ map page_content (split_documents whole_splitter [doc] 1000 200)
     = [text]
  /\ ~ carries_answer_excerpt text.
Proof.
  cbv zeta. repeat split.
  intros H. apply carries_contains in H. vm_compute in H. discriminate.
Qed.

End TextSplitterFacts.

(* ================================================================== *)
(** * Running effectful code *)
(* ================================================================== *)

Module EffectsFacts.
Import Effects Stated.

Lemma bind_inr {W A B} (m : M W A) (k : A -> M W B) (p p' : Process W)
      (b : B) :
  bind m k p = (inr b, p') ->
  exists a p1, m p = (inr a, p1) /\ k a p1 = (inr b, p').
Proof.
  unfold bind. destruct (m p) as [[e|a] p1]; [discriminate|].
  intros H. now exists a, p1.
Qed.

Lemma bind_inl {W A B} (m : M W A) (k : A -> M W B) (p p' : Process W)
      (e : exn) :
  bind m k p = (inl e, p') ->
  m p = (inl e, p')
  \/ exists a p1, m p = (inr a, p1) /\ k a p1 = (inl e, p').
Proof.
  unfold bind. destruct (m p) as [[e'|a] p1].
  - intros [= <- <-]. now left.
  - intros H. right. now exists a, p1.
Qed.

Lemma bind_run {W A B} (m : M W A) (k : A -> M W B) (p p1 : Process W)
      (a : A) :
  m p = (inr a, p1) -> bind m k p = k a p1.
Proof. unfold bind. now intros ->. Qed.

Lemma bind_fail {W A B} (m : M W A) (k : A -> M W B) (p p1 : Process W)
      (e : exn) :
  m p = (inl e, p1) -> bind m k p = (inl e, p1).
Proof. unfold bind. now intros ->. Qed.

Lemma call_inv {W A} (ev : Event) (op : W -> outcome A * W)
      (p p' : Process W) (r : outcome A) :
  call ev op p = (r, p') ->
  exists w', op (world p) = (r, w')
             /\ p' = mkProcess w' (manager_instance p) (log p ++ [ev])%list.
Proof.
  unfold call. destruct (op (world p)) as [r0 w'].
  intros [= <- <-]. now exists w'.
Qed.

Lemma extends_refl {W} (allowed : Event -> bool) (p : Process W) :
  extends allowed p p.
Proof. exists []. split; [now rewrite app_nil_r | constructor]. Qed.

Lemma extends_trans {W} (allowed : Event -> bool) (p q r : Process W) :
  extends allowed p q -> extends allowed q r -> extends allowed p r.
Proof.
  intros (e1 & H1 & F1) (e2 & H2 & F2). exists (e1 ++ e2)%list.
  split; [now rewrite H2, H1, app_assoc | now apply Forall_app].
Qed.

Lemma call_extends {W A} (allowed : Event -> bool) (ev : Event)
      (op : W -> outcome A * W) (p p' : Process W) (r : outcome A) :
  allowed ev = true -> call ev op p = (r, p') -> extends allowed p p'.
Proof.
  intros Hev H. apply call_inv in H as (w' & _ & ->).
  exists [ev]. split; [reflexivity | now constructor].
Qed.

Lemma bind_extends {W A B} (allowed : Event -> bool) (m : M W A)
      (k : A -> M W B) :
  (forall p r p', m p = (r, p') -> extends allowed p p') ->
  (forall a p r p', k a p = (r, p') -> extends allowed p p') ->
  forall p r p', bind m k p = (r, p') -> extends allowed p p'.
Proof.
  intros Hm Hk p r p'. unfold bind.
  destruct (m p) as [[e|a] p1] eqn:E.
  - intros [= <- <-]. eapply Hm; eauto.
  - intros H. eapply extends_trans; [eapply Hm | eapply Hk]; eauto.
Qed.

End EffectsFacts.

(* ================================================================== *)
(** * The Vector Index *)
(* ================================================================== *)

Module CollectionFacts.
Import Py Qdrant Effects EffectsFacts Collection Stated Doubles.

Section WithCollaborators.
Variable W : Type.
Variable C : Collaborators W.
Variable cfg : Config.

Lemma get_qdrant_client_inv (p p' : Process W) (r : outcome unit) :
  get_qdrant_client C p = (r, p') ->
  (manager_instance p = true /\ r = inr tt /\ p' = p)
  \/ (manager_instance p = false
      /\ exists names w',
           get_collections C (world p) = (names, w')
           /\ p' = mkProcess w' true (log p ++ [EvGetCollections])%list
           /\ r = match names with inl e => inl e | inr _ => inr tt end).
Proof.
  unfold get_qdrant_client.
  destruct (manager_instance p) eqn:E.
  - intros [= <- <-]. now left.
  - unfold bind, call, ret. cbn [world manager_instance log].
    destruct (get_collections C (world p)) as [[e|names] w'] eqn:G;
      intros [= <- <-]; right; (split; [reflexivity|]);
      eexists _, w'; (split; [reflexivity|]); split; reflexivity.
Qed.

Lemma get_qdrant_client_raises (p p' : Process W) (e : exn) :
  get_qdrant_client C p = (inl e, p') -> client_raises C e.
Proof.
  intros H. apply get_qdrant_client_inv in H
    as [(_ & H & _) | (_ & names & w' & G & _ & H)]; [discriminate|].
  destruct names as [e'|]; [|discriminate].
  injection H as <-. left. exists (world p). now rewrite G.
Qed.

Lemma get_qdrant_client_extends (allowed : Event -> bool)
      (p p' : Process W) (r : outcome unit) :
  allowed EvGetCollections = true ->
  get_qdrant_client C p = (r, p') -> extends allowed p p'.
Proof.
  intros Ha H. apply get_qdrant_client_inv in H
    as [(_ & _ & ->) | (_ & names & w' & _ & -> & _)].
  - apply extends_refl.
  - exists [EvGetCollections]. split; [reflexivity | now constructor].
Qed.



Lemma field_conditions_inv (items : list (string * Value)) :
  match field_conditions C items with
  | inr conditions =>
      map key conditions = map fst items
      /\ map (fun c => inr (match_value c)) conditions
         = map (fun kv => MatchValue C (snd kv)) items
  | inl e => exists k v, In (k, v) items /\ MatchValue C v = inl e
  end.
Proof.
  induction items as [|[k v] rest IH]; [now split|].
  cbn [field_conditions]. destruct (MatchValue C v) as [e|held] eqn:Hv.
  - exists k, v. split; [now left | exact Hv].
  - destruct (field_conditions C rest) as [e|conditions].
    + destruct IH as (k' & v' & Hin & H).
      exists k', v'. split; [now right | exact H].
    + destruct IH as [Hk Hm]. cbn [map key match_value fst snd].
      rewrite Hk, Hm, Hv. now split.
Qed.

Lemma query_filter_of_inv (filter_params : option (dict Value)) :
  match query_filter_of C filter_params with
  | inr query_filter => filter_for C filter_params query_filter
  | inl e => filter_raises C filter_params e
  end.
Proof.
  destruct filter_params as [[|kv rest]|]; try reflexivity.
  unfold query_filter_of.
  pose proof (field_conditions_inv (kv :: rest)) as H.
  destruct (field_conditions C (kv :: rest)) as [e|conditions].
  - destruct H as (k & v & Hin & H). exists k, v, (kv :: rest).
    now repeat split.
  - exists conditions. destruct H as [Hk Hm]. now repeat split.
Qed.

(** The steps of [search_vectors]: the client is obtained, then the
    filter is built, then the client searches once. *)
Lemma search_vectors_inv
      (query_vector : list float) (collection_name : option string)
      (filter_params : option (dict Value)) (top_k : Z)
      (score_threshold : option float)
      (p p' : Process W) (r : outcome (list SearchResult)) :
  search_vectors C cfg query_vector collection_name filter_params top_k
                 score_threshold p = (r, p') ->
  exists rc p1,
    get_qdrant_client C p = (rc, p1)
    /\ match rc with
       | inl e => r = inl e /\ p' = p1
       | inr _ =>
           match query_filter_of C filter_params with
           | inl e => r = inl e /\ p' = p1
           | inr query_filter =>
               let search_params :=
                 mkSearchParams (or_default cfg collection_name)
                                query_vector top_k query_filter
                                score_threshold in
               exists rs w',
                 search C search_params (world p1) = (rs, w')
                 /\ p' = mkProcess w' (manager_instance p1)
                                   (log p1 ++ [EvSearch search_params])%list
                 /\ r = match rs with
                        | inl e => inl e
                        | inr hits => inr (map result_of hits)
                        end
           end
       end.
Proof.
  unfold search_vectors, bind. intros H.
  destruct (get_qdrant_client C p) as [[e|[]] p1].
  - injection H as <- <-. now exists (inl e), p1.
  - exists (inr tt), p1. split; [reflexivity|].
    unfold lift in H.
    destruct (query_filter_of C filter_params) as [e|query_filter].
    + injection H as <- <-. now split.
    + cbv zeta. unfold call in H.
      destruct (search C _ (world p1)) as [[e|hits] w'] eqn:Hs;
        injection H as <- <-; eexists _, w'; now repeat split.
Qed.

(** The log after [get_qdrant_client] has returned: the connection test
    of a first use, and nothing else. *)
Lemma get_qdrant_client_log (p p1 : Process W) :
  get_qdrant_client C p = (inr tt, p1) ->
  log p1 = (log p ++ if manager_instance p then [] else [EvGetCollections])%list
  /\ world p1 = (if manager_instance p then world p
                 else snd (get_collections C (world p)))
  /\ manager_instance p1 = true.
Proof.
  intros H. apply get_qdrant_client_inv in H
    as [(Hm & _ & ->) | (Hm & names & w' & G & -> & _)]; rewrite Hm.
  - now rewrite app_nil_r.
  - cbn [log world manager_instance]. now rewrite G.
Qed.


Lemma client_only_ret {A} (a : A) : client_only C (ret a).
Proof. intros p e p' H. discriminate. Qed.

Lemma client_only_bind {A B} (m : M W A) (k : A -> M W B) :
  client_only C m -> (forall a, client_only C (k a)) ->
  client_only C (bind m k).
Proof.
  intros Hm Hk p e p' H. apply bind_inl in H as [H | (a & p1 & _ & H)].
  - eapply Hm; eauto.
  - eapply Hk; eauto.
Qed.

Lemma client_only_call {A} (ev : Event) (op : W -> outcome A * W) :
  (forall w e, fst (op w) = inl e -> client_raises C e) ->
  client_only C (call ev op).
Proof.
  intros Hop p e p' H. apply call_inv in H as (w' & H & _).
  apply (Hop (world p)). now rewrite H.
Qed.

Lemma client_only_get_qdrant_client : client_only C (get_qdrant_client C).
Proof. intros p e p' H. eapply get_qdrant_client_raises; eauto. Qed.

Lemma create_collection_client_only (vector_size : Z)
      (collection_name : option string) (recreate : bool) :
  client_only C
    (create_collection C cfg vector_size collection_name recreate).
Proof.
  unfold create_collection.
  apply client_only_bind; [apply client_only_get_qdrant_client | intros _].
  apply client_only_bind.
  { apply client_only_call. intros w e H. left. eauto. }
  intros names.
  destruct (existsb _ names && negb recreate); [apply client_only_ret|].
  apply client_only_bind.
  { destruct (existsb _ names); [|apply client_only_ret].
    apply client_only_call. intros w e H. right; left. eauto. }
  intros _. apply client_only_bind.
  { apply client_only_call. intros w e H. right; right; left. eauto 6. }
  intros _. apply client_only_bind.
  { apply client_only_call. intros w e H. right; right; right; left.
    eauto 6. }
  intros _. apply client_only_bind.
  { apply client_only_call. intros w e H. right; right; right; left.
    eauto 6. }
  intros _. apply client_only_ret.
Qed.

Lemma search_vectors_raises (query_vector : list float)
      (collection_name : option string)
      (filter_params : option (dict Value)) (top_k : Z)
      (score_threshold : option float) (p p' : Process W) (e : exn) :
  search_vectors C cfg query_vector collection_name filter_params top_k
                 score_threshold p = (inl e, p') ->
  client_raises C e \/ filter_raises C filter_params e.
Proof.
  intros H. apply search_vectors_inv in H as (rc & p1 & Hclient & H).
  destruct rc as [e'|[]].
  - destruct H as [[= <-] _]. left.
    eapply get_qdrant_client_raises; eauto.
  - pose proof (query_filter_of_inv filter_params) as Hf.
    destruct (query_filter_of C filter_params) as [e'|query_filter].
    + destruct H as [[= <-] _]. now right.
    + cbv zeta in H. destruct H as (rs & w' & Hs & _ & Hr).
      destruct rs as [e'|hits]; [|discriminate]. injection Hr as <-.
      left. do 4 right. eexists _, (world p1). now rewrite Hs.
Qed.

Lemma create_collection_extends (vector_size : Z)
      (collection_name : option string) (recreate : bool)
      (p p' : Process W) (r : outcome unit) :
  create_collection C cfg vector_size collection_name recreate p = (r, p') ->
  extends (creates_as (or_default cfg collection_name) vector_size) p p'.
Proof.
  unfold create_collection. revert p r p'.
  apply bind_extends.
  { intros p r p'. now apply get_qdrant_client_extends. }
  intros _. apply bind_extends.
  { intros p r p'. now apply call_extends. }
  intros names.
  destruct (existsb _ names && negb recreate).
  { intros p r p' [= <- <-]. apply extends_refl. }
  apply bind_extends.
  { destruct (existsb _ names).
    - intros p r p'. now apply call_extends.
    - intros p r p' [= <- <-]. apply extends_refl. }
  intros _. apply bind_extends.
  { intros p r p'. apply call_extends. cbn.
    now rewrite String.eqb_refl, Z.eqb_refl. }
  intros _. apply bind_extends.
  { intros p r p'. now apply call_extends. }
  intros _. apply bind_extends.
  { intros p r p'. now apply call_extends. }
  intros _ p r p' [= <- <-]. apply extends_refl.
Qed.

(** Claim C6, as the code has it.  [create_collection] never looks at
    the dimension.  Whatever [vector_size] is, zero and negative numbers
    included, once the client is obtained and has listed the
    collections: an exception that leaves [create_collection] was raised
    by a call to the client; when the collection is listed and
    [recreate] is false, the function returns normally after that
    listing, without any further call; in every other case, once the
    listed collection has been deleted, the next call is the client's
    [create_collection], which receives [vector_size] unchanged as the
    size of its vectors (with the cosine distance), and if that call
    raises, its exception is what [create_collection] raises. *)
Theorem create_collection_defers_dimension
        (vector_size : Z) (collection_name : option string)
        (recreate : bool) (names : list string)
        (p p1 p2 p' : Process W) (r : outcome unit) :
  let name := or_default cfg collection_name in
  let present := existsb (String.eqb name) names in
  let vectors_config := mkVectorParams vector_size COSINE in
  let creation :=
    EvCreateCollection name vectors_config (mkOptimizersConfigDiff 0) in
  create_collection C cfg vector_size collection_name recreate p = (r, p') ->
  get_qdrant_client C p = (inr tt, p1) ->
  call EvGetCollections (get_collections C) p1 = (inr names, p2) ->
  (forall e, r = inl e -> client_raises C e)
  /\ (present && negb recreate = true -> r = inr tt /\ p' = p2)
  /\ (present && negb recreate = false ->
      forall p3,
        (if present
         then call (EvDeleteCollection name) (delete_collection C name) p2
              = (inr tt, p3)
         else p3 = p2) ->
        exists (rc : outcome unit) (w4 : W) (evs : list Event),
          create_collection_call C name vectors_config
                                 (mkOptimizersConfigDiff 0) (world p3)
          = (rc, w4)
          /\ log p' = (log p3 ++ creation :: evs)%list
          /\ forall e,
               rc = inl e ->
               r = inl e
               /\ p' = mkProcess w4 (manager_instance p3)
                                 (log p3 ++ [creation])%list).
Proof.
  cbv zeta. intros H Hclient Hlist. split; [|split].
  - intros e ->. eapply create_collection_client_only; eauto.
  - intros Hskip. unfold create_collection in H.
    rewrite (bind_run _ _ _ _ _ Hclient), (bind_run _ _ _ _ _ Hlist) in H.
    rewrite Hskip in H. injection H as <- <-. now split.
  - intros Hguard p3 Hdel. unfold create_collection in H.
    rewrite (bind_run _ _ _ _ _ Hclient), (bind_run _ _ _ _ _ Hlist) in H.
    rewrite Hguard in H.
    assert (Hd : (if existsb (String.eqb (or_default cfg collection_name))
                             names
                  then call (EvDeleteCollection
                               (or_default cfg collection_name))
                            (delete_collection C
                               (or_default cfg collection_name))
                  else ret tt) p2 = (inr tt, p3)).
    { destruct (existsb _ names); [exact Hdel | now subst p3]. }
    rewrite (bind_run _ _ _ _ _ Hd) in H.
    unfold bind at 1 in H.
    match type of H with
    | context [call ?ev ?op p3] =>
        destruct (call ev op p3) as [rc p4] eqn:Hc
    end.
    apply call_inv in Hc as (w4 & Hop & ->).
    exists rc, w4. destruct rc as [e|[]].
    + injection H as <- <-. exists []. split; [exact Hop|].
      split; [reflexivity|]. intros e' [= <-]. now split.
    + assert (Hext : extends (fun _ => true)
                       (mkProcess w4 (manager_instance p3)
                          (log p3
                           ++ [EvCreateCollection
                                 (or_default cfg collection_name)
                                 (mkVectorParams vector_size COSINE)
                                 (mkOptimizersConfigDiff 0)])%list) p').
      { revert H. generalize (mkProcess w4 (manager_instance p3)
                          (log p3
                           ++ [EvCreateCollection
                                 (or_default cfg collection_name)
                                 (mkVectorParams vector_size COSINE)
                                 (mkOptimizersConfigDiff 0)])%list).
        revert r p'. intros r p' q. revert q r p'.
        apply bind_extends.
        { intros q r p'. now apply call_extends. }
        intros _. apply bind_extends.
        { intros q r p'. now apply call_extends. }
        intros _ q r p' [= <- <-]. apply extends_refl. }
      destruct Hext as (evs & Hlog & _). cbn [log] in Hlog.
      exists evs. split; [exact Hop|].
      split; [now rewrite Hlog, <- app_assoc | discriminate].
Qed.

End WithCollaborators.

(** The example of the specification: an index that honours the request
    and holds matches at 0.95, 0.72 and 0.65 yields the first two under a
    threshold of 0.7. *)
Example score_threshold_example :
  fst (search_vectors stub stub_config query_vector None None 5
                      (Some 0.7%float) (start (index_of three_matches)))
  = inr (map result_of (firstn 2 three_matches)).
Proof. vm_compute. reflexivity. Qed.

(** With five qualifying matches and [top_k] = 2, the two best. *)
Example top_k_example :
  fst (search_vectors stub stub_config query_vector None None 2
                      (Some 0.7%float) (start (index_of five_matches)))
  = inr (map result_of (firstn 2 five_matches)).
Proof. vm_compute. reflexivity. Qed.


(** A filter value the library refuses: the validation error leaves
    [search_vectors] after the connection test, and no search is made. *)
Example refused_filter_example :
  search_vectors stub stub_config query_vector None
                 (Some [("product", VNone)]) 5 (Some 0.7%float)
                 (start (index_of three_matches))
  = (inl (Raise "ValidationError" "1 validation error for MatchValue"),
     mkProcess (index_of three_matches) true [EvGetCollections]).
Proof. vm_compute. reflexivity. Qed.


(** Claim C6 as stated fails: with the collection in place and
    [recreate] false, a call with dimension -5 returns normally. *)
Lemma create_collection_accepts_any_dimension :
  let w := mkStub ["cyanview_docs"] (inr []) (inr "") in
  (-5 <= 0)%Z
  /\ create_collection stub stub_config (-5) None false (start w)
     = (inr tt, mkProcess w true [EvGetCollections; EvGetCollections]).
Proof. cbv zeta. split; [lia | vm_compute; reflexivity]. Qed.

(** With no such collection, dimension 0 goes to the client as it is. *)
Example create_collection_passes_dimension_on :
  let w := mkStub [] (inr []) (inr "") in
  create_collection stub stub_config 0 None false (start w)
  = (inr tt,
     mkProcess (mkStub ["cyanview_docs"] (inr []) (inr "")) true
       [EvGetCollections; EvGetCollections;
        EvCreateCollection "cyanview_docs" (mkVectorParams 0 COSINE)
                           (mkOptimizersConfigDiff 0);
        EvCreatePayloadIndex "cyanview_docs" "product" KEYWORD;
        EvCreatePayloadIndex "cyanview_docs" "type" KEYWORD]).
Proof. vm_compute. reflexivity. Qed.

Lemma create_collection_defers_dimension_witness :
  let w := mkStub ["cyanview_docs"] (inr []) (inr "") in
  let p := start w in
  let run := create_collection stub stub_config (-5) None true p in
  let p1 := snd (get_qdrant_client stub p) in
  let p2 := snd (call EvGetCollections (get_collections stub) p1) in
  let p3 := snd (call (EvDeleteCollection "cyanview_docs")
                      (delete_collection stub "cyanview_docs") p2) in
  let name := or_default stub_config None in
  let present := existsb (String.eqb name) ["cyanview_docs"] in
  let vectors_config := mkVectorParams (-5) COSINE in
  let creation :=
    EvCreateCollection name vectors_config (mkOptimizersConfigDiff 0) in
  run = (fst run, snd run)
  /\ get_qdrant_client stub p = (inr tt, p1)
  /\ call EvGetCollections (get_collections stub) p1
     = (inr ["cyanview_docs"], p2)
  /\ present && negb true = false
  /\ call (EvDeleteCollection name) (delete_collection stub name) p2
     = (inr tt, p3)
  /\ ((forall e, fst run = inl e -> client_raises stub e)
      /\ (present && negb true = true -> fst run = inr tt /\ snd run = p2)
      /\ (present && negb true = false ->
          forall q3,
            (if present
             then call (EvDeleteCollection name)
                       (delete_collection stub name) p2
                  = (inr tt, q3)
             else q3 = p2) ->
            exists (rc : outcome unit) (w4 : Stub) (evs : list Event),
              create_collection_call stub name vectors_config
                                     (mkOptimizersConfigDiff 0) (world q3)
              = (rc, w4)
              /\ log (snd run) = (log q3 ++ creation :: evs)%list
              /\ forall e,
                   rc = inl e ->
                   fst run = inl e
                   /\ snd run = mkProcess w4 (manager_instance q3)
                                          (log q3 ++ [creation])%list)).
Proof.
  split; [reflexivity|]. split; [reflexivity|]. split; [reflexivity|].
  split; [reflexivity|]. split; [reflexivity|].
  apply (create_collection_defers_dimension _ stub stub_config (-5) None true
           ["cyanview_docs"]
           (start (mkStub ["cyanview_docs"] (inr []) (inr "")))
           (snd (get_qdrant_client stub
                   (start (mkStub ["cyanview_docs"] (inr []) (inr "")))))
           (snd (call EvGetCollections (get_collections stub)
                   (snd (get_qdrant_client stub
                           (start (mkStub ["cyanview_docs"] (inr [])
                                          (inr ""))))))));
    reflexivity.
Defined.

(** A collection that is listed is dropped and created again with the
    dimension as given, here -5. *)
Example create_collection_recreates_with_dimension :
  let w := mkStub ["cyanview_docs"] (inr []) (inr "") in
  create_collection stub stub_config (-5) None true (start w)
  = (inr tt,
     mkProcess w true
       [EvGetCollections; EvGetCollections;
        EvDeleteCollection "cyanview_docs";
        EvCreateCollection "cyanview_docs" (mkVectorParams (-5) COSINE)
                           (mkOptimizersConfigDiff 0);
        EvCreatePayloadIndex "cyanview_docs" "product" KEYWORD;
        EvCreatePayloadIndex "cyanview_docs" "type" KEYWORD]).
Proof. vm_compute. reflexivity. Qed.

End CollectionFacts.

(* ================================================================== *)
(** * The Retrieval Orchestrator *)
(* ================================================================== *)

Module QueryFacts.
Import Py Qdrant Effects EffectsFacts Collection Query Stated Doubles
       CollectionFacts.

Section WithCollaborators.
Variable W : Type.
Variable C : Collaborators W.
Variable F : Formatter.
Variable cfg : Config.

Lemma contexts_of_kept (search_results : list SearchResult) :
  contexts_of search_results
  = map context_of (filter has_text search_results).
Proof.
  induction search_results as [|r rest IH]; [reflexivity|].
  cbn [contexts_of filter]. unfold has_text at 1.
  destruct (has_key (r_payload r) "text"); cbn [map]; now rewrite IH.
Qed.

Lemma search_vectors_extends (query_vector : list float)
      (collection_name : option string)
      (filter_params : option (dict Value)) (top_k : Z)
      (score_threshold : option float)
      (p p' : Process W) (r : outcome (list SearchResult)) :
  search_vectors C cfg query_vector collection_name filter_params top_k
                 score_threshold p = (r, p') ->
  extends no_llm p p'.
Proof.
  unfold search_vectors. revert p r p'.
  apply bind_extends.
  { intros p r p'. now apply get_qdrant_client_extends. }
  intros _. apply bind_extends.
  { intros p r p' [= <- <-]. apply extends_refl. }
  intros query_filter. apply bind_extends.
  { intros p r p'. now apply call_extends. }
  intros hits p r p' [= <- <-]. apply extends_refl.
Qed.

(** What [search_vectors] adds to the log: the connection test of a first
    use and at most one search. *)
Lemma search_vectors_log (query_vector : list float)
      (collection_name : option string)
      (filter_params : option (dict Value)) (top_k : Z)
      (score_threshold : option float)
      (p p' : Process W) (r : outcome (list SearchResult)) :
  search_vectors C cfg query_vector collection_name filter_params top_k
                 score_threshold p = (r, p') ->
  exists evs,
    log p' = (log p ++ evs)%list
    /\ Forall (fun ev => is_llm_event ev = false) evs
    /\ List.length (filter is_search_event evs) <= 1.
Proof.
  intros H. apply search_vectors_inv in H as (rc & p1 & Hclient & H).
  assert (Hc : exists evs,
             log p1 = (log p ++ evs)%list
             /\ Forall (fun ev => is_llm_event ev = false) evs
             /\ filter is_search_event evs = []).
  { apply get_qdrant_client_inv in Hclient
      as [(_ & _ & ->) | (_ & names & w' & _ & -> & _)].
    - exists []. rewrite app_nil_r. repeat split; constructor.
    - exists [EvGetCollections]. repeat split; repeat constructor. }
  destruct Hc as (evs & Hlog & Hall & Hnone).
  assert (Hstop : p' = p1 ->
                  exists evs0,
                    log p' = (log p ++ evs0)%list
                    /\ Forall (fun ev => is_llm_event ev = false) evs0
                    /\ List.length (filter is_search_event evs0) <= 1).
  { intros ->. exists evs. rewrite Hnone. repeat split; auto. }
  destruct rc as [e|[]]; [now apply Hstop|].
  destruct (query_filter_of C filter_params) as [e|query_filter];
    [now apply Hstop|].
  cbv zeta in H. destruct H as (rs & w' & _ & -> & _).
  eexists (evs ++ [_])%list. cbn [log]. rewrite Hlog, <- app_assoc.
  split; [reflexivity|]. split.
  - apply Forall_app. split; [exact Hall | now repeat constructor].
  - rewrite filter_app, Hnone. cbn. lia.
Qed.

Lemma query_qdrant_extends (query_text : string) (top_k : Z)
      (filter_params : option (dict Value))
      (score_threshold : option float)
      (p p' : Process W) (r : outcome (list Context)) :
  query_qdrant C cfg query_text top_k filter_params score_threshold p
  = (r, p') ->
  extends no_llm p p'.
Proof.
  unfold query_qdrant. revert p r p'.
  apply bind_extends.
  { intros p r p'. now apply call_extends. }
  intros qv. apply bind_extends.
  { intros p r p'. apply search_vectors_extends. }
  intros hits p r p' [= <- <-]. apply extends_refl.
Qed.

(** Claim C4.  For every query for which the search step ([query_qdrant])
    yields no result, [rag_query] returns (it does not raise) the bundle
    with the query, [sources] = [[]], [context] = [""] and the canned
    answer, which is not empty; it leaves the process as the search step
    left it, and no call belonging to answer generation has been made. *)
Theorem no_results_placeholder
        (query_text : string) (top_k : Z)
        (filter_params : option (dict Value))
        (score_threshold : option float) (is_technical : bool)
        (p p' : Process W) :
  query_qdrant C cfg query_text top_k filter_params score_threshold p
  = (inr [], p') ->
  rag_query C F cfg query_text top_k filter_params score_threshold
            is_technical p
  = (inr (mkResponse query_text "" [] (Some NO_RESULTS_ANSWER)), p')
  /\ NO_RESULTS_ANSWER <> ""
  /\ exists evs,
       log p' = (log p ++ evs)%list
       /\ Forall (fun ev => is_llm_event ev = false) evs.
Proof.
  intros H. split; [|split].
  - unfold rag_query. now rewrite (bind_run _ _ _ _ _ H).
  - discriminate.
  - apply query_qdrant_extends in H as (evs & Hlog & Hall).
    exists evs. split; [exact Hlog|].
    eapply Forall_impl; [|exact Hall].
    intros ev. unfold no_llm. now destruct (is_llm_event ev).
Qed.

(** Claim C5, as the code has it.  When the query has been embedded and
    the search step raises, [rag_query] returns no bundle: the exception
    leaves [rag_query] unchanged, in the state the failed step left.  It
    was raised by a call to the client (the connection test of a first
    use, or the search) or by the library while it built the filter from
    [filter_params]; there is no second attempt (at most one search has
    been made) and no call belonging to answer generation. *)
Theorem search_failure_reaches_caller
        (query_text : string) (top_k : Z)
        (filter_params : option (dict Value))
        (score_threshold : option float) (is_technical : bool)
        (query_vector : list float) (e : exn) (p p1 p2 : Process W) :
  call (EvEmbedQuery query_text) (embed_query C query_text) p
  = (inr query_vector, p1) ->
  search_vectors C cfg query_vector (Some (COLLECTION_NAME cfg))
                 filter_params top_k score_threshold p1 = (inl e, p2) ->
  rag_query C F cfg query_text top_k filter_params score_threshold
            is_technical p
  = (inl e, p2)
  /\ (client_raises C e \/ filter_raises C filter_params e)
  /\ exists evs,
       log p2 = (log p ++ evs)%list
       /\ Forall (fun ev => is_llm_event ev = false) evs
       /\ List.length (filter is_search_event evs) <= 1.
Proof.
  intros Hembed Hsearch.
  assert (Hq : query_qdrant C cfg query_text top_k filter_params
                            score_threshold p = (inl e, p2)).
  { unfold query_qdrant. rewrite (bind_run _ _ _ _ _ Hembed).
    now rewrite (bind_fail _ _ _ _ _ Hsearch). }
  split; [|split].
  - unfold rag_query. now rewrite (bind_fail _ _ _ _ _ Hq).
  - eapply search_vectors_raises; eauto.
  - apply search_vectors_log in Hsearch as (evs & Hlog & Hall & Hone).
    apply call_inv in Hembed as (w1 & _ & ->). cbn [log] in Hlog.
    exists (EvEmbedQuery query_text :: evs).
    split; [now rewrite Hlog, <- app_assoc|].
    split; [now constructor | exact Hone].
Qed.

(** Claim C7, as the code has it.  For every query whose search step
    returned at least one result and whose context has been assembled,
    once [get_llm_chain] has returned: if it returned a chain and the
    chain's [run] raises an instance of [Exception], [rag_query] returns
    the bundle with [answer] =
    ["Error generating answer based on the retrieved context."]; if it
    returned no chain (the collaborator is unavailable), [rag_query]
    returns the bundle without an [answer].  In both cases the bundle has
    the query, the assembled context and the sources of the results, and
    nothing is raised.  An exception of [run] that is not an instance of
    [Exception] (a keyboard interrupt, an exit) is not absorbed: it
    leaves [rag_query], and no bundle is returned. *)
Theorem generation_failure_absorbed
        (query_text : string) (top_k : Z)
        (filter_params : option (dict Value))
        (score_threshold : option float) (is_technical : bool)
        (result : Context) (rest : list Context) (context : string)
        (chain : option LLMChain) (p p1 p2 p3 : Process W) :
  let results := result :: rest in
  query_qdrant C cfg query_text top_k filter_params score_threshold p
  = (inr results, p1) ->
  format_context F results = inr context ->
  get_llm_chain C cfg is_technical p1 = (inr chain, p2) ->
  (answer_generation_fails C chain context query_text p2 p3 ->
   rag_query C F cfg query_text top_k filter_params score_threshold
             is_technical p
   = (inr (mkResponse query_text context (map c_source results)
                      match chain with
                      | Some _ => Some ANSWER_ERROR
                      | None => None
                      end), p3))
  /\ (forall (ch : LLMChain) (e : exn),
        chain = Some ch ->
        is_Exception e = false ->
        call (EvRunChain (technical_prompt ch) context query_text)
             (run_chain C (technical_prompt ch) context query_text) p2
        = (inl e, p3) ->
        rag_query C F cfg query_text top_k filter_params score_threshold
                  is_technical p
        = (inl e, p3)).
Proof.
  intros results Hq Hctx Hchain. subst results.
  assert (Hl : lift (W := W) (format_context F (result :: rest)) p1
               = (inr context, p1)) by (unfold lift; now rewrite Hctx).
  split.
  - intros Hfail. unfold rag_query. rewrite (bind_run _ _ _ _ _ Hq).
    rewrite (bind_run _ _ _ _ _ Hl), (bind_run _ _ _ _ _ Hchain).
    destruct chain as [ch|]; cbn in Hfail.
    + destruct Hfail as (e & He & Hrun). unfold try_except.
      now rewrite (bind_fail _ _ _ _ _ Hrun), He.
    + now subst p3.
  - intros ch e -> He Hrun. unfold rag_query.
    rewrite (bind_run _ _ _ _ _ Hq).
    rewrite (bind_run _ _ _ _ _ Hl), (bind_run _ _ _ _ _ Hchain).
    unfold try_except. now rewrite (bind_fail _ _ _ _ _ Hrun), He.
Qed.

(** Claim C10.  For every query that has been embedded and whose search
    returned [hits]: [query_qdrant] returns one entry per hit whose payload
    has a ["text"] key, in order, and nothing for the other hits; if no
    hit has the key, [rag_query] returns the empty-result bundle (no
    sources, empty context, canned answer) although the search returned
    matches; and whenever [rag_query] returns a bundle, its [sources] are
    the sources of the hits that have the key and its [context] is the
    context assembled from those hits alone. *)
Theorem hits_without_text_dropped
        (query_text : string) (top_k : Z)
        (filter_params : option (dict Value))
        (score_threshold : option float) (is_technical : bool)
        (query_vector : list float) (hits : list SearchResult)
        (p p1 p2 : Process W) :
  call (EvEmbedQuery query_text) (embed_query C query_text) p
  = (inr query_vector, p1) ->
  search_vectors C cfg query_vector (Some (COLLECTION_NAME cfg))
                 filter_params top_k score_threshold p1 = (inr hits, p2) ->
  let kept := filter has_text hits in
  query_qdrant C cfg query_text top_k filter_params score_threshold p
  = (inr (map context_of kept), p2)
  /\ (kept = [] ->
      rag_query C F cfg query_text top_k filter_params score_threshold
                is_technical p
      = (inr (mkResponse query_text "" [] (Some NO_RESULTS_ANSWER)), p2))
  /\ (forall response p3,
        rag_query C F cfg query_text top_k filter_params score_threshold
                  is_technical p = (inr response, p3) ->
        sources response
        = map (fun hit => get_default (r_payload hit) "source" (VStr ""))
              kept
        /\ format_context F (map context_of kept)
           = inr (context response)).
Proof.
  intros Hembed Hsearch kept.
  assert (Hq : query_qdrant C cfg query_text top_k filter_params
                            score_threshold p
               = (inr (map context_of kept), p2)).
  { unfold query_qdrant. rewrite (bind_run _ _ _ _ _ Hembed).
    rewrite (bind_run _ _ _ _ _ Hsearch). unfold ret.
    now rewrite contexts_of_kept. }
  split; [exact Hq|]. split.
  - intros Hkept. unfold rag_query. rewrite (bind_run _ _ _ _ _ Hq).
    now rewrite Hkept.
  - intros response p3. unfold rag_query. rewrite (bind_run _ _ _ _ _ Hq).
    destruct kept as [|k rest] eqn:Ek.
    + intros [= <- <-]. split; reflexivity.
    + cbn [map]. change (context_of k :: map context_of rest)
        with (map context_of (k :: rest)).
      intros H. apply bind_inr in H as (ctx & p4 & Hl & H).
      unfold lift in Hl. injection Hl as Hl <-.
      apply bind_inr in H as (chain & p5 & _ & H).
      assert (Hresp : sources response = map c_source (map context_of (k :: rest))
                      /\ context response = ctx).
      { destruct chain as [ch|].
        - unfold try_except in H.
          match type of H with
          | context [bind ?m ?kk p5] => destruct (bind m kk p5) as [[e|a] p6] eqn:Hb
          end.
          + destruct (is_Exception e); [|discriminate].
            injection H as <- <-. split; reflexivity.
          + injection H as <- <-.
            apply bind_inr in Hb as (ans & p7 & _ & Hb).
            injection Hb as <- <-. split; reflexivity.
        - injection H as <- <-. split; reflexivity. }
      destruct Hresp as [Hs Hc].
      split; [rewrite Hs, map_map; reflexivity | rewrite Hc; exact Hl].
Qed.

End WithCollaborators.

Lemma no_results_placeholder_witness :
  let p := start (index_of []) in
  let run := query_qdrant stub stub_config question 5 None
                          (Some 0.7%float) p in
  run = (inr [], snd run)
  /\ rag_query stub stub_formatter stub_config question 5 None
               (Some 0.7%float) false p
     = (inr (mkResponse question "" [] (Some NO_RESULTS_ANSWER)), snd run)
  /\ NO_RESULTS_ANSWER <> ""
  /\ exists evs,
       log (snd run) = (log p ++ evs)%list
       /\ Forall (fun ev => is_llm_event ev = false) evs.
Proof.
  split.
  - vm_compute. reflexivity.
  - apply (no_results_placeholder _ stub stub_formatter stub_config question
             5 None (Some 0.7%float) false (start (index_of []))).
    vm_compute. reflexivity.
Defined.

(** Claim C5 as stated fails: the search raises, and so does
    [rag_query]; no bundle is returned. *)
Lemma search_failure_is_raised :
  let run := rag_query stub stub_formatter stub_config question 5 None
                       (Some 0.7%float) false (start unreachable_index) in
  fst run = inl (Raise "ResponseHandlingException" "connection refused")
  /\ forall response : Response, fst run <> inr response.
Proof.
  cbv zeta. split; [vm_compute; reflexivity|].
  intros response H. vm_compute in H. discriminate.
Qed.

Lemma search_failure_reaches_caller_witness :
  let p := start unreachable_index in
  let e := Raise "ResponseHandlingException" "connection refused" in
  let embedded := call (EvEmbedQuery question) (embed_query stub question) p
  in
  let searched := search_vectors stub stub_config query_vector
                    (Some "cyanview_docs") None 5 (Some 0.7%float)
                    (snd embedded) in
  embedded = (inr query_vector, snd embedded)
  /\ searched = (inl e, snd searched)
  /\ rag_query stub stub_formatter stub_config question 5 None
               (Some 0.7%float) false p
     = (inl e, snd searched)
  /\ (client_raises stub e \/ filter_raises stub None e)
  /\ exists evs,
       log (snd searched) = (log p ++ evs)%list
       /\ Forall (fun ev => is_llm_event ev = false) evs
       /\ List.length (filter is_search_event evs) <= 1.
Proof.
  split; [vm_compute; reflexivity|].
  split; [vm_compute; reflexivity|].
  apply (search_failure_reaches_caller _ stub stub_formatter stub_config
           question 5 None (Some 0.7%float) false query_vector
           (Raise "ResponseHandlingException" "connection refused")
           (start unreachable_index)
           (snd (call (EvEmbedQuery question) (embed_query stub question)
                      (start unreachable_index)))).
  - vm_compute. reflexivity.
  - vm_compute. reflexivity.
Defined.

(** Claim C7 as stated fails: with the configuration's defaults there is
    no API key, the collaborator is unavailable, and the bundle of a query
    that found results carries no [answer] at all. *)
Lemma unavailable_llm_leaves_answer_out :
  let run := rag_query stub stub_formatter default_config question 5 None
                       (Some 0.7%float) false
                       (start (index_of three_matches)) in
  exists response : Response,
    fst run = inr response
    /\ sources response = [VStr "manual.pdf"; VStr "manual.pdf"]
    /\ answer response = None.
Proof.
  cbv zeta. eexists. split; [vm_compute; reflexivity|].
  split; reflexivity.
Qed.

Lemma generation_failure_absorbed_witness :
  let p := start (failing_llm three_matches) in
  let result := context_of (result_of (point 0 0.95%float "a")) in
  let rest := [context_of (result_of (point 1 0.72%float "b"))] in
  let context :=
    "[Source: manual.pdf, Score: 0.00]" ++ nl ++ "a" ++ nl ++ nl ++ nl
    ++ "[Source: manual.pdf, Score: 0.00]" ++ nl ++ "b" ++ nl ++ nl in
  let queried := query_qdrant stub stub_config question 5 None
                              (Some 0.7%float) p in
  let chained := get_llm_chain stub stub_config false (snd queried) in
  let chain := Some (mkLLMChain false) in
  let ran := call (EvRunChain false context question)
                  (run_chain stub false context question) (snd chained) in
  queried = (inr (result :: rest), snd queried)
  /\ format_context stub_formatter (result :: rest) = inr context
  /\ chained = (inr chain, snd chained)
  /\ answer_generation_fails stub chain context question (snd chained)
                             (snd ran)
  /\ ((answer_generation_fails stub chain context question (snd chained)
                               (snd ran) ->
       rag_query stub stub_formatter stub_config question 5 None
                 (Some 0.7%float) false p
       = (inr (mkResponse question context
                          [VStr "manual.pdf"; VStr "manual.pdf"]
                          (Some ANSWER_ERROR)), snd ran))
      /\ (forall (ch : LLMChain) (e : exn),
            chain = Some ch ->
            is_Exception e = false ->
            call (EvRunChain (technical_prompt ch) context question)
                 (run_chain stub (technical_prompt ch) context question)
                 (snd chained)
            = (inl e, snd ran) ->
            rag_query stub stub_formatter stub_config question 5 None
                      (Some 0.7%float) false p
            = (inl e, snd ran))).
Proof.
  split; [vm_compute; reflexivity|].
  split; [vm_compute; reflexivity|].
  split; [vm_compute; reflexivity|].
  split; [eexists; split; [|vm_compute; reflexivity]; reflexivity|].
  apply (generation_failure_absorbed _ stub stub_formatter stub_config
           question 5 None (Some 0.7%float) false
           (context_of (result_of (point 0 0.95%float "a")))
           [context_of (result_of (point 1 0.72%float "b"))]
           ("[Source: manual.pdf, Score: 0.00]" ++ nl ++ "a" ++ nl ++ nl
            ++ nl ++ "[Source: manual.pdf, Score: 0.00]" ++ nl ++ "b"
            ++ nl ++ nl)
           (Some (mkLLMChain false))
           (start (failing_llm three_matches))
           (snd (query_qdrant stub stub_config question 5 None
                              (Some 0.7%float)
                              (start (failing_llm three_matches))))
           (snd (get_llm_chain stub stub_config false
                   (snd (query_qdrant stub stub_config question 5 None
                           (Some 0.7%float)
                           (start (failing_llm three_matches))))))).
  - vm_compute. reflexivity.
  - vm_compute. reflexivity.
  - vm_compute. reflexivity.
Defined.

(** A keyboard interrupt during the run of the chain is not replaced by
    the placeholder: it leaves [rag_query]. *)
Example interrupted_generation_example :
  fst (rag_query stub stub_formatter stub_config question 5 None
                 (Some 0.7%float) false
                 (start (interrupted_llm three_matches)))
  = inl (RaiseBase "KeyboardInterrupt" "").
Proof. vm_compute. reflexivity. Qed.

(** With matches that all lack ["text"], the empty-result bundle. *)
Example bare_matches_example :
  fst (rag_query stub stub_formatter stub_config question 5 None
                 (Some 0.7%float) false (start (index_of bare_matches)))
  = inr (mkResponse question "" [] (Some NO_RESULTS_ANSWER)).
Proof. vm_compute. reflexivity. Qed.

Lemma hits_without_text_dropped_witness :
  let p := start (index_of mixed_matches) in
  let hits := map result_of mixed_matches in
  let embedded := call (EvEmbedQuery question) (embed_query stub question) p
  in
  let searched := search_vectors stub stub_config query_vector
                    (Some "cyanview_docs") None 5 (Some 0.7%float)
                    (snd embedded) in
  embedded = (inr query_vector, snd embedded)
  /\ searched = (inr hits, snd searched)
  /\ (let kept := filter has_text hits in
      query_qdrant stub stub_config question 5 None (Some 0.7%float) p
      = (inr (map context_of kept), snd searched)
      /\ (kept = [] ->
          rag_query stub stub_formatter stub_config question 5 None
                    (Some 0.7%float) false p
          = (inr (mkResponse question "" [] (Some NO_RESULTS_ANSWER)),
             snd searched))
      /\ (forall response p3,
            rag_query stub stub_formatter stub_config question 5 None
                      (Some 0.7%float) false p = (inr response, p3) ->
            sources response
            = map (fun hit => get_default (r_payload hit) "source" (VStr ""))
                  kept
            /\ format_context stub_formatter (map context_of kept)
               = inr (context response))).
Proof.
  split; [vm_compute; reflexivity|].
  split; [vm_compute; reflexivity|].
  apply (hits_without_text_dropped _ stub stub_formatter stub_config
           question 5 None (Some 0.7%float) false query_vector
           (map result_of mixed_matches)
           (start (index_of mixed_matches))
           (snd (call (EvEmbedQuery question) (embed_query stub question)
                      (start (index_of mixed_matches))))).
  - vm_compute. reflexivity.
  - vm_compute. reflexivity.
Defined.

End QueryFacts.

(* ================================================================== *)
(** * Batches, and the write path of the Vector Index *)
(* ================================================================== *)

Module PyMoreFacts.
Import Py PyMore Effects EffectsFacts.

Lemma list_slice_batch {A} (xs : list A) (i : nat) (step : Z) :
  (0 < step)%Z -> i <= List.length xs ->
  list_slice xs (Z.of_nat i) (Z.of_nat i + step)
  = firstn (Z.to_nat step) (skipn i xs).
Proof.
  intros Hstep Hi. unfold list_slice, clamp.
  destruct (Z.of_nat i <? 0)%Z eqn:E1; [apply Z.ltb_lt in E1; lia|].
  destruct (Z.of_nat i + step <? 0)%Z eqn:E2; [apply Z.ltb_lt in E2; lia|].
  rewrite (Z.min_l (Z.of_nat i)) by lia. rewrite Nat2Z.id.
  destruct (Z.le_gt_cases (Z.of_nat i + step) (Z.of_nat (List.length xs)))
    as [Hle|Hgt].
  - rewrite Z.min_l by lia. f_equal. lia.
  - rewrite Z.min_r by lia.
    rewrite !firstn_all2; [reflexivity | |]; rewrite length_skipn; lia.
Qed.

Lemma range_up_done (fuel i stop step : nat) :
  stop <= i -> range_up fuel i stop step = [].
Proof.
  intros H. destruct fuel as [|fuel]; [reflexivity|]. cbn [range_up].
  destruct (i <? stop)%nat eqn:E; [apply Nat.ltb_lt in E; lia | reflexivity].
Qed.

(** The batches from offset [i] on make up the rest of the list. *)
Lemma batches_from (A : Type) (xs : list A) (step : Z) :
  (0 < step)%Z ->
  forall fuel i,
    i <= List.length xs -> List.length xs - i <= fuel ->
    let batches :=
      map (fun k => list_slice xs (Z.of_nat k) (Z.of_nat k + step))
          (range_up fuel i (List.length xs) (Z.to_nat step)) in
    List.concat batches = skipn i xs
    /\ Forall (fun b => b <> []
                        /\ (Z.of_nat (List.length b) <= step)%Z) batches
    /\ Z.of_nat (List.length batches)
       = ((Z.of_nat (List.length xs - i) + step - 1) / step)%Z.
Proof.
  intros Hstep. induction fuel as [|fuel IH]; intros i Hi Hfuel; cbv zeta.
  - cbn [range_up map List.concat List.length].
    assert (i = List.length xs) by lia. subst i.
    rewrite skipn_all. split; [reflexivity|]. split; [constructor|].
    rewrite Nat.sub_diag. cbn [Z.of_nat].
    symmetry. apply Z.div_small. lia.
  - cbn [range_up]. destruct (i <? List.length xs)%nat eqn:E.
    + apply Nat.ltb_lt in E. cbn [map List.concat List.length].
      rewrite list_slice_batch by lia.
      assert (Hhead : firstn (Z.to_nat step) (skipn i xs) <> []
                      /\ (Z.of_nat (List.length
                            (firstn (Z.to_nat step) (skipn i xs)))
                          <= step)%Z).
      { rewrite length_firstn, length_skipn. split; [|lia].
        intros H. apply (f_equal (@List.length A)) in H.
        rewrite length_firstn, length_skipn in H. cbn in H. lia. }
      destruct (Nat.le_gt_cases (i + Z.to_nat step) (List.length xs))
        as [Hin|Hout].
      * destruct (IH (i + Z.to_nat step)) as (Hc & Hall & Hlen);
          [lia | lia |].
        split; [|split].
        -- rewrite Hc, (Nat.add_comm i), <- skipn_skipn.
           apply firstn_skipn.
        -- now constructor.
        -- rewrite Nat2Z.inj_succ, Hlen.
           replace (Z.of_nat (List.length xs - i) + step - 1)%Z
             with (Z.of_nat (List.length xs - (i + Z.to_nat step))
                   + step - 1 + 1 * step)%Z by lia.
           rewrite Z.div_add by lia. lia.
      * rewrite range_up_done by lia. cbn [map List.concat List.length].
        rewrite app_nil_r.
        split; [|split].
        -- apply firstn_all2. rewrite length_skipn. lia.
        -- constructor; [exact Hhead | constructor].
        -- apply Z.div_unique with
             (r := (Z.of_nat (List.length xs - i) - 1)%Z); lia.
    + apply Nat.ltb_ge in E. assert (i = List.length xs) by lia. subst i.
      cbn [map List.concat List.length].
      rewrite skipn_all. split; [reflexivity|]. split; [constructor|].
      rewrite Nat.sub_diag. cbn [Z.of_nat].
      symmetry. apply Z.div_small. lia.
Qed.

(** Extra X2.  With a positive batch size, the batches that
    [store_embeddings] uploads and that [embed_documents] encodes are not
    empty, hold at most [batch_size] elements, number
    ceil(len / batch_size), and put end to end are the whole list in its
    order: no element is skipped, sent twice or moved. *)
Theorem batches_cover_the_list {A} (xs : list A) (batch_size : Z) :
  (0 < batch_size)%Z ->
  exists batches,
    batches_of xs batch_size = inr batches
    /\ List.concat batches = xs
    /\ Forall (fun b => b <> []
                        /\ (Z.of_nat (List.length b) <= batch_size)%Z)
              batches
    /\ Z.of_nat (List.length batches)
       = ((Z.of_nat (List.length xs) + batch_size - 1) / batch_size)%Z.
Proof.
  intros Hpos. unfold batches_of, range0.
  destruct (batch_size =? 0)%Z eqn:E0; [apply Z.eqb_eq in E0; lia|].
  destruct (batch_size <? 0)%Z eqn:E1; [apply Z.ltb_lt in E1; lia|].
  eexists. split; [reflexivity|].
  destruct (batches_from A xs batch_size Hpos (List.length xs) 0)
    as (Hc & Hall & Hlen); [lia | lia |].
  rewrite Nat.sub_0_r in Hlen. now repeat split.
Qed.

Lemma batches_cover_the_list_witness :
  (0 < 2)%Z
  /\ exists batches,
       batches_of [10; 20; 30; 40; 50] 2 = inr batches
       /\ List.concat batches = [10; 20; 30; 40; 50]
       /\ Forall (fun b => b <> []
                           /\ (Z.of_nat (List.length b) <= 2)%Z) batches
       /\ Z.of_nat (List.length batches)
          = ((Z.of_nat (List.length [10; 20; 30; 40; 50]) + 2 - 1) / 2)%Z.
Proof.
  split; [lia|].
  apply (batches_cover_the_list [10; 20; 30; 40; 50] 2). lia.
Defined.

(** Five elements in batches of two. *)
Example batches_example :
  batches_of [10; 20; 30; 40; 50] 2 = inr [[10; 20]; [30; 40]; [50]].
Proof. vm_compute. reflexivity. Qed.

Lemma batches_of_zero {A} (xs : list A) :
  batches_of xs 0 = inl (Raise "ValueError" "range() arg 3 must not be zero").
Proof. reflexivity. Qed.

Lemma batches_of_negative {A} (xs : list A) (batch_size : Z) :
  (batch_size < 0)%Z -> batches_of xs batch_size = inr [].
Proof.
  intros H. unfold batches_of, range0.
  destruct (batch_size =? 0)%Z eqn:E0; [apply Z.eqb_eq in E0; lia|].
  destruct (batch_size <? 0)%Z eqn:E1; [reflexivity|].
  apply Z.ltb_ge in E1. lia.
Qed.

Lemma perform_inv {W A} (op : W -> outcome A * W) (p p' : Process W)
      (r : outcome A) :
  perform op p = (r, p') ->
  exists w', op (world p) = (r, w')
             /\ p' = mkProcess w' (manager_instance p) (log p).
Proof.
  unfold perform. destruct (op (world p)) as [r0 w'].
  intros [= <- <-]. now exists w'.
Qed.

(** A loop that fails at some element stops there. *)
Lemma for_each_stops {W A} (body : A -> M W unit) (before after : list A)
      (x : A) (e : exn) (p p1 p2 : Process W) :
  for_each before body p = (inr tt, p1) ->
  body x p1 = (inl e, p2) ->
  for_each (before ++ x :: after)%list body p = (inl e, p2).
Proof.
  revert p. induction before as [|y before IH]; intros p Hbefore Hx.
  - injection Hbefore as <-. cbn [app for_each].
    now rewrite (bind_fail _ _ _ _ _ Hx).
  - cbn [app for_each] in *.
    destruct (body y p) as [[e'|[]] p'] eqn:Ey.
    + rewrite (bind_fail _ _ _ _ _ Ey) in Hbefore. discriminate.
    + rewrite (bind_run _ _ _ _ _ Ey) in Hbefore.
      rewrite (bind_run _ _ _ _ _ Ey). now apply IH.
Qed.

End PyMoreFacts.

Module StoreFacts.
Import Py PyMore Qdrant Effects EffectsFacts Collection Store Doubles Plant
       PyMoreFacts.

Lemma points_from_facts (i : nat) (pairs : list (list float * dict Value)) :
  map point_id (points_from i pairs)
  = map Z.of_nat (seq i (List.length pairs))
  /\ map point_vector (points_from i pairs) = map fst pairs
  /\ map point_payload (points_from i pairs) = map snd pairs.
Proof.
  revert i. induction pairs as [|[v pl] rest IH]; intros i.
  - repeat split.
  - destruct (IH (S i)) as (H1 & H2 & H3).
    cbn [points_from map List.length seq point_id point_vector point_payload
         fst snd].
    now rewrite H1, H2, H3.
Qed.

(** Extra X1.  [store_embeddings] numbers its points 0, 1, 2, ... in
    input order and gives the i-th point the i-th vector and the i-th
    payload; when the two lists differ in length, what the longer one has
    beyond the shorter is left out, without any error. *)
Theorem points_numbered_in_order (vectors : list (list float))
        (payloads : list (dict Value)) :
  let n := Nat.min (List.length vectors) (List.length payloads) in
  let points := points_of vectors payloads in
  map point_id points = map Z.of_nat (seq 0 n)
  /\ map point_vector points = firstn n vectors
  /\ map point_payload points = firstn n payloads.
Proof.
  cbv zeta. unfold points_of.
  destruct (points_from_facts 0 (combine vectors payloads)) as (H1 & H2 & H3).
  rewrite H1, H2, H3, length_combine.
  split; [reflexivity|].
  split.
  - clear. revert payloads.
    induction vectors as [|v vs IH]; intros [|q qs]; cbn; try reflexivity.
    now rewrite IH.
  - clear. revert payloads.
    induction vectors as [|v vs IH]; intros [|q qs]; cbn; try reflexivity.
    now rewrite IH.
Qed.

Section WithCollaborators.
Variable W : Type.
Variable C : Collaborators W.
Variable S : StoreClient W.
Variable cfg : Config.

(** Extra X3.  Once the client is there, a batch size of 0 makes
    [store_embeddings] raise [ValueError] before anything is uploaded,
    and a negative batch size makes it upload nothing at all: it goes
    straight to the status check and returns normally when that check
    succeeds, whatever the vectors and payloads. *)
Theorem store_embeddings_without_batches
        (vectors : list (list float)) (payloads : list (dict Value))
        (collection_name : option string) (batch_size : Z)
        (p p1 : Process W) :
  get_qdrant_client C p = (inr tt, p1) ->
  (batch_size = 0%Z ->
   store_embeddings C S cfg vectors payloads collection_name batch_size p
   = (inl (Raise "ValueError" "range() arg 3 must not be zero"), p1))
  /\ ((batch_size < 0)%Z ->
      forall (status : string) (p2 : Process W),
        perform (get_collection S (or_default cfg collection_name)) p1
        = (inr status, p2) ->
        store_embeddings C S cfg vectors payloads collection_name
                         batch_size p
        = (inr tt, p2)).
Proof.
  intros Hclient. unfold store_embeddings.
  rewrite (bind_run _ _ _ _ _ Hclient). split.
  - intros ->. reflexivity.
  - intros Hneg status p2 Hstatus.
    rewrite batches_of_negative by assumption.
    unfold lift, bind at 1. cbn [upload for_each].
    unfold bind at 1, ret at 1.
    now rewrite (bind_run _ _ _ _ _ Hstatus).
Qed.

(** Extra X4.  When the upload of a batch raises, [store_embeddings]
    raises that exception at once, in the state the failed call left:
    the batches before it stay uploaded (nothing is rolled back), the
    batches after it are not attempted, and the status check is not
    made. *)
Theorem store_embeddings_keeps_earlier_batches
        (vectors : list (list float)) (payloads : list (dict Value))
        (collection_name : option string) (batch_size : Z)
        (before after : list (list PointStruct)) (batch : list PointStruct)
        (e : exn) (p p1 p2 p3 : Process W) :
  get_qdrant_client C p = (inr tt, p1) ->
  batches_of (points_of vectors payloads) batch_size
  = inr (before ++ batch :: after)%list ->
  upload S (or_default cfg collection_name) before p1 = (inr tt, p2) ->
  perform (upsert S (or_default cfg collection_name) batch) p2
  = (inl e, p3) ->
  store_embeddings C S cfg vectors payloads collection_name batch_size p
  = (inl e, p3).
Proof.
  intros Hclient Hbatches Hbefore Hbatch. unfold store_embeddings.
  rewrite (bind_run _ _ _ _ _ Hclient), Hbatches.
  unfold lift, bind at 1.
  apply bind_fail. unfold upload in *.
  eapply for_each_stops; eauto.
Qed.

End WithCollaborators.

Lemma store_embeddings_without_batches_witness :
  let p := mkProcess (new_site 10 false) true [] in
  get_qdrant_client site p = (inr tt, p)
  /\ ((-1 = 0)%Z ->
      store_embeddings site site_store stub_config vectors3 payloads3 None (-1)
                       p
      = (inl (Raise "ValueError" "range() arg 3 must not be zero"), p))
  /\ ((-1 < 0)%Z ->
      forall (status : string) (p2 : Process Site),
        perform (get_collection site_store (or_default stub_config None)) p
        = (inr status, p2) ->
        store_embeddings site site_store stub_config vectors3 payloads3 None
                         (-1) p
        = (inr tt, p2)).
Proof.
  split; [reflexivity|].
  apply (store_embeddings_without_batches _ site site_store stub_config
           vectors3 payloads3 None (-1)
           (mkProcess (new_site 10 false) true [])
           (mkProcess (new_site 10 false) true [])).
  reflexivity.
Defined.

(** With a negative batch size nothing reaches the store. *)
Example negative_batch_size_uploads_nothing :
  store_embeddings site site_store stub_config vectors3 payloads3 None (-1)
                   (mkProcess (new_site 10 false) true [])
  = (inr tt, mkProcess (new_site 10 false) true []).
Proof. vm_compute. reflexivity. Qed.

(** Three points in batches of two, and room for two points only. *)
Lemma store_embeddings_keeps_earlier_batches_witness :
  let p := mkProcess (new_site 2 false) true [] in
  let points := points_of vectors3 payloads3 in
  let first := firstn 2 points in
  let last := skipn 2 points in
  let e := Raise "UnexpectedResponse" "storage full" in
  let p2 := mkProcess (mkSite (index_of []) [("cyanview_docs", first)] 2
                              false) true [] in
  get_qdrant_client site p = (inr tt, p)
  /\ batches_of points 2 = inr ([first] ++ last :: [])%list
  /\ upload site_store (or_default stub_config None) [first] p = (inr tt, p2)
  /\ perform (upsert site_store (or_default stub_config None) last) p2
     = (inl e, p2)
  /\ store_embeddings site site_store stub_config vectors3 payloads3 None 2 p
     = (inl e, p2).
Proof.
  split; [reflexivity|]. split; [vm_compute; reflexivity|].
  split; [vm_compute; reflexivity|]. split; [vm_compute; reflexivity|].
  apply (store_embeddings_keeps_earlier_batches _ site site_store stub_config
           vectors3 payloads3 None 2
           [firstn 2 (points_of vectors3 payloads3)] []
           (skipn 2 (points_of vectors3 payloads3))
           (Raise "UnexpectedResponse" "storage full")
           (mkProcess (new_site 2 false) true [])
           (mkProcess (new_site 2 false) true [])
           (mkProcess (mkSite (index_of [])
                         [("cyanview_docs",
                           firstn 2 (points_of vectors3 payloads3))] 2
                         false) true [])).
  - reflexivity.
  - vm_compute. reflexivity.
  - vm_compute. reflexivity.
  - vm_compute. reflexivity.
Defined.

End StoreFacts.

Module EmbedderFacts.
Import Py PyMore Effects EffectsFacts Embedder Doubles Plant PyMoreFacts.

Section WithModel.
Variable W : Type.
Variable E : Model W.

Lemma encode_batches_map (f : string -> list float) :
  (forall texts w, fst (encode E texts w) = inr (map f texts)) ->
  forall batches embeddings p,
  exists p',
    encode_batches E batches embeddings p
    = (inr (embeddings ++ map f (List.concat batches))%list, p').
Proof.
  intros Hf. induction batches as [|b rest IH]; intros embeddings p.
  - exists p. cbn. now rewrite app_nil_r.
  - cbn [encode_batches List.concat].
    destruct (perform (encode E b) p) as [r p1] eqn:Hp.
    pose proof Hp as Hp'. apply perform_inv in Hp' as (w' & Hop & _).
    specialize (Hf b (world p)). rewrite Hop in Hf. cbn in Hf. subst r.
    rewrite (bind_run _ _ _ _ _ Hp).
    destruct (IH (embeddings ++ map f b)%list p1) as (p' & ->).
    exists p'. now rewrite map_app, app_assoc.
Qed.

(** Extra X5.  If the model embeds every text on its own, whatever the
    batch it comes in, then [embed_documents] with a positive batch size
    returns one embedding per document, in the order of the documents:
    the batching does not show in the result. *)
Theorem embed_documents_text_by_text
        (f : string -> list float) (documents : list string)
        (batch_size : Z) (p : Process W) :
  (forall texts w, fst (encode E texts w) = inr (map f texts)) ->
  (0 < batch_size)%Z ->
  exists p',
    embed_documents E documents batch_size p = (inr (map f documents), p').
Proof.
  intros Hf Hpos. unfold embed_documents, batches_of, range0.
  destruct (batch_size =? 0)%Z eqn:E0; [apply Z.eqb_eq in E0; lia|].
  destruct (batch_size <? 0)%Z eqn:E1; [apply Z.ltb_lt in E1; lia|].
  destruct (batches_from _ documents batch_size Hpos
              (List.length documents) 0) as (Hc & _); [lia | lia |].
  unfold lift, bind.
  match goal with
  | |- context [encode_batches E ?bs [] p] =>
      destruct (encode_batches_map f Hf bs [] p) as (p' & Hrun)
  end.
  exists p'. rewrite Hrun. cbn [skipn] in Hc. now rewrite Hc.
Qed.

End WithModel.

Lemma embed_documents_text_by_text_witness :
  let p := mkProcess (new_site 10 false) true [] in
  let documents := ["a"; "b"; "c"] in
  (forall texts w, fst (encode steady_model texts w)
                   = inr (map embedding texts))
  /\ (0 < 2)%Z
  /\ exists p',
       embed_documents steady_model documents 2 p
       = (inr (map embedding documents), p').
Proof.
  split; [reflexivity|]. split; [lia|].
  apply (embed_documents_text_by_text _ steady_model embedding
           ["a"; "b"; "c"] 2 (mkProcess (new_site 10 false) true [])).
  - reflexivity.
  - lia.
Defined.

End EmbedderFacts.

(* ================================================================== *)
(** * Ingestion: payloads and the order of the steps *)
(* ================================================================== *)

Module IngestFacts.
Import Py PyFacts PyMore Qdrant Effects EffectsFacts TextSplitter Collection
       Query Store Embedder DocumentLoader Ingest Stated Doubles Plant
       PyMoreFacts TextSplitterFacts.

Lemma get_none_has_key {V} (d : dict V) (k : string) :
  has_key d k = false -> get d k = None.
Proof. unfold has_key. now destruct (get d k). Qed.

(** What the loop over the metadata items adds: a key the payload has
    stays as it is, ["page_content"] is never added, every other key comes
    with the value the metadata has for it. *)
Lemma add_items_get (items payload : dict Value) (k : string) :
  get (add_items items payload) k
  = match get payload k with
    | Some v => Some v
    | None => if String.eqb k "page_content" then None else get items k
    end.
Proof.
  revert payload. induction items as [|[k0 v0] rest IH]; intros payload.
  - cbn. destruct (get payload k); [reflexivity|].
    now destruct (String.eqb k "page_content").
  - unfold add_items in *. cbn [fold_left fst snd]. rewrite IH. clear IH.
    cbn [get].
    destruct (String.eqb k0 k) eqn:Ek.
    + apply String.eqb_eq in Ek. subst k0.
      destruct (has_key payload k) eqn:Hk; cbn [negb andb].
      * unfold has_key in Hk. destruct (get payload k); [reflexivity|].
        discriminate.
      * rewrite (get_none_has_key _ _ Hk).
        destruct (String.eqb k "page_content") eqn:Ep; cbn [negb].
        -- now rewrite (get_none_has_key _ _ Hk).
        -- now rewrite get_set_same.
    + assert (Hne : k0 <> k) by (now apply String.eqb_neq).
      destruct (negb (has_key payload k0)
                && negb (String.eqb k0 "page_content")); [|reflexivity].
      now rewrite get_set_other.
Qed.

(** Extra X6.  The payload [process_documents] builds for a chunk always
    has the four keys ["text"], ["source"], ["chunk"] and
    ["chunk_total"]: the text is the chunk's text (a metadata entry named
    ["text"] cannot replace it), and the other three are the chunk's
    metadata when it has them and ["chunk_<i>"], 0 and 1 otherwise.  It
    never has a ["page_content"] key, and every other key of the metadata
    is carried over with its value. *)
Theorem payload_fields (i : nat) (chunk : Document) :
  let payload := build_payload i chunk in
  get payload "text" = Some (VStr (page_content chunk))
  /\ get payload "source"
     = Some (get_default (metadata chunk) "source"
                         (VStr ("chunk_" ++ str_of_nat i)))
  /\ get payload "chunk"
     = Some (get_default (metadata chunk) "chunk" (VInt 0))
  /\ get payload "chunk_total"
     = Some (get_default (metadata chunk) "chunk_total" (VInt 1))
  /\ get payload "page_content" = None
  /\ forall k,
       ~ In k ["text"; "source"; "chunk"; "chunk_total"; "page_content"] ->
       get payload k = get (metadata chunk) k.
Proof.
  cbv zeta. unfold build_payload.
  repeat split; try (rewrite add_items_get; reflexivity).
  intros k Hk. rewrite add_items_get.
  unfold base_payload. cbn [get].
  destruct (String.eqb "text" k) eqn:E1;
    [apply String.eqb_eq in E1; subst k; exfalso; apply Hk; cbn; tauto|].
  destruct (String.eqb "source" k) eqn:E2;
    [apply String.eqb_eq in E2; subst k; exfalso; apply Hk; cbn; tauto|].
  destruct (String.eqb "chunk" k) eqn:E3;
    [apply String.eqb_eq in E3; subst k; exfalso; apply Hk; cbn; tauto|].
  destruct (String.eqb "chunk_total" k) eqn:E4;
    [apply String.eqb_eq in E4; subst k; exfalso; apply Hk; cbn; tauto|].
  destruct (String.eqb k "page_content") eqn:E5;
    [apply String.eqb_eq in E5; subst k; exfalso; apply Hk; cbn; tauto|].
  reflexivity.
Qed.

(** Extra X7.  What ingestion stores, retrieval gives back: a hit whose
    payload was built by [process_documents] from a chunk is never dropped
    by [query_qdrant], and its entry has the chunk's text, the chunk's
    source (or ["chunk_<i>"]), the chunk's product (or [""]), and the
    hit's score and identifier. *)
Theorem ingested_chunk_is_retrieved (i : nat) (chunk : Document)
        (hit_id : Z) (hit_score : float) :
  contexts_of [mkSearchResult hit_id hit_score (build_payload i chunk)]
  = [mkContext (VStr (page_content chunk))
               (get_default (metadata chunk) "source"
                            (VStr ("chunk_" ++ str_of_nat i)))
               (get_default (metadata chunk) "product" (VStr ""))
               hit_score hit_id].
Proof.
  cbn [contexts_of r_payload r_score r_id].
  unfold has_key, get_default at 1 2 3. unfold build_payload.
  rewrite !add_items_get. reflexivity.
Qed.

Lemma int_at_payload (i : nat) (chunk : Document) (k : string) (z : Z) :
  k = "chunk" \/ k = "chunk_total" ->
  int_at (metadata chunk) k = Some z ->
  int_at (build_payload i chunk) k = Some z.
Proof.
  intros Hk Hz. unfold int_at in *. unfold build_payload.
  rewrite add_items_get. unfold base_payload, get_default.
  destruct Hk as [-> | ->]; cbn [get String.eqb Ascii.eqb Bool.eqb].
  - destruct (get (metadata chunk) "chunk") as [[]|]; congruence.
  - destruct (get (metadata chunk) "chunk_total") as [[]|]; congruence.
Qed.

Section AnySplitter.
Variable splitter : Z -> Z -> list string -> string -> list string.

Lemma payloads_from_int_at (k : string) (chunks : list Document) :
  k = "chunk" \/ k = "chunk_total" ->
  Forall (fun c => exists z, int_at (metadata c) k = Some z) chunks ->
  forall i,
    map (fun payload => int_at payload k) (payloads_from i chunks)
    = map (fun c => int_at (metadata c) k) chunks.
Proof.
  intros Hk. induction 1 as [|c rest (z & Hz) _ IH]; intros i;
    [reflexivity|].
  cbn [payloads_from map]. rewrite IH. f_equal.
  rewrite Hz. now apply int_at_payload.
Qed.

(** Extra X8.  The payloads built for the chunks of one document carry
    the chunk ordinals the splitter step assigned: one payload per chunk,
    ["chunk"] = 0, 1, ..., n - 1 in order and ["chunk_total"] = n, the
    number of chunks of the document. *)
Theorem payloads_carry_chunk_ordinals (chunk_size chunk_overlap : Z)
        (doc : Document) (i : nat) :
  let chunks := split_document splitter chunk_size chunk_overlap doc in
  let payloads := payloads_from i chunks in
  let n := List.length chunks in
  List.length payloads = n
  /\ map (fun payload => int_at payload "chunk") payloads
     = map (fun k => Some (Z.of_nat k)) (seq 0 n)
  /\ map (fun payload => int_at payload "chunk_total") payloads
     = map (fun _ => Some (Z.of_nat n)) chunks.
Proof.
  cbv zeta. unfold split_document.
  set (pieces := splitter chunk_size chunk_overlap separators
                          (page_content doc)).
  pose proof (emit_chunks_total doc (List.length pieces) 0 pieces) as Htotal.
  pose proof (emit_chunks_ordinals doc (List.length pieces) 0 pieces)
    as Hord.
  pose proof (emit_chunks_bounded doc (List.length pieces) 0 pieces
                (Nat.le_refl _)) as Hex.
  rewrite (emit_chunks_length doc (List.length pieces) 0 pieces).
  set (chunks := emit_chunks doc (List.length pieces) 0 pieces) in *.
  split; [|split].
  - rewrite <- (emit_chunks_length doc (List.length pieces) 0 pieces).
    fold chunks. clearbody chunks. clear. revert i.
    induction chunks as [|c rest IH]; intros i; cbn; [reflexivity|].
    now rewrite IH.
  - rewrite payloads_from_int_at; [exact Hord | now left |].
    eapply Forall_impl; [|exact Hex]. intros c (k & n & Hk & _). now exists k.
  - rewrite payloads_from_int_at; [|now right|].
    + apply map_ext_in. intros c Hin. rewrite Forall_forall in Htotal.
      now apply Htotal.
    + eapply Forall_impl; [|exact Hex].
      intros c (k & n & _ & Hn & _). now exists n.
Qed.

End AnySplitter.

Section WithCollaborators.
Variable W : Type.
Variable C : Collaborators W.
Variable S : StoreClient W.
Variable E : Model W.
Variable FS : Files W.
Variable splitter : Z -> Z -> list string -> string -> list string.
Variable cfg : Config.
Variable chunking : ChunkConfig.

(** Extra X9.  [process_documents] creates the collection (dropping an
    existing one when [recreate] is set) before it embeds anything: when
    the documents are loaded, the embedder is built, [create_collection]
    returns and the embedding of the chunk texts then raises,
    [process_documents] raises that exception with the collection already
    created, and nothing is uploaded. *)
Theorem collection_recreated_before_embedding
        (docs_dir : string) (recreate : bool)
        (documents : list Document) (embedding_dim : Z) (e : exn)
        (p p1 p2 p3 p4 : Process W) :
  load_documents FS docs_dir p = (inr documents, p1) ->
  DocumentEmbedder E p1 = (inr embedding_dim, p2) ->
  create_collection C cfg embedding_dim None recreate p2 = (inr tt, p3) ->
  embed_documents E
    (map page_content
         (split_documents splitter documents (CHUNK_SIZE chunking)
                          (CHUNK_OVERLAP chunking)))
    32 p3 = (inl e, p4) ->
  process_documents C S E FS splitter cfg chunking docs_dir recreate p
  = (inl e, p4).
Proof.
  intros Hload Hmodel Hcreate Hembed. unfold process_documents.
  rewrite (bind_run _ _ _ _ _ Hload), (bind_run _ _ _ _ _ Hmodel).
  rewrite (bind_run _ _ _ _ _ Hcreate).
  now rewrite (bind_fail _ _ _ _ _ Hembed).
Qed.

End WithCollaborators.

(** A stored payload: the loader's extra keys come along. *)
Example payload_example :
  build_payload 4 (mkDocument "The RCP."
                     [("source", VStr "guide.txt"); ("product", VStr "RCP");
                      ("chunk", VInt 0); ("chunk_total", VInt 1);
                      ("text", VStr "other"); ("page_content", VStr "x")])
  = [("text", VStr "The RCP."); ("source", VStr "guide.txt");
     ("chunk", VInt 0); ("chunk_total", VInt 1); ("product", VStr "RCP")].
Proof. vm_compute. reflexivity. Qed.

Lemma collection_recreated_before_embedding_witness :
  let p := mkProcess (new_site 10 true) false [] in
  let loaded := load_documents site_files "docs" p in
  let documents := match fst loaded with inr d => d | inl _ => [] end in
  let built := DocumentEmbedder site_model (snd loaded) in
  let created := create_collection site stub_config 3 None true (snd built)
  in
  let embedded :=
    embed_documents site_model
      (map page_content
           (split_documents whole_splitter documents
                            (CHUNK_SIZE default_chunking)
                            (CHUNK_OVERLAP default_chunking)))
      32 (snd created) in
  let e := Raise "RuntimeError" "out of memory" in
  loaded = (inr documents, snd loaded)
  /\ built = (inr 3%Z, snd built)
  /\ created = (inr tt, snd created)
  /\ embedded = (inl e, snd embedded)
  /\ process_documents site site_store site_model site_files whole_splitter
                       stub_config default_chunking "docs" true p
     = (inl e, snd embedded).
Proof.
  split; [vm_compute; reflexivity|]. split; [vm_compute; reflexivity|].
  split; [vm_compute; reflexivity|]. split; [vm_compute; reflexivity|].
  apply (collection_recreated_before_embedding _ site site_store site_model
           site_files whole_splitter stub_config default_chunking "docs" true
           (match fst (load_documents site_files "docs"
                         (mkProcess (new_site 10 true) false []))
            with inr d => d | inl _ => [] end)
           3 (Raise "RuntimeError" "out of memory")
           (mkProcess (new_site 10 true) false [])
           (snd (load_documents site_files "docs"
                   (mkProcess (new_site 10 true) false [])))
           (snd (DocumentEmbedder site_model
                   (snd (load_documents site_files "docs"
                           (mkProcess (new_site 10 true) false [])))))
           (snd (create_collection site stub_config 3 None true
                   (snd (DocumentEmbedder site_model
                           (snd (load_documents site_files "docs"
                                   (mkProcess (new_site 10 true) false
                                              []))))))));
    vm_compute; reflexivity.
Defined.

End IngestFacts.

(* ================================================================== *)
(** * Loading documents *)
(* ================================================================== *)

Module DocumentLoaderFacts.
Import Py PyFacts PyMore Effects EffectsFacts TextSplitter Metadata
       DocumentLoader Stated Doubles Plant Notions PyMoreFacts.

Lemma get_absent {V} (d : dict V) (k : string) :
  ~ In k (map fst d) -> get d k = None.
Proof.
  induction d as [|[k0 v0] d IH]; [reflexivity|].
  cbn [map fst In get]. intros H.
  destruct (String.eqb k0 k) eqn:E;
    [apply String.eqb_eq in E; tauto | apply IH; tauto].
Qed.

(** [update] with a dictionary: its entries win, the others stay. *)
Lemma get_update {V} (d other : dict V) (k : string) :
  NoDup (map fst other) ->
  get (update d other) k
  = match get other k with Some v => Some v | None => get d k end.
Proof.
  intros Hnd. revert d.
  induction other as [|[k0 v0] rest IH]; intros d; [reflexivity|].
  cbn [map fst] in Hnd. apply NoDup_cons_iff in Hnd as [Hnotin Hnd].
  unfold update in *. cbn [fold_left fst snd get]. rewrite (IH Hnd).
  destruct (String.eqb k0 k) eqn:E.
  - apply String.eqb_eq in E. subst k0.
    rewrite (get_absent _ _ Hnotin). apply get_set_same.
  - destruct (get rest k); [reflexivity|].
    apply get_set_other. now apply String.eqb_neq.
Qed.

Lemma extracted_keys (content : string) :
  NoDup (map fst (extract_metadata_from_content content))
  /\ incl (map fst (extract_metadata_from_content content))
          ["product"; "all_products"; "topic"; "all_topics"; "type"].
Proof.
  unfold extract_metadata_from_content.
  destruct (extract_product_references content) as [|p ps];
    destruct (extract_topics content) as [|t ts];
    destruct (is_qa_content content); cbn;
    (split;
     [repeat constructor; cbn; intuition discriminate
     | intros k Hk; cbn in *; intuition]).
Qed.

(** Extra X11.  In a loaded document, what the content gives wins: a key
    the Metadata Extractor emits for the text ([product], [all_products],
    [topic], [all_topics], [type]) has the extracted value even when the
    loader had set that key, e.g. an explicit [product]; ["source"] is the
    loader's value when there is one and the file path otherwise; every
    other key is as the loader left it. *)
Theorem content_metadata_wins (filepath : string) (doc : Document)
        (k : string) :
  get (metadata (add_metadata filepath doc)) k
  = match get (extract_metadata_from_content (page_content doc)) k with
    | Some v => Some v
    | None =>
        if String.eqb k "source"
        then Some (get_default (metadata doc) "source" (VStr filepath))
        else get (metadata doc) k
    end.
Proof.
  unfold add_metadata. cbn [metadata].
  rewrite get_update by apply extracted_keys.
  destruct (get (extract_metadata_from_content (page_content doc)) k);
    [reflexivity|].
  unfold has_key, get_default.
  destruct (String.eqb k "source") eqn:E.
  - apply String.eqb_eq in E. subst k.
    destruct (get (metadata doc) "source") eqn:G; cbv beta iota;
      [exact G | apply get_set_same].
  - destruct (get (metadata doc) "source"); cbv beta iota; [reflexivity|].
    apply get_set_other. intros <-. now rewrite String.eqb_refl in E.
Qed.



Section WithFiles.
Variable W : Type.
Variable FS : Files W.





End WithFiles.


(** A path that cannot be walked: what the walk raises leaves
    [load_documents]. *)
Example unwalkable_path_example :
  fst (load_documents site_files (String (ascii_of_nat 0) "docs")
                      (mkProcess (new_site 10 false) true []))
  = inl (Raise "ValueError" "embedded null byte").
Proof. vm_compute. reflexivity. Qed.

(** A keyboard interrupt during the load of a file is not skipped over:
    it leaves [load_documents]. *)
Example interrupted_load_example :
  fst (load_documents interrupted_files "docs"
                      (mkProcess (new_site 10 false) true []))
  = inl (RaiseBase "KeyboardInterrupt" "").
Proof. vm_compute. reflexivity. Qed.

(** The directory of the doubles: the text file and the JSON file are
    loaded, the image is ignored, the broken PDF is skipped; the product
    the JSON loader gave is replaced by the one the content names. *)
Example load_documents_example :
  fst (load_documents site_files "docs"
                      (mkProcess (new_site 10 false) true []))
  = inr [ mkDocument "The RCP controls the RIO."
            [("source", VStr "docs/guide.txt"); ("product", VStr "RCP");
             ("all_products", VList [VStr "RCP"; VStr "RIO"])];
          mkDocument ("Q: What is the RCP?" ++ nl
                      ++ "A: The RCP is a Remote Control Panel.")
            [("source", VStr "docs/faq.json"); ("type", VStr "qa");
             ("index", VInt 0); ("product", VStr "RCP");
             ("all_products", VList [VStr "RCP"; VStr "Remote Control Panel"])] ].
Proof. vm_compute. reflexivity. Qed.

End DocumentLoaderFacts.

(* ================================================================== *)
(** * The HTTP route *)
(* ================================================================== *)

Module RoutesFacts.
Import Py Qdrant Effects EffectsFacts Collection Query Routes Stated Doubles
       Plant.

Section WithCollaborators.
Variable W : Type.
Variable C : Collaborators W.
Variable F : Formatter.
Variable cfg : Config.

(** Extra X12.  The route turns a failed search into an HTTP error:
    when the query has been embedded and the search step raises an
    instance of [Exception], the handler of [POST /query] raises
    [HTTPException] with status 500 and the detail
    ["Error processing query: "] followed by the message of the
    exception, in the state the failed search left.  Any other exception
    (a keyboard interrupt, an exit) goes through the handler as it is. *)
Theorem route_answers_500_on_search_failure
        (request : QueryRequest) (query_vector : list float) (e : exn)
        (p p1 p2 : Process W) :
  call (EvEmbedQuery (rq_query request)) (embed_query C (rq_query request)) p
  = (inr query_vector, p1) ->
  search_vectors C cfg query_vector (Some (COLLECTION_NAME cfg))
    (option_map (map (fun kv => (fst kv, VStr (snd kv))))
                (rq_filter_params request))
    (rq_top_k request) (rq_score_threshold request) p1 = (inl e, p2) ->
  query C F cfg request p
  = (inl (if is_Exception e
          then RaisedHTTP
                 (mkHTTPException 500
                    ("Error processing query: " ++ message e))
          else Uncaught e), p2).
Proof.
  intros Hembed Hsearch.
  assert (Hq : query_qdrant C cfg (rq_query request) (rq_top_k request)
                 (option_map (map (fun kv => (fst kv, VStr (snd kv))))
                             (rq_filter_params request))
                 (rq_score_threshold request) p
               = (inl e, p2)).
  { unfold query_qdrant. rewrite (bind_run _ _ _ _ _ Hembed).
    now apply bind_fail. }
  unfold query, rag_query. rewrite (bind_fail _ _ _ _ _ Hq).
  now destruct (is_Exception e).
Qed.

End WithCollaborators.

Lemma route_answers_500_on_search_failure_witness :
  let p := start unreachable_index in
  let e := Raise "ResponseHandlingException" "connection refused" in
  let embedded := call (EvEmbedQuery question) (embed_query stub question) p
  in
  let searched := search_vectors stub stub_config query_vector
                    (Some "cyanview_docs") None 5 (Some 0.7%float)
                    (snd embedded) in
  embedded = (inr query_vector, snd embedded)
  /\ searched = (inl e, snd searched)
  /\ query stub stub_formatter stub_config plain_request p
     = (inl (RaisedHTTP
               (mkHTTPException 500
                  "Error processing query: connection refused")),
        snd searched).
Proof.
  split; [vm_compute; reflexivity|]. split; [vm_compute; reflexivity|].
  apply (route_answers_500_on_search_failure _ stub stub_formatter stub_config
           plain_request query_vector
           (Raise "ResponseHandlingException" "connection refused")
           (start unreachable_index)
           (snd (call (EvEmbedQuery question) (embed_query stub question)
                      (start unreachable_index)))).
  - vm_compute. reflexivity.
  - vm_compute. reflexivity.
Defined.

(** A search interrupted from the keyboard is not answered with 500. *)
Example interrupted_route_example :
  fst (query stub stub_formatter stub_config plain_request
             (start (mkStub ["cyanview_docs"]
                            (inl (RaiseBase "KeyboardInterrupt" ""))
                            (inr "An answer."))))
  = inl (Uncaught (RaiseBase "KeyboardInterrupt" "")).
Proof. vm_compute. reflexivity. Qed.

End RoutesFacts.

(* ================================================================== *)
(** * More facts about strings *)
(* ================================================================== *)

Module StringFacts.
Import Py PyFacts.

Lemma append_assoc (a b c : string) : (a ++ b) ++ c = a ++ (b ++ c).
Proof. induction a as [|x a IH]; cbn; [reflexivity | now rewrite IH]. Qed.

Lemma append_nil_r (a : string) : a ++ "" = a.
Proof. induction a as [|x a IH]; cbn; [reflexivity | now rewrite IH]. Qed.

Lemma length_append (a b : string) :
  String.length (a ++ b) = String.length a + String.length b.
Proof. induction a as [|x a IH]; cbn; [reflexivity | now rewrite IH]. Qed.

(** [sub] occurs in any text built around it. *)
Lemma contains_middle (sub x y : string) : contains sub (x ++ sub ++ y) = true.
Proof. apply contains_app. apply startswith_refl. Qed.

Lemma contains_one_char (sep c : ascii) (s : string) :
  contains (String sep "") (String c s)
  = Ascii.eqb sep c || contains (String sep "") s.
Proof.
  unfold contains. cbn [find0 startswith].
  destruct (Ascii.eqb sep c); cbn [andb orb]; [reflexivity|].
  now destruct (find0 (String sep "") s).
Qed.

(** Extra X17.  The label [format_context] shows for a string source,
    [source.split("/")[-1]], is the end of the source and holds no
    separator: the source is some text followed by the label, and the
    label has no ["/"] in it. *)
Theorem last_field_facts (sep : ascii) (s : string) :
  contains (String sep "") (last_field sep s) = false
  /\ exists before, s = before ++ last_field sep s.
Proof.
  induction s as [|c s (IHc & before & IHs)].
  - split; [reflexivity | now exists ""].
  - cbn [last_field]. destruct (Ascii.eqb c sep) eqn:E.
    + split; [exact IHc|]. exists (String c before). cbn. now f_equal.
    + destruct (contains (String sep "") s) eqn:Hc.
      * split; [exact IHc|]. exists (String c before). cbn. now f_equal.
      * split; [|now exists ""].
        rewrite contains_one_char, Hc, Ascii.eqb_sym, E. reflexivity.
Qed.

End StringFacts.

(* ================================================================== *)
(** * The client and the creation of the collection *)
(* ================================================================== *)

Module ClientFacts.
Import Py Qdrant Effects EffectsFacts Collection Stated Doubles
       CollectionFacts.

Section WithCollaborators.
Variable W : Type.
Variable C : Collaborators W.
Variable cfg : Config.

(** Extra X13.  The connection is tested on the first call only: after
    any call to [get_qdrant_client], also one whose connection test
    raised, the manager's instance is in place, and a further call
    returns the client without a call to the store. *)
Theorem connection_tested_once (p : Process W) :
  let first := get_qdrant_client C p in
  manager_instance (snd first) = true
  /\ get_qdrant_client C (snd first) = (inr tt, snd first).
Proof.
  cbv zeta. destruct (get_qdrant_client C p) as [r p1] eqn:H.
  apply get_qdrant_client_inv in H
    as [(Hm & _ & ->) | (_ & names & w' & _ & -> & _)]; cbn [snd].
  - split; [exact Hm|]. unfold get_qdrant_client. now rewrite Hm.
  - split; reflexivity.
Qed.

(** Extra X14.  When [create_collection] creates (the collection is
    missing, or [recreate] is set) and returns, its calls after the
    listing are exactly these, in this order: the deletion, only when the
    collection was listed; the creation with the given vector size, the
    cosine distance and an indexing threshold of 0; and the keyword
    indexes on ["product"] and on ["type"]. *)
Theorem create_collection_steps
        (vector_size : Z) (collection_name : option string)
        (recreate : bool) (names : list string) (w2 : W)
        (p p1 p' : Process W) :
  let name := or_default cfg collection_name in
  let present := existsb (String.eqb name) names in
  get_qdrant_client C p = (inr tt, p1) ->
  get_collections C (world p1) = (inr names, w2) ->
  present && negb recreate = false ->
  create_collection C cfg vector_size collection_name recreate p
  = (inr tt, p') ->
  log p'
  = (log p1
     ++ [EvGetCollections]
     ++ (if present then [EvDeleteCollection name] else [])
     ++ [EvCreateCollection name (mkVectorParams vector_size COSINE)
                            (mkOptimizersConfigDiff 0);
         EvCreatePayloadIndex name "product" KEYWORD;
         EvCreatePayloadIndex name "type" KEYWORD])%list.
Proof.
  cbv zeta. intros Hclient Hlist Hguard H. unfold create_collection in H.
  rewrite (bind_run _ _ _ _ _ Hclient) in H.
  assert (Hc : call EvGetCollections (get_collections C) p1
               = (inr names, mkProcess w2 (manager_instance p1)
                                       (log p1 ++ [EvGetCollections])%list)).
  { unfold call. now rewrite Hlist. }
  rewrite (bind_run _ _ _ _ _ Hc) in H. rewrite Hguard in H.
  apply bind_inr in H as ([] & q1 & Hdel & H).
  apply bind_inr in H as ([] & q2 & Hcreate & H).
  apply bind_inr in H as ([] & q3 & Hidx1 & H).
  apply bind_inr in H as ([] & q4 & Hidx2 & H).
  injection H as <-.
  apply call_inv in Hidx2 as (? & _ & ->).
  apply call_inv in Hidx1 as (? & _ & ->).
  apply call_inv in Hcreate as (? & _ & ->).
  cbn [log].
  destruct (existsb _ names).
  - apply call_inv in Hdel as (? & _ & ->). cbn [log].
    now rewrite <- !app_assoc.
  - injection Hdel as <-. cbn [log]. now rewrite <- !app_assoc.
Qed.

End WithCollaborators.

Lemma create_collection_steps_witness :
  let p := start (index_of []) in
  let p1 := snd (get_qdrant_client stub p) in
  let run := create_collection stub stub_config 1024 None true p in
  get_qdrant_client stub p = (inr tt, p1)
  /\ get_collections stub (world p1) = (inr ["cyanview_docs"], world p1)
  /\ existsb (String.eqb (or_default stub_config None)) ["cyanview_docs"]
     && negb true = false
  /\ run = (inr tt, snd run)
  /\ log (snd run)
     = (log p1
        ++ [EvGetCollections]
        ++ (if existsb (String.eqb (or_default stub_config None))
                       ["cyanview_docs"]
            then [EvDeleteCollection (or_default stub_config None)]
            else [])
        ++ [EvCreateCollection (or_default stub_config None)
                               (mkVectorParams 1024 COSINE)
                               (mkOptimizersConfigDiff 0);
            EvCreatePayloadIndex (or_default stub_config None) "product"
                                 KEYWORD;
            EvCreatePayloadIndex (or_default stub_config None) "type"
                                 KEYWORD])%list.
Proof.
  split; [reflexivity|]. split; [reflexivity|]. split; [reflexivity|].
  split; [reflexivity|].
  apply (create_collection_steps _ stub stub_config 1024 None true
           ["cyanview_docs"]
           (world (snd (get_qdrant_client stub (start (index_of [])))))
           (start (index_of []))
           (snd (get_qdrant_client stub (start (index_of []))))).
  - reflexivity.
  - reflexivity.
  - reflexivity.
  - reflexivity.
Defined.

End ClientFacts.

(* ================================================================== *)
(** * More about the Retrieval Orchestrator *)
(* ================================================================== *)

Module OrchestratorFacts.
Import Py PyFacts Qdrant Effects EffectsFacts Collection Query Stated Doubles
       Plant Notions CollectionFacts StringFacts.

Lemma join_member (sep part : string) (parts : list string) :
  In part parts -> exists x y, join sep parts = x ++ part ++ y.
Proof.
  induction parts as [|a rest IH]; [intros []|].
  intros [-> | Hin].
  - destruct rest as [|b rest'].
    + exists "", "". cbn. now rewrite append_nil_r.
    + exists "", (sep ++ join sep (b :: rest')). reflexivity.
  - destruct (IH Hin) as (x & y & Hxy).
    destruct rest as [|b rest']; [destruct Hin|].
    exists (a ++ sep ++ x), y.
    change (join sep (a :: b :: rest'))
      with (a ++ sep ++ join sep (b :: rest')).
    now rewrite Hxy, !append_assoc.
Qed.

Section WithFormatter.
Variable F : Formatter.

Lemma context_part_labelled (i : nat) (result : Context) :
  match context_part F i result with
  | inr _ => labelled (c_source result) = true
  | inl e =>
      e = no_split (c_source result) /\ labelled (c_source result) = false
  end.
Proof.
  unfold context_part, labelled.
  destruct (truthy (c_source result)) eqn:T; cbn [negb orb];
    [|reflexivity].
  destruct (c_source result); cbn [orb]; first [reflexivity | now split].
Qed.

Lemma context_parts_labelled (results : list Context) :
  forall i,
    match context_parts F i results with
    | inr parts =>
        forallb (fun r => labelled (c_source r)) results = true
        /\ List.length parts = List.length results
    | inl e =>
        (exists result,
           In result results
           /\ labelled (c_source result) = false
           /\ e = no_split (c_source result))
        /\ forallb (fun r => labelled (c_source r)) results = false
    end.
Proof.
  induction results as [|r rest IH]; intros i; [now split|].
  cbn [context_parts forallb].
  pose proof (context_part_labelled i r) as Hr.
  destruct (context_part F i r) as [e|part].
  - destruct Hr as [-> Hbad]. rewrite Hbad. split; [|reflexivity].
    exists r. split; [now left | now split].
  - rewrite Hr. cbn [andb]. specialize (IH (S i)).
    destruct (context_parts F (S i) rest) as [e|parts].
    + destruct IH as [(bad & Hin & Hbad & ->) Hall]. split; [|exact Hall].
      exists bad. split; [now right | now split].
    + destruct IH as [-> Hlen]. split; [reflexivity|]. cbn. now rewrite Hlen.
Qed.

(** Extra X15.  [format_context] returns a context exactly when every
    result's source is a string or counts as false (missing, empty, 0);
    otherwise, in particular for a number other than 0 or a non-empty
    list, it raises the [AttributeError] of such a result, whose message
    names the type of its source. *)
Theorem format_context_needs_string_sources (results : list Context) :
  match format_context F results with
  | inr _ => forallb (fun r => labelled (c_source r)) results = true
  | inl e =>
      (exists result,
         In result results
         /\ labelled (c_source result) = false
         /\ e = Raise "AttributeError"
                      ("'" ++ type_name (c_source result)
                       ++ "' object has no attribute 'split'"))
      /\ forallb (fun r => labelled (c_source r)) results = false
  end.
Proof.
  unfold format_context.
  pose proof (context_parts_labelled results 0) as H.
  destruct (context_parts F 0 results); [exact H | apply H].
Qed.

Lemma context_parts_member (results : list Context) (result : Context) :
  In result results ->
  forall i parts,
    context_parts F i results = inr parts ->
    exists j part, context_part F j result = inr part /\ In part parts.
Proof.
  induction results as [|r rest IH]; [intros []|].
  intros Hin i parts. cbn [context_parts].
  destruct (context_part F i r) as [e|part] eqn:Hp; [discriminate|].
  destruct (context_parts F (S i) rest) as [e|parts'] eqn:Hps;
    [discriminate|].
  intros [= <-]. destruct Hin as [-> | Hin].
  - exists i, part. split; [exact Hp | now left].
  - destruct (IH Hin (S i) parts' Hps) as (j & part' & H1 & H2).
    exists j, part'. split; [exact H1 | now right].
Qed.

(** Extra X16.  The context shows every result with its source and
    product: for a result with a non-empty string source, a non-empty
    string product and a string text, the context that [format_context]
    returns contains the block made of ["[Source: "], the last path
    component of the source, the product in square brackets,
    [", Score: "], the formatted score, ["]"], a line feed, the text and
    two line feeds. *)
Theorem format_context_block
        (results : list Context) (result : Context)
        (context source product text : string) :
  format_context F results = inr context ->
  In result results ->
  c_source result = VStr source -> source <> "" ->
  c_product result = VStr product -> product <> "" ->
  c_text result = VStr text ->
  contains ("[Source: " ++ last_field "/" source
            ++ (" [" ++ product ++ "]")
            ++ ", Score: " ++ format_2f F (c_score result) ++ "]" ++ nl
            ++ text ++ nl ++ nl) context
  = true.
Proof.
  unfold format_context.
  intros Hctx Hin Hs Hsne Hp Hpne Ht.
  destruct (context_parts F 0 results) as [e|parts] eqn:Hparts;
    [discriminate|].
  injection Hctx as <-.
  destruct (context_parts_member results result Hin 0 parts Hparts)
    as (j & part & Hpart & Hmem).
  unfold context_part in Hpart. rewrite Hs, Hp, Ht in Hpart.
  cbn [truthy str] in Hpart.
  apply String.eqb_neq in Hsne, Hpne. rewrite Hsne, Hpne in Hpart.
  cbn [negb] in Hpart. injection Hpart as <-.
  destruct (join_member nl _ parts Hmem) as (x & y & ->).
  apply contains_middle.
Qed.

End WithFormatter.

Section WithCollaborators.
Variable W : Type.
Variable C : Collaborators W.
Variable F : Formatter.
Variable cfg : Config.

(** Extra X18.  A call to [query_qdrant] that returns has embedded the
    query text once and then searched once, and made no other call than
    the connection test of a first use: the search was made in the
    configured collection with the vector the embedder returned, with
    [limit] = [top_k], with the given threshold and with the filter built
    from [filter_params]. *)
Theorem query_qdrant_calls
        (query_text : string) (top_k : Z)
        (filter_params : option (dict Value))
        (score_threshold : option float)
        (contexts : list Context) (p p' : Process W) :
  query_qdrant C cfg query_text top_k filter_params score_threshold p
  = (inr contexts, p') ->
  exists (query_vector : list float) (query_filter : option Filter),
    fst (embed_query C query_text (world p)) = inr query_vector
    /\ query_filter_of C filter_params = inr query_filter
    /\ log p'
       = (log p
          ++ [EvEmbedQuery query_text]
          ++ (if manager_instance p then [] else [EvGetCollections])
          ++ [EvSearch (mkSearchParams
                          (or_default cfg (Some (COLLECTION_NAME cfg)))
                          query_vector top_k query_filter
                          score_threshold)])%list.
Proof.
  unfold query_qdrant. intros H.
  apply bind_inr in H as (qv & p1 & Hembed & H).
  apply bind_inr in H as (hits & p2 & Hsearch & H).
  injection H as _ <-.
  apply call_inv in Hembed as (w1 & Hop & ->).
  apply search_vectors_inv in Hsearch as (rc & p3 & Hclient & H).
  destruct rc as [e|[]]; [now destruct H|].
  destruct (query_filter_of C filter_params) as [e|query_filter];
    [now destruct H|].
  cbv zeta in H. destruct H as (rs & w' & _ & -> & _).
  exists qv, query_filter. split; [now rewrite Hop|].
  split; [reflexivity|].
  apply get_qdrant_client_log in Hclient as (Hlog & _ & _).
  cbn [log manager_instance] in *. now rewrite Hlog, <- !app_assoc.
Qed.

(** Extra X19.  When results were found, the context is assembled, a
    chain is available and its [run] returns, [rag_query] returns the
    bundle with the query, the context, one source per result in result
    order and, as [answer], what the chain returned; the chain was run
    once, with the prompt chosen by [is_technical], on that very context
    and the query. *)
Theorem rag_query_answers
        (query_text : string) (top_k : Z)
        (filter_params : option (dict Value))
        (score_threshold : option float) (is_technical : bool)
        (result : Context) (rest : list Context) (context answer : string)
        (chain : LLMChain) (p p1 p2 p3 : Process W) :
  let results := result :: rest in
  query_qdrant C cfg query_text top_k filter_params score_threshold p
  = (inr results, p1) ->
  format_context F results = inr context ->
  get_llm_chain C cfg is_technical p1 = (inr (Some chain), p2) ->
  call (EvRunChain (technical_prompt chain) context query_text)
       (run_chain C (technical_prompt chain) context query_text) p2
  = (inr answer, p3) ->
  rag_query C F cfg query_text top_k filter_params score_threshold
            is_technical p
  = (inr (mkResponse query_text context (map c_source results)
                     (Some answer)), p3)
  /\ log p3 = (log p2 ++ [EvRunChain is_technical context query_text])%list.
Proof.
  intros results Hq Hctx Hchain Hrun. subst results.
  assert (Htech : technical_prompt chain = is_technical).
  { unfold get_llm_chain in Hchain.
    destruct (String.eqb (lower (LLM_PROVIDER cfg)) "openai");
      [|discriminate].
    destruct (String.eqb (OPENAI_API_KEY cfg) ""); [discriminate|].
    apply bind_inr in Hchain as ([] & q & _ & H).
    injection H as <- _. reflexivity. }
  split.
  - unfold rag_query. rewrite (bind_run _ _ _ _ _ Hq).
    assert (Hl : lift (W := W) (format_context F (result :: rest)) p1
                 = (inr context, p1)) by (unfold lift; now rewrite Hctx).
    rewrite (bind_run _ _ _ _ _ Hl), (bind_run _ _ _ _ _ Hchain).
    unfold try_except. now rewrite (bind_run _ _ _ _ _ Hrun).
  - rewrite Htech in Hrun. now apply call_inv in Hrun as (w' & _ & ->).
Qed.

(** Extra X20.  Only the run of the chain is guarded: when results were
    found, the provider is ["openai"] in any letter case, an API key is
    set, and building the chain raises, [rag_query] raises that exception
    instead of returning a bundle. *)
Theorem chain_building_failure_is_raised
        (query_text : string) (top_k : Z)
        (filter_params : option (dict Value))
        (score_threshold : option float) (is_technical : bool)
        (result : Context) (rest : list Context) (context : string)
        (e : exn) (w2 : W) (p p1 : Process W) :
  let results := result :: rest in
  query_qdrant C cfg query_text top_k filter_params score_threshold p
  = (inr results, p1) ->
  format_context F results = inr context ->
  lower (LLM_PROVIDER cfg) = "openai" ->
  OPENAI_API_KEY cfg <> "" ->
  build_chain C is_technical (world p1) = (inl e, w2) ->
  rag_query C F cfg query_text top_k filter_params score_threshold
            is_technical p
  = (inl e, mkProcess w2 (manager_instance p1)
                      (log p1 ++ [EvBuildChain is_technical])%list).
Proof.
  intros results Hq Hctx Hprov Hkey Hbuild. subst results.
  unfold rag_query. rewrite (bind_run _ _ _ _ _ Hq).
  assert (Hl : lift (W := W) (format_context F (result :: rest)) p1
               = (inr context, p1)) by (unfold lift; now rewrite Hctx).
  rewrite (bind_run _ _ _ _ _ Hl).
  apply bind_fail. unfold get_llm_chain. rewrite Hprov, String.eqb_refl.
  apply String.eqb_neq in Hkey. rewrite Hkey.
  apply bind_fail. unfold call. now rewrite Hbuild.
Qed.

(** Extra X21.  One hit is enough to fail a query: when the search step
    returns a result whose source is neither a string nor a value that
    counts as false, [rag_query] raises [AttributeError] in the state the
    search left, and returns no bundle; the message names the type of
    the source of such a result. *)
Theorem unlabelled_source_fails_query
        (query_text : string) (top_k : Z)
        (filter_params : option (dict Value))
        (score_threshold : option float) (is_technical : bool)
        (results : list Context) (result : Context) (p p1 : Process W) :
  query_qdrant C cfg query_text top_k filter_params score_threshold p
  = (inr results, p1) ->
  In result results ->
  labelled (c_source result) = false ->
  exists bad : Context,
    In bad results
    /\ labelled (c_source bad) = false
    /\ rag_query C F cfg query_text top_k filter_params score_threshold
                 is_technical p
       = (inl (Raise "AttributeError"
                     ("'" ++ type_name (c_source bad)
                      ++ "' object has no attribute 'split'")), p1).
Proof.
  intros Hq Hin Hbad. unfold rag_query. rewrite (bind_run _ _ _ _ _ Hq).
  pose proof (context_parts_labelled F results 0) as H.
  destruct results as [|r rest]; [destruct Hin|].
  unfold bind, lift, format_context.
  destruct (context_parts F 0 (r :: rest)) as [e|parts].
  - destruct H as [(bad & Hb1 & Hb2 & ->) _]. exists bad.
    split; [exact Hb1|]. split; [exact Hb2 | reflexivity].
  - exfalso. destruct H as [H _]. rewrite forallb_forall in H.
    specialize (H result Hin). congruence.
Qed.

End WithCollaborators.

(** The message for a source that is a number. *)
Example numbered_source_example :
  fst (rag_query stub stub_formatter stub_config question 5 None
                 (Some 0.7%float) false (start (index_of [numbered_source])))
  = inl (Raise "AttributeError" "'int' object has no attribute 'split'").
Proof. vm_compute. reflexivity. Qed.

Lemma format_context_block_witness :
  let result := Query.mkContext
                  (VStr "The RCP is Cyanview's Remote Control Panel.")
                  (VStr "docs/doc1.txt") (VStr "RCP") 0.95%float 1 in
  let context :=
    match format_context stub_formatter test_results with
    | inr c => c
    | inl _ => ""
    end in
  format_context stub_formatter test_results = inr context
  /\ In result test_results
  /\ c_source result = VStr "docs/doc1.txt" /\ "docs/doc1.txt" <> ""
  /\ c_product result = VStr "RCP" /\ "RCP" <> ""
  /\ c_text result = VStr "The RCP is Cyanview's Remote Control Panel."
  /\ contains ("[Source: " ++ last_field "/" "docs/doc1.txt"
               ++ (" [" ++ "RCP" ++ "]")
               ++ ", Score: " ++ format_2f stub_formatter (c_score result)
               ++ "]" ++ nl
               ++ "The RCP is Cyanview's Remote Control Panel." ++ nl ++ nl)
              context
     = true.
Proof.
  split; [vm_compute; reflexivity|]. split; [now left|].
  split; [reflexivity|]. split; [discriminate|].
  split; [reflexivity|]. split; [discriminate|].
  split; [reflexivity|].
  apply (format_context_block stub_formatter test_results
           (Query.mkContext
              (VStr "The RCP is Cyanview's Remote Control Panel.")
              (VStr "docs/doc1.txt") (VStr "RCP") 0.95%float 1)
           (match format_context stub_formatter test_results with
            | inr c => c
            | inl _ => ""
            end)
           "docs/doc1.txt" "RCP"
           "The RCP is Cyanview's Remote Control Panel.").
  - vm_compute. reflexivity.
  - now left.
  - reflexivity.
  - discriminate.
  - reflexivity.
  - discriminate.
  - reflexivity.
Defined.

Lemma query_qdrant_calls_witness :
  let p := start (index_of three_matches) in
  let run := query_qdrant stub stub_config question 5 None (Some 0.7%float) p
  in
  let contexts := match fst run with inr c => c | inl _ => [] end in
  run = (inr contexts, snd run)
  /\ exists (qv : list float) (query_filter : option Filter),
       fst (embed_query stub question (world p)) = inr qv
       /\ query_filter_of stub None = inr query_filter
       /\ log (snd run)
          = (log p
             ++ [EvEmbedQuery question]
             ++ (if manager_instance p then [] else [EvGetCollections])
             ++ [EvSearch (mkSearchParams
                             (or_default stub_config
                                         (Some (COLLECTION_NAME stub_config)))
                             qv 5 query_filter
                             (Some 0.7%float))])%list.
Proof.
  split; [vm_compute; reflexivity|].
  apply (query_qdrant_calls _ stub stub_config question 5 None
           (Some 0.7%float)
           (match fst (query_qdrant stub stub_config question 5 None
                         (Some 0.7%float) (start (index_of three_matches)))
            with inr c => c | inl _ => [] end)
           (start (index_of three_matches))).
  vm_compute. reflexivity.
Defined.

Lemma rag_query_answers_witness :
  let p := start (index_of three_matches) in
  let result := context_of (result_of (point 0 0.95%float "a")) in
  let rest := [context_of (result_of (point 1 0.72%float "b"))] in
  let context :=
    match format_context stub_formatter (result :: rest) with
    | inr c => c
    | inl _ => ""
    end in
  let queried := query_qdrant stub stub_config question 5 None
                              (Some 0.7%float) p in
  let chained := get_llm_chain stub stub_config true (snd queried) in
  let chain := mkLLMChain true in
  let ran := call (EvRunChain (technical_prompt chain) context question)
                  (run_chain stub (technical_prompt chain) context question)
                  (snd chained) in
  queried = (inr (result :: rest), snd queried)
  /\ format_context stub_formatter (result :: rest) = inr context
  /\ chained = (inr (Some chain), snd chained)
  /\ ran = (inr "An answer.", snd ran)
  /\ rag_query stub stub_formatter stub_config question 5 None
               (Some 0.7%float) true p
     = (inr (mkResponse question context (map c_source (result :: rest))
                        (Some "An answer.")), snd ran)
  /\ log (snd ran)
     = (log (snd chained) ++ [EvRunChain true context question])%list.
Proof.
  split; [vm_compute; reflexivity|]. split; [vm_compute; reflexivity|].
  split; [vm_compute; reflexivity|]. split; [vm_compute; reflexivity|].
  apply (rag_query_answers _ stub stub_formatter stub_config question 5 None
           (Some 0.7%float) true
           (context_of (result_of (point 0 0.95%float "a")))
           [context_of (result_of (point 1 0.72%float "b"))]
           (match format_context stub_formatter
                    [context_of (result_of (point 0 0.95%float "a"));
                     context_of (result_of (point 1 0.72%float "b"))]
            with inr c => c | inl _ => "" end)
           "An answer." (mkLLMChain true)
           (start (index_of three_matches))
           (snd (query_qdrant stub stub_config question 5 None
                   (Some 0.7%float) (start (index_of three_matches))))
           (snd (get_llm_chain stub stub_config true
                   (snd (query_qdrant stub stub_config question 5 None
                           (Some 0.7%float)
                           (start (index_of three_matches)))))));
    vm_compute; reflexivity.
Defined.

Lemma chain_building_failure_is_raised_witness :
  let p := start (index_of three_matches) in
  let result := context_of (result_of (point 0 0.95%float "a")) in
  let rest := [context_of (result_of (point 1 0.72%float "b"))] in
  let context :=
    match format_context stub_formatter (result :: rest) with
    | inr c => c
    | inl _ => ""
    end in
  let queried := query_qdrant no_chain stub_config question 5 None
                              (Some 0.7%float) p in
  let e := Raise "ImportError" "openai is not installed" in
  queried = (inr (result :: rest), snd queried)
  /\ format_context stub_formatter (result :: rest) = inr context
  /\ lower (LLM_PROVIDER stub_config) = "openai"
  /\ OPENAI_API_KEY stub_config <> ""
  /\ build_chain no_chain false (world (snd queried))
     = (inl e, world (snd queried))
  /\ rag_query no_chain stub_formatter stub_config question 5 None
               (Some 0.7%float) false p
     = (inl e,
        mkProcess (world (snd queried)) (manager_instance (snd queried))
                  (log (snd queried) ++ [EvBuildChain false])%list).
Proof.
  split; [vm_compute; reflexivity|]. split; [vm_compute; reflexivity|].
  split; [reflexivity|]. split; [discriminate|].
  split; [reflexivity|].
  apply (chain_building_failure_is_raised _ no_chain stub_formatter
           stub_config question 5 None (Some 0.7%float) false
           (context_of (result_of (point 0 0.95%float "a")))
           [context_of (result_of (point 1 0.72%float "b"))]
           (match format_context stub_formatter
                    [context_of (result_of (point 0 0.95%float "a"));
                     context_of (result_of (point 1 0.72%float "b"))]
            with inr c => c | inl _ => "" end)
           (Raise "ImportError" "openai is not installed")
           (world (snd (query_qdrant no_chain stub_config question 5 None
                          (Some 0.7%float)
                          (start (index_of three_matches)))))
           (start (index_of three_matches))
           (snd (query_qdrant no_chain stub_config question 5 None
                   (Some 0.7%float) (start (index_of three_matches))))).
  - vm_compute. reflexivity.
  - vm_compute. reflexivity.
  - reflexivity.
  - discriminate.
  - reflexivity.
Defined.

Lemma unlabelled_source_fails_query_witness :
  let p := start (index_of [numbered_source]) in
  let result := context_of (result_of numbered_source) in
  let queried := query_qdrant stub stub_config question 5 None
                              (Some 0.7%float) p in
  queried = (inr [result], snd queried)
  /\ In result [result]
  /\ labelled (c_source result) = false
  /\ exists bad : Context,
       In bad [result]
       /\ labelled (c_source bad) = false
       /\ rag_query stub stub_formatter stub_config question 5 None
                    (Some 0.7%float) false p
          = (inl (Raise "AttributeError"
                        ("'" ++ type_name (c_source bad)
                         ++ "' object has no attribute 'split'")),
             snd queried).
Proof.
  split; [vm_compute; reflexivity|]. split; [now left|].
  split; [reflexivity|].
  apply (unlabelled_source_fails_query _ stub stub_formatter stub_config
           question 5 None (Some 0.7%float) false
           [context_of (result_of numbered_source)]
           (context_of (result_of numbered_source))
           (start (index_of [numbered_source]))).
  - vm_compute. reflexivity.
  - now left.
  - reflexivity.
Defined.

End OrchestratorFacts.

(* ================================================================== *)
(** * More about the Chunker *)
(* ================================================================== *)

Module ChunkerFacts.
Import Py PyFacts TextSplitter Stated Doubles Notions TextSplitterFacts
       StringFacts.

(** The two outcomes of the repair: the chunk as it is, or the question
    part of the chunk followed by an excerpt that starts with the answer
    marker. *)
Lemma repair_qa_cases (doc : Document) (chunk_text : string) :
  repair_qa doc chunk_text = chunk_text
  \/ exists question excerpt,
       repair_qa doc chunk_text = question ++ nl ++ excerpt ++ "..."
       /\ startswith "A: " excerpt = true
       /\ String.length excerpt <= 200
       /\ String.length question <= String.length chunk_text.
Proof.
  unfold repair_qa.
  destruct (match get (metadata doc) "type" with
            | Some v => eq_str v "qa"
            | None => false
            end); cbn [andb]; [|now left].
  destruct (contains "Q: " chunk_text) eqn:Hq; cbn [andb]; [|now left].
  destruct (contains "A: " chunk_text); cbn [negb]; [now left|].
  pose proof (find_found chunk_text "Q: " 0 (find_of_contains _ _ Hq))
    as [Hk _].
  rewrite (slice_from_drop _ _ Hk).
  set (question := drop (Z.to_nat (find chunk_text "Q: " 0)) chunk_text).
  set (answer_start :=
         find (page_content doc) "A: " (find (page_content doc) question 0)).
  destruct (answer_start =? -1)%Z eqn:E; cbn [negb]; [now left|].
  apply Z.eqb_neq in E. right.
  destruct (find_found _ _ _ E) as [Hrange Hanswer].
  fold answer_start in Hrange, Hanswer.
  rewrite (slice_take_200 _ _ Hrange).
  exists question, (take 200 (drop (Z.to_nat answer_start) (page_content doc))).
  split; [reflexivity|].
  split; [apply startswith_take; [exact Hanswer | cbn; lia]|].
  split; [rewrite length_take; lia|].
  unfold question. rewrite length_drop. lia.
Qed.

(** Extra X23.  The repair is idempotent: a chunk that has been through
    it comes out of a second pass unchanged. *)
Theorem repair_qa_idempotent (doc : Document) (chunk_text : string) :
  repair_qa doc (repair_qa doc chunk_text) = repair_qa doc chunk_text.
Proof.
  destruct (repair_qa_cases doc chunk_text)
    as [H | (question & excerpt & H & Hstart & _)].
  - now rewrite H.
  - rewrite H.
    assert (Ha : contains "A: " (question ++ nl ++ excerpt ++ "...") = true).
    { rewrite <- append_assoc. apply contains_app.
      now apply startswith_app_l. }
    unfold repair_qa at 1. rewrite Ha. cbn [negb].
    now rewrite !andb_false_r.
Qed.

(** Extra X24.  The repair lengthens a chunk by at most 204 characters
    (a line feed, at most 200 characters of answer, and the ellipsis): an
    emitted chunk has at most the length of the splitter's piece plus
    204. *)
Theorem repair_qa_growth (doc : Document) (chunk_text : string) :
  String.length (repair_qa doc chunk_text) <= String.length chunk_text + 204.
Proof.
  destruct (repair_qa_cases doc chunk_text)
    as [-> | (question & excerpt & -> & _ & Hex & Hq)]; [lia|].
  rewrite !length_append. cbn [String.length nl]. lia.
Qed.

Section AnySplitter.
Variable splitter : Z -> Z -> list string -> string -> list string.

(** Extra X22.  Every chunk inherits the metadata of its document: for
    every key other than ["chunk"] and ["chunk_total"], the chunk has the
    value the document has, or none if the document has none. *)
Theorem chunks_inherit_metadata (chunk_size chunk_overlap : Z)
        (doc : Document) :
  Forall (fun chunk =>
            forall k, k <> "chunk" -> k <> "chunk_total" ->
                      get (metadata chunk) k = get (metadata doc) k)
         (split_document splitter chunk_size chunk_overlap doc).
Proof.
  unfold split_document.
  generalize (List.length (splitter chunk_size chunk_overlap separators
                                    (page_content doc))) as total.
  generalize 0 as i.
  induction (splitter chunk_size chunk_overlap separators (page_content doc))
    as [|chunk_text rest IH]; intros i total; constructor.
  - intros k H1 H2. cbn [metadata].
    rewrite get_set_other by congruence.
    now rewrite get_set_other by congruence.
  - apply IH.
Qed.

End AnySplitter.

(** Extra X25.  For a document whose type is not ["qa"], the texts of
    the chunks are the splitter's pieces, unchanged and in order. *)
Theorem other_documents_keep_pieces
        (splitter : Z -> Z -> list string -> string -> list string)
        (chunk_size chunk_overlap : Z) (doc : Document) :
  get (metadata doc) "type" <> Some (VStr "qa") ->
  map page_content (split_document splitter chunk_size chunk_overlap doc)
  = splitter chunk_size chunk_overlap separators (page_content doc).
Proof.
  intros Htype. unfold split_document. rewrite emit_chunks_texts.
  rewrite <- (map_id (splitter _ _ _ _)) at 2.
  apply map_ext. intros chunk_text. unfold repair_qa.
  destruct (get (metadata doc) "type") as [[| | |t|]|] eqn:E;
    try reflexivity.
  cbn [eq_str]. destruct (String.eqb t "qa") eqn:Et; [|reflexivity].
  apply String.eqb_eq in Et. subst t. congruence.
Qed.

Lemma other_documents_keep_pieces_witness :
  let doc := mkDocument "The RCP controls the RIO. It is a panel."
                        [("source", VStr "guide.txt")] in
  let pieces := ["The RCP controls the RIO."; "It is a panel."] in
  get (metadata doc) "type" <> Some (VStr "qa")
  /\ map page_content (split_document (pieces_splitter pieces) 30 0 doc)
     = pieces_splitter pieces 30 0 separators (page_content doc).
Proof.
  split.
  - discriminate.
  - apply (other_documents_keep_pieces
             (pieces_splitter ["The RCP controls the RIO."; "It is a panel."])
             30 0
             (mkDocument "The RCP controls the RIO. It is a panel."
                         [("source", VStr "guide.txt")])).
    discriminate.
Defined.

End ChunkerFacts.

(* ================================================================== *)
(** * More about the Metadata Extractor *)
(* ================================================================== *)

Module ExtractorFacts.
Import Py PyFacts Metadata Stated Notions MetadataFacts StringFacts.

Lemma reference_lists_nodup :
  NoDup CYANVIEW_PRODUCTS /\ NoDup CYANVIEW_TOPICS.
Proof.
  split.
  - change CYANVIEW_PRODUCTS with (nodup string_dec CYANVIEW_PRODUCTS).
    apply NoDup_nodup.
  - change CYANVIEW_TOPICS with (nodup string_dec CYANVIEW_TOPICS).
    apply NoDup_nodup.
Qed.

Lemma extract_references_within (terms : list string) (content : string) :
  NoDup terms ->
  NoDup (extract_references terms content)
  /\ incl (extract_references terms content) terms.
Proof.
  intros Hnd. rewrite extract_references_sort.
  set (kept := filter _ terms).
  assert (Hperm : Permutation (sort_desc
                   (fun t => count_occurrences t content) kept) kept)
    by apply sort_desc_perm.
  split.
  - eapply Permutation_NoDup; [apply Permutation_sym, Hperm|].
    now apply NoDup_filter.
  - intros t Hin. eapply Permutation_in in Hin; [|exact Hperm].
    unfold kept in Hin. now apply filter_In in Hin as [Hin _].
Qed.

(** Extra X26.  The extractors return known terms only, each at most
    once: the products are distinct terms of [CYANVIEW_PRODUCTS], the
    topics distinct terms of [CYANVIEW_TOPICS], whatever the content. *)
Theorem extracted_references_are_known (content : string) :
  NoDup (extract_product_references content)
  /\ incl (extract_product_references content) CYANVIEW_PRODUCTS
  /\ NoDup (extract_topics content)
  /\ incl (extract_topics content) CYANVIEW_TOPICS.
Proof.
  destruct reference_lists_nodup as [Hp Ht].
  destruct (extract_references_within CYANVIEW_PRODUCTS content Hp).
  destruct (extract_references_within CYANVIEW_TOPICS content Ht).
  now repeat split.
Qed.

(** Extra X27.  The extracted metadata has no other keys than
    ["product"], ["all_products"], ["topic"], ["all_topics"] and
    ["type"], each at most once (so never ["source"], ["chunk"] or
    ["text"]), and it has ["type"], with the value ["qa"], exactly when
    [is_qa_content] holds of the content. *)
Theorem extracted_metadata_keys (content : string) :
  let metadata := extract_metadata_from_content content in
  NoDup (map fst metadata)
  /\ incl (map fst metadata)
          ["product"; "all_products"; "topic"; "all_topics"; "type"]
  /\ get metadata "type"
     = if is_qa_content content then Some (VStr "qa") else None.
Proof.
  cbv zeta. unfold extract_metadata_from_content.
  destruct (extract_product_references content) as [|p ps];
    destruct (extract_topics content) as [|t ts];
    destruct (is_qa_content content); cbn;
    (split; [repeat constructor; cbn; intuition discriminate|]);
    (split; [intros k Hk; cbn in *; intuition | reflexivity]).
Qed.

Lemma find0_middle (sub x y : string) :
  exists k, find0 sub (x ++ sub ++ y) = Some k /\ k <= String.length x.
Proof.
  induction x as [|c x (k & Hk & Hle)].
  - exists 0. cbn [append].
    assert (H : startswith sub (sub ++ y) = true) by apply startswith_refl.
    destruct (sub ++ y); cbn [find0]; rewrite H; split; auto.
  - cbn [append find0].
    destruct (startswith sub (String c (x ++ sub ++ y))).
    + exists 0. split; [reflexivity | lia].
    + exists (S k). rewrite Hk. split; [reflexivity | cbn; lia].
Qed.

Lemma q_then_a_shape (a b c : string) :
  q_then_a (a ++ "Q:" ++ b ++ "A:" ++ c) = true.
Proof.
  unfold q_then_a.
  destruct (find0_middle "Q:" a (b ++ "A:" ++ c)) as (k & -> & Hk).
  rewrite <- (append_assoc a "Q:").
  rewrite drop_app by (rewrite length_append; cbn; lia).
  rewrite <- append_assoc. apply contains_app. apply startswith_refl.
Qed.

Lemma spaces_then_upper_shape (ws : string) (u : ascii) (c : string) :
  ws <> "" -> all_space ws = true -> is_upper_AZ u = true ->
  spaces_then_upper (ws ++ String u c) = true.
Proof.
  intros Hne Hall Hu. induction ws as [|w ws IH]; [congruence|].
  cbn [all_space] in Hall. apply andb_prop in Hall as [Hw Hall].
  cbn [append spaces_then_upper]. rewrite Hw. cbn [andb].
  destruct ws as [|w' ws'].
  - cbn [append]. now rewrite Hu.
  - rewrite IH by (congruence || assumption). apply orb_true_r.
Qed.

Lemma question_then_answer_shape (a rest : string) :
  spaces_then_upper rest = true ->
  question_then_answer (a ++ "?" ++ rest) = true.
Proof.
  intros H. change ("?" ++ rest) with (String "?"%char rest).
  induction a as [|x a IH].
  - cbn. now rewrite H.
  - cbn [append question_then_answer]. rewrite IH. apply orb_true_r.
Qed.

(** Extra X28.  [is_qa_content] holds of every text in which ["Q:"] is
    followed, anywhere later, by ["A:"], and of every text in which a
    question mark is followed by one or more white-space characters and
    then a capital letter from A to Z. *)
Theorem is_qa_content_shapes :
  (forall a b c : string, is_qa_content (a ++ "Q:" ++ b ++ "A:" ++ c) = true)
  /\ (forall (a ws : string) (u : ascii) (c : string),
        ws <> "" -> all_space ws = true -> is_upper_AZ u = true ->
        is_qa_content (a ++ "?" ++ ws ++ String u c) = true).
Proof.
  split.
  - intros a b c. unfold is_qa_content. now rewrite q_then_a_shape.
  - intros a ws u c Hne Hall Hu. unfold is_qa_content.
    rewrite question_then_answer_shape
      by now apply spaces_then_upper_shape.
    now destruct (q_then_a _).
Qed.

End ExtractorFacts.
